(** * Buchfink: balances aggregation, trade ledgers and report runs

    A shallow embedding of [buchfink/cli.py] and [buchfink/db.py].

    The commands of the program talk to collaborators that live outside the
    two source files (exchange clients, chain managers, the price inquirer,
    the accounting engine, the file system).  Each collaborator call is a
    field of an environment record; a call that raises a Python exception
    returns [Raise e], and since neither source file contains a single
    [try] statement, every [Raise] travels up to the command unchanged. *)

From Stdlib Require Import String Ascii List ZArith Bool Lia Permutation Sorted.
From Stdlib Require Import QArith Qround DecimalString DecimalZ.
Import ListNotations.
Close Scope Q_scope.
Open Scope string_scope.
Open Scope list_scope.

(** ** Python values, exceptions and dictionaries *)

Module Py.

(** The exceptions the modelled code can meet.  [Raised cls] stands for an
  exception of class [cls] thrown inside a collaborator. *)
Inductive exn : Type :=
  | KeyError (key : string)
  | IndexError
  | TypeError
  | AttributeError
  | ValueError (msg : string)
  | FileNotFoundError (path : string)
  | NotADirectoryError (path : string)
  | IsADirectoryError (path : string)
  | Raised (cls : string).

Inductive result (A : Type) : Type :=
  | Ok (a : A)
  | Raise (e : exn).
Arguments Ok {A} a.
Arguments Raise {A} e.

Definition bind {A B} (c : result A) (k : A -> result B) : result B :=
  match c with
  | Ok a => k a
  | Raise e => Raise e
  end.

Definition is_ok {A} (c : result A) : bool :=
  match c with Ok _ => true | Raise _ => false end.

(** [for x in l: body] where the body may raise. *)
Fixpoint for_each {A S} (body : A -> S -> result S) (l : list A) (s : S)
  : result S :=
  match l with
  | [] => Ok s
  | x :: l' => bind (body x s) (for_each body l')
  end.

(** A list comprehension whose element expression may raise. *)
Fixpoint comprehension {A B} (f : A -> result B) (l : list A)
  : result (list B) :=
  match l with
  | [] => Ok []
  | x :: l' =>
    bind (f x) (fun y => bind (comprehension f l') (fun ys => Ok (y :: ys)))
  end.

(** A [dict] with string keys.  Python dictionaries keep insertion order,
  and the order is observable (the rows of the balances table follow it
  on ties), so a dictionary is an association list: assignment to a
  present key updates in place, assignment to a new key appends. *)
Definition dict (V : Type) := list (string * V).

Fixpoint dget {V} (k : string) (d : dict V) : option V :=
  match d with
  | [] => None
  | (k', v) :: d' => if String.eqb k k' then Some v else dget k d'
  end.

Fixpoint dset {V} (k : string) (v : V) (d : dict V) : dict V :=
  match d with
  | [] => [(k, v)]
  | (k', v') :: d' =>
    if String.eqb k k' then (k, v) :: d' else (k', v') :: dset k v d'
  end.

(** [k in d] *)
Definition contains_key {V} (k : string) (d : dict V) : bool :=
  match dget k d with Some _ => true | None => false end.

(** [d[k]] *)
Definition getitem {V} (d : dict V) (k : string) : result V :=
  match dget k d with
  | Some v => Ok v
  | None => Raise (KeyError k)
  end.

(** [d.get(k, default)] *)
Definition get_default {V} (d : dict V) (k : string) (default : V) : V :=
  match dget k d with Some v => v | None => default end.

Definition keys {V} (d : dict V) : list string := map fst d.

(** [sub in s] on strings. *)
Definition str_contains (sub s : string) : bool :=
  match String.index 0 sub s with Some _ => true | None => false end.

Definition starts_with (p s : string) : bool := String.prefix p s.

Definition last_char (s : string) : option ascii :=
  match String.length s with
  | O => None
  | S n => String.get n s
  end.

(** [os.path.join(a, b)] on POSIX. *)
Definition os_path_join (a b : string) : string :=
  if starts_with "/" b then b
  else match last_char a with
     | None => b
     | Some c => if Ascii.eqb c "/"%char then a ++ b else a ++ "/" ++ b
     end.

End Py.

Export Py.

Declare Scope py_scope.
Notation "x <- c ;; k" := (bind c (fun x => k))
  (at level 61, c at next level, right associativity) : py_scope.
Notation "' p <- c ;; k" := (bind c (fun x => match x with p => k end))
  (at level 61, p pattern, c at next level, right associativity) : py_scope.
Open Scope py_scope.

(** ** YAML documents

    What [yaml.load(..., Loader=yaml.SafeLoader)] returns for the files the
    program reads: a scalar, a sequence or a mapping with string keys. *)

#[local] Set Warnings "-register-all".
Inductive yaml : Type :=
| YNone
| YStr (s : string)
| YInt (z : Z)
| YSeq (items : list yaml)
| YMap (entries : list (string * yaml)).

Definition is_str (s : string) (y : yaml) : bool :=
  match y with YStr s' => String.eqb s s' | _ => false end.

(** [key in y] for a loaded document [y]. *)
Definition yaml_contains (key : string) (y : yaml) : result bool :=
  match y with
  | YMap m => Ok (contains_key key m)
  | YSeq l => Ok (existsb (is_str key) l)
  | YStr s => Ok (str_contains key s)
  | YNone | YInt _ => Raise TypeError
  end.

(** [y[key]] for a string [key]. *)
Definition yaml_getitem (y : yaml) (key : string) : result yaml :=
  match y with
  | YMap m => getitem m key
  | _ => Raise TypeError
  end.

(** [y.get(key, default)] *)
Definition yaml_get (y : yaml) (key : string) (default : yaml) : result yaml :=
  match y with
  | YMap m => Ok (get_default m key default)
  | _ => Raise AttributeError
  end.

(** [for x in y] *)
Definition yaml_iter (y : yaml) : result (list yaml) :=
  match y with
  | YSeq l => Ok l
  | YMap m => Ok (map (fun kv => YStr (fst kv)) m)
  | YStr s => Ok (map (fun c => YStr (String c EmptyString)) (list_ascii_of_string s))
  | YNone | YInt _ => Raise TypeError
  end.

(** ** The configuration behind [BuchfinkDB]

    An entry of [config['accounts']] or [config['reports']] is a mapping
    whose scalar values are taken as strings.  The account kind is not a tag
    but the presence of one of the keys [exchange], [ethereum], [bitcoin],
    [file], tested in that order at every call site. *)

Definition account := dict string.
Definition report_info := dict string.

Record BuchfinkDB : Type := {
  data_directory : string;
  accounts : list account;
  reports : list report_info;
}.

(** The file system, as on Linux: the parsed document of each file, under
    the path the file has from the working directory (or from the root),
    without empty components, [.] or [..].  Directories have no entry;
    links, permissions and the space left are not modelled. *)
Definition filesystem := dict yaml.

(** The longest file name the file system takes ([NAME_MAX]), in bytes. *)
Definition name_max : nat := 255.

Fixpoint has_char (c : ascii) (s : string) : bool :=
  match s with
  | EmptyString => false
  | String x s' => Ascii.eqb x c || has_char c s'
  end.

Definition has_slash (s : string) : bool := has_char "/" s.
Definition has_nul (s : string) : bool := has_char zero s.

(** The components of a path, cut at every slash. *)
Fixpoint components_from (cur : string) (p : string) : list string :=
  match p with
  | EmptyString => [cur]
  | String c p' =>
      if Ascii.eqb c "/" then cur :: components_from "" p'
      else components_from (cur ++ String c "") p'
  end.

Definition components (p : string) : list string := components_from "" p.

(** One component further from the directory [stack] (innermost component
    first): an empty component and [.] stay, [..] steps out. *)
Definition descend (absolute : bool) (stack : list string) (c : string)
  : list string :=
  if String.eqb c "" || String.eqb c "." then stack
  else if String.eqb c ".." then
    match stack with
    | [] => if absolute then [] else [".."]
    | top :: rest => if String.eqb top ".." then ".." :: stack else rest
    end
  else c :: stack.

Definition render (absolute : bool) (stack : list string) : string :=
  (if absolute then "/" else "") ++ String.concat "/" (rev stack).

(** The path under which the file named by [p] is kept: [trades/a.yaml],
    [./trades/a.yaml], [trades//a.yaml] and [trades/./a.yaml] are one
    file. *)
Definition normpath (p : string) : string :=
  let absolute := starts_with "/" p in
  render absolute (fold_left (descend absolute) (components p) []).

(** A path that names a file whatever directories there are: it has no
    [..], and its last component is a name. *)
Definition names_file (p : string) : bool :=
  let cs := components p in
  negb (existsb (String.eqb "..") cs)
  && negb (String.eqb (last cs "") "" || String.eqb (last cs "") ".").

(** [yaml.load(open(path, 'r'), Loader=yaml.SafeLoader)].  Where a path
    goes through [..] depends on the directories on the disk, which the
    dictionary of files does not record: such a path, and one that ends
    like a directory, is not opened. *)
Definition load_yaml (fs : filesystem) (path : string) : result yaml :=
  match dget (normpath path) fs with
  | Some doc => if names_file path then Ok doc
                else Raise (FileNotFoundError path)
  | None => Raise (FileNotFoundError path)
  end.

(** The file that [open(path, 'w')] opens: the directories named on the
    way must be there ([folders] lists them, the working directory and
    the root always are), and the last component names the file.  A name
    that is too long, a file where a directory is expected, a directory
    where the file is expected, and a missing directory raise what they
    raise in Python ([OSError] stands for its errno 36). *)
Fixpoint resolve_w (folders : list string) (fs : filesystem) (path : string)
         (absolute : bool) (stack : list string) (cs : list string)
  : result string :=
  match cs with
  | [] => Raise (FileNotFoundError path)
  | [c] =>
      if String.eqb c "" then
        if String.eqb path "" then Raise (FileNotFoundError path)
        else Raise (IsADirectoryError path)
      else if String.eqb c "." || String.eqb c ".." then
        Raise (IsADirectoryError path)
      else if (name_max <? String.length c)%nat then Raise (Raised "OSError")
      else
        let target := render absolute (c :: stack) in
        if existsb (String.eqb target) folders
        then Raise (IsADirectoryError path)
        else Ok target
  | c :: cs' =>
      if String.eqb c "" || String.eqb c "." || String.eqb c ".." then
        resolve_w folders fs path absolute (descend absolute stack c) cs'
      else if (name_max <? String.length c)%nat then Raise (Raised "OSError")
      else
        let dir := render absolute (c :: stack) in
        if existsb (String.eqb dir) folders
        then resolve_w folders fs path absolute (c :: stack) cs'
        else match dget dir fs with
             | Some _ => Raise (NotADirectoryError path)
             | None => Raise (FileNotFoundError path)
             end
  end.

(** [with open(path, 'w') as f: yaml.dump(doc, stream=f)]: the file
    system afterwards. *)
Definition write_yaml (folders : list string) (fs : filesystem)
           (path : string) (doc : yaml) : result filesystem :=
  if has_nul path then Raise (ValueError "embedded null byte")
  else
    target <- resolve_w folders fs path (starts_with "/" path) []
                        (components path) ;;
    Ok (dset target doc fs).

(** The directories that [BuchfinkDB()] makes in the data directory [.]
    (db.py, lines 70-79). *)
Definition data_folders : list string :=
  ["reports"; "trades"; "cache"; "cache/cryptocompare"; "cache/history";
   "cache/inquirer"].

(** [db.get_all_accounts()] *)
Definition get_all_accounts (db : BuchfinkDB) : list account := accounts db.

(** An account paired with its [a['name']]. *)
Definition with_name (a : account) : result (string * account) :=
  n <- getitem a "name" ;; Ok (n, a).

(** [[a for a in self.config['accounts'] if a['name'] == account][0]]: the
    comprehension reads [a['name']] of every account before [[0]] is
    taken. *)
Definition find_account (db : BuchfinkDB) (name : string) : result account :=
  named <- comprehension with_name (accounts db) ;;
  match filter (fun na => String.eqb (fst na) name) named with
  | [] => Raise IndexError
  | na :: _ => Ok (snd na)
  end.

(** ** Decimal values

    Amounts and prices are [rotkehlchen.fval.FVal], a wrapper around
    Python's [Decimal].  Its implementation is outside the two source
    files, so the commands are modelled over an interface with just the
    operations they use.  Division may raise ([decimal.DivisionByZero]);
    [round_float] is the display conversion [round(float(x), 2)]. *)

Class FValOps (FVal : Type) : Type := {
  Float : Type;
  fzero : FVal;                              (* FVal(0) *)
  fadd : FVal -> FVal -> FVal;               (* a + b *)
  fmul : FVal -> FVal -> FVal;               (* a * b *)
  fdiv : FVal -> FVal -> result FVal;        (* a / b *)
  flt : FVal -> FVal -> bool;                (* a < b *)
  round_float : FVal -> Float;               (* round(float(a), 2) *)
}.

(** The laws of decimal arithmetic that the properties below rely on.  They
    hold for exact decimals; each theorem names the ones it needs. *)
Class FValOrder {FVal} `{FValOps FVal} : Prop := {
  flt_asym : forall a b, flt a b = true -> flt b a = false;
  flt_cotrans : forall a b c, flt a c = true -> flt a b = true \/ flt b c = true;
}.

Class FValSum {FVal} `{FValOps FVal} : Prop := {
  fadd_comm : forall a b, fadd a b = fadd b a;
  fadd_assoc : forall a b c, fadd (fadd a b) c = fadd a (fadd b c);
}.

(** An asset is its identifier; [Asset] objects compare and hash by it. *)
Definition Asset := string.

(** ** [sorted(items, key=itemgetter(1), reverse=True)]

    Python's sort is stable, also with [reverse=True]: items whose keys are
    equal keep their input order.  For keys under a strict weak order the
    result of a stable sort does not depend on the algorithm; the model is
    an insertion sort that places an item in front of the first item that is
    not greater than it. *)

Section Sorting.
Context {FVal : Type} `{FValOps FVal}.

Fixpoint insert_desc (x : Asset * FVal) (l : list (Asset * FVal))
  : list (Asset * FVal) :=
  match l with
  | [] => [x]
  | y :: l' =>
    if flt (snd x) (snd y) then y :: insert_desc x l' else x :: y :: l'
  end.

Fixpoint sorted_desc (l : list (Asset * FVal)) : list (Asset * FVal) :=
  match l with
  | [] => []
  | x :: l' => insert_desc x (sorted_desc l')
  end.

End Sorting.

(** ** Exchange and chain collaborators *)

(** The object [get_exchange] builds: the exchange class and the
    credentials handed to its constructor. *)
Record exchange : Type := {
  ex_class : string;
  ex_api_key : string;
  ex_secret : string;
  ex_passphrase : option string;
}.

Definition plain_exchanges : list string :=
  ["kraken"; "binance"; "coinbase"; "gemini"; "bitmex"; "bittrex";
   "poloniex"; "bitcoinde"; "iconomi"].

(** [db.get_exchange(account)]: nine of the ten classes are built from
    the key and the secret, [Coinbasepro] takes the passphrase too. *)
Definition get_exchange (db : BuchfinkDB) (name : string) : result exchange :=
  account_info <- find_account db name ;;
  kind <- getitem account_info "exchange" ;;
  if existsb (String.eqb kind) plain_exchanges then
    api_key <- getitem account_info "api_key" ;;
    secret <- getitem account_info "secret" ;;
    Ok {| ex_class := kind; ex_api_key := api_key; ex_secret := secret;
          ex_passphrase := None |}
  else if String.eqb kind "coinbasepro" then
    api_key <- getitem account_info "api_key" ;;
    secret <- getitem account_info "secret" ;;
    passphrase <- getitem account_info "passphrase" ;;
    Ok {| ex_class := kind; ex_api_key := api_key; ex_secret := secret;
          ex_passphrase := Some passphrase |}
  else Raise (ValueError ("Unknown exchange: " ++ kind)).

(** The account lists handed to [ChainManager] by [get_chain_manager]. *)
Record BlockchainAccounts : Type := {
  eth : list string;
  btc : list string;
}.

(** [db.get_chain_manager(account)], up to the [ChainManager] constructor. *)
Definition get_chain_manager (acct : account) : result BlockchainAccounts :=
  if contains_key "ethereum" acct then
    a <- getitem acct "ethereum" ;; Ok {| eth := [a]; btc := [] |}
  else if contains_key "bitcoin" acct then
    a <- getitem acct "bitcoin" ;; Ok {| eth := []; btc := [a] |}
  else Raise (ValueError "Invalid account").

(** What the program writes with [logger] and [click.echo]. *)
Inductive log_entry : Type :=
| Critical_skipping (name error : string)
| Info_fetched_balances (n : nat) (name : string)
| Echo_fetching (name : string)
| Info_fetched_trades (n : nat) (name : string).

(** ** The [balances] command *)

Section Balances.
Context {FVal : Type} `{FValOps FVal}.

(** An entry of the mapping returned by [exchange.query_balances()]: a
  dictionary whose keys [amount] and [usd_value] may each be there or
  not. *)
Record exchange_balance : Type := {
  eb_amount : option FVal;
  eb_usd_value : option FVal;
  }.

(** A chain manager's balance object, read through attributes. *)
Record chain_balance : Type := {
  cb_amount : FVal;
  cb_usd_value : FVal;
  }.

(** [manager.balances] after [manager.query_balances()]: per ethereum
  address the [asset_balances] mapping, per bitcoin address a balance. *)
Record chain_balances : Type := {
  bal_eth : list (list (Asset * chain_balance));
  bal_btc : list chain_balance;
  }.

(** The collaborators of [balances]. *)
Record balances_env : Type := {
  validate_api_key : exchange -> result (bool * string);
  query_balances : exchange -> result (list (Asset * exchange_balance) * string);
  chain_query_balances : BlockchainAccounts -> result chain_balances;
  find_usd_price : Asset -> result FVal;      (* inquirer.find_usd_price *)
  new_FVal : yaml -> result FVal;             (* FVal(x) *)
  new_Asset : yaml -> result Asset;           (* Asset(x) *)
  asset_symbol : Asset -> string;             (* asset.symbol *)
  get_main_currency : result Asset;           (* db.get_main_currency() *)
  files : filesystem;
  }.

(** The two accumulators of the command and its log. *)
Record sums : Type := {
  balances_sum : dict FVal;
  usd_value_sum : dict FVal;
  log : list log_entry;
  }.

Definition empty_sums : sums :=
  {| balances_sum := []; usd_value_sum := []; log := [] |}.

Definition write_log (e : log_entry) (s : sums) : sums :=
  {| balances_sum := balances_sum s; usd_value_sum := usd_value_sum s;
   log := log s ++ [e] |}.

(** [d[asset] = d.get(asset, FVal(0)) + x] *)
Definition add_to (d : dict FVal) (asset : Asset) (x : FVal) : dict FVal :=
  dset asset (fadd (get_default d asset fzero) x) d.

(** The two accumulation lines that every branch repeats; [usd = None] is
  the exchange branch's balance without a [usd_value] key. *)
Definition accumulate (asset : Asset) (amount : FVal) (usd : option FVal)
         (s : sums) : sums :=
  {| balances_sum := add_to (balances_sum s) asset amount;
   usd_value_sum := match usd with
                    | Some v => add_to (usd_value_sum s) asset v
                    | None => usd_value_sum s
                    end;
   log := log s |}.

(** Lines 77-81: the loop over an exchange's balances. *)
Definition exchange_item (item : Asset * exchange_balance) (s : sums)
  : result sums :=
  match eb_amount (snd item) with
  | None => Raise (KeyError "amount")
  | Some amount => Ok (accumulate (fst item) amount (eb_usd_value (snd item)) s)
  end.

(** Lines 87-91 and 98-101: the loops over chain balances. *)
Definition eth_item (item : Asset * chain_balance) (s : sums) : result sums :=
  Ok (accumulate (fst item) (cb_amount (snd item))
               (Some (cb_usd_value (snd item))) s).

Definition btc_item (b : chain_balance) (s : sums) : result sums :=
  Ok (accumulate "BTC" (cb_amount b) (Some (cb_usd_value b)) s).

Variable env : balances_env.

(** Lines 107-112: the loop over the [balances] list of a file account. *)
Definition file_item (balance : yaml) (s : sums) : result sums :=
  raw_amount <- yaml_getitem balance "amount" ;;
  amount <- new_FVal env raw_amount ;;
  raw_asset <- yaml_getitem balance "asset" ;;
  asset <- new_Asset env raw_asset ;;
  price <- find_usd_price env asset ;;
  Ok (accumulate asset amount (Some (fmul amount price)) s).

Variable db : BuchfinkDB.

Definition exchange_branch (acct : account) (s : sums) : result sums :=
  name <- getitem acct "name" ;;
  ex <- get_exchange db name ;;
  '(api_key_is_valid, error) <- validate_api_key env ex ;;
  if negb api_key_is_valid then
  Ok (write_log (Critical_skipping name error) s)
  else
  '(balances, error) <- query_balances env ex ;;
  if String.eqb error "" then
    for_each exchange_item balances
             (write_log (Info_fetched_balances (List.length balances) name) s)
  else Ok s.

Definition ethereum_branch (acct : account) (s : sums) : result sums :=
  manager <- get_chain_manager acct ;;
  b <- chain_query_balances env manager ;;
  for_each (for_each eth_item) (bal_eth b) s.

Definition bitcoin_branch (acct : account) (s : sums) : result sums :=
  manager <- get_chain_manager acct ;;
  b <- chain_query_balances env manager ;;
  for_each btc_item (bal_btc b) s.

Definition file_branch (acct : account) (s : sums) : result sums :=
  path <- getitem acct "file" ;;
  doc <- load_yaml (files env) path ;;
  has <- yaml_contains "balances" doc ;;
  if has then
  raw <- yaml_getitem doc "balances" ;;
  items <- yaml_iter raw ;;
  for_each file_item items s
  else Ok s.

(** The body of the loop over the accounts (lines 61-112). *)
Definition balances_account (keyword : option string) (acct : account)
         (s : sums) : result sums :=
  filtered <- match keyword with
            | None => Ok false
            | Some k => name <- getitem acct "name" ;;
                        Ok (negb (str_contains k name))
            end ;;
  if filtered then Ok s
  else if contains_key "exchange" acct then exchange_branch acct s
  else if contains_key "ethereum" acct then ethereum_branch acct s
  else if contains_key "bitcoin" acct then bitcoin_branch acct s
  else if contains_key "file" acct then file_branch acct s
  else Ok s.

(** A table row [[asset, balance, asset.symbol, value]]; the last row is
  [['Total', None, None, value]]. *)
Inductive row_label : Type :=
  | Row_asset (a : Asset)
  | Row_total.

Record row : Type := {
  row_label_of : row_label;
  row_amount : option FVal;
  row_symbol : option string;
  row_value : Float;
  }.

(** Lines 121-125: one pass of the loop that fills the table; the state
  is the table so far and [balance_in_currency_sum]. *)
Definition table_row (s : sums) (currency_in_usd : FVal) (asset : Asset)
         (acc : list row * FVal) : result (list row * FVal) :=
  balance <- getitem (balances_sum s) asset ;;
  balance_in_currency <- fdiv (get_default (usd_value_sum s) asset fzero)
                            currency_in_usd ;;
  Ok (fst acc ++ [ {| row_label_of := Row_asset asset;
                    row_amount := Some balance;
                    row_symbol := Some (asset_symbol env asset);
                    row_value := round_float balance_in_currency |} ],
    fadd (snd acc) balance_in_currency).

Definition total_row (total : FVal) : row :=
  {| row_label_of := Row_total; row_amount := None; row_symbol := None;
   row_value := round_float total |}.

(** Lines 114-126: the table printed from the accumulators.  The sum
  starts as the integer [0], which the first addition turns into
  [FVal(0)]. *)
Definition make_table (s : sums) : result (list row) :=
  currency <- get_main_currency env ;;
  currency_in_usd <- find_usd_price env currency ;;
  let assets := map fst (sorted_desc (usd_value_sum s)) in
  '(table, balance_in_currency_sum) <-
  for_each (table_row s currency_in_usd) assets ([], fzero) ;;
  Ok (table ++ [total_row balance_in_currency_sum]).

(** The accumulation over all accounts (lines 57-112). *)
Definition balances_accumulate (keyword : option string) : result sums :=
  for_each (balances_account keyword) (get_all_accounts db) empty_sums.

(** [balances(keyword)]: the printed table and the log. *)
Definition balances (keyword : option string)
  : result (list row * list log_entry) :=
  s <- balances_accumulate keyword ;;
  table <- make_table s ;;
  Ok (table, log s).

End Balances.

Arguments exchange_balance : clear implicits.
Arguments chain_balance : clear implicits.
Arguments chain_balances : clear implicits.
Arguments balances_env : clear implicits.
Arguments sums : clear implicits.
Arguments row FVal {H}.

(** ** Exact rational decimals

    An instance of the decimal interface for running the model on concrete
    inputs: exact rational arithmetic, kept in lowest terms so that equal
    numbers are equal terms.  On the short decimals used in the examples it
    agrees with Python's [Decimal]. *)

Module ExactDecimal.

Definition div (a b : Q) : result Q :=
  if Qeq_bool b 0 then
  Raise (Raised (if Qeq_bool a 0 then "decimal.InvalidOperation"
                 else "decimal.DivisionByZero"))
  else Ok (Qred (a / b)).

Definition lt (a b : Q) : bool := negb (Qle_bool b a).

(** What [round(float(a), 2)] shows, kept as the decimal it is computed
      from: the conversion to a binary float is not carried out. *)
Inductive display : Type :=
  | Rounded (a : Q).

#[global] Instance ops : FValOps Q := {|
    Float := display;
    fzero := 0%Q;
    fadd := fun a b => Qred (a + b);
    fmul := fun a b => Qred (a * b);
    fdiv := div;
    flt := lt;
    round_float := Rounded;
  |}.

End ExactDecimal.

(** ** Trades and their serialized form *)

Module Ledger.

(** Modelled from the spec: the [Decimal] behind a trade's amounts, which
  [buchfink/datatypes.py] re-exports from rotkehlchen and which is not
  among the source files.  The value is [coefficient * 10 ^ exponent];
  [1.5] and [1.50] are different decimals, as in Python. *)
Record decimal : Type := {
  coefficient : Z;
  exponent : Z;
  }.

Inductive TradeType : Type := Buy | Sell.

(** Modelled from the spec: the [Trade] record of §3, declared in
  [buchfink/datatypes.py], which is not among the source files. *)
Record Trade : Type := {
  timestamp : Z;
  base_asset : Asset;
  quote_asset : Asset;
  trade_type : TradeType;
  amount : decimal;
  rate : decimal;
  fee : decimal;
  fee_asset : Asset;
  source_account : string;
  }.

Definition string_of_Z (z : Z) : string := NilZero.string_of_int (Z.to_int z).

Definition Z_of_string (s : string) : option Z :=
  option_map Z.of_int (NilZero.int_of_string s).

(** The part of [s] before the first [c] and the part after it. *)
Fixpoint split_on (c : ascii) (s : string) : option (string * string) :=
  match s with
  | EmptyString => None
  | String a s' =>
    if Ascii.eqb a c then Some (EmptyString, s')
    else match split_on c s' with
         | Some (l, r) => Some (String a l, r)
         | None => None
         end
  end.

(** Modelled from the spec: "amounts as decimal strings to avoid float
  precision loss" (§6); the string is the coefficient, [E] and the
  exponent, a form that [Decimal(str)] reads back digit for digit. *)
Definition decimal_to_string (d : decimal) : string :=
  string_of_Z (coefficient d) ++ "E" ++ string_of_Z (exponent d).

Definition decimal_of_string (s : string) : result decimal :=
  match split_on "E"%char s with
  | Some (c, e) =>
    match Z_of_string c, Z_of_string e with
    | Some c', Some e' => Ok {| coefficient := c'; exponent := e' |}
    | _, _ => Raise (ValueError ("Invalid decimal: " ++ s))
    end
  | None => Raise (ValueError ("Invalid decimal: " ++ s))
  end.

Definition trade_type_to_string (t : TradeType) : string :=
  match t with Buy => "buy" | Sell => "sell" end.

Definition trade_type_of_string (s : string) : result TradeType :=
  if String.eqb s "buy" then Ok Buy
  else if String.eqb s "sell" then Ok Sell
  else Raise (ValueError ("Invalid trade type: " ++ s)).

(** Modelled from the spec: [serialize_trades] of
  [buchfink/serialization.py], which is not among the source files.  A
  serialized trade is a mapping with the fields of [Trade]: "asset
  symbols as strings, timestamps as [...] epoch seconds, amounts as
  decimal strings" (§6). *)
Definition serialize_trade (t : Trade) : yaml :=
  YMap [ ("timestamp", YInt (timestamp t));
       ("pair", YSeq [YStr (base_asset t); YStr (quote_asset t)]);
       ("trade_type", YStr (trade_type_to_string (trade_type t)));
       ("amount", YStr (decimal_to_string (amount t)));
       ("rate", YStr (decimal_to_string (rate t)));
       ("fee", YStr (decimal_to_string (fee t)));
       ("fee_asset", YStr (fee_asset t));
       ("source_account", YStr (source_account t)) ].

Definition serialize_trades (trades : list Trade) : list yaml :=
  map serialize_trade trades.

Definition as_str (y : yaml) : result string :=
  match y with YStr s => Ok s | _ => Raise TypeError end.

Definition as_int (y : yaml) : result Z :=
  match y with YInt z => Ok z | _ => Raise TypeError end.

Definition as_pair (y : yaml) : result (string * string) :=
  match y with
  | YSeq [YStr b; YStr q] => Ok (b, q)
  | _ => Raise (ValueError "Invalid pair")
  end.

Definition decimal_field (doc : yaml) (key : string) : result decimal :=
  raw <- yaml_getitem doc key ;;
  s <- as_str raw ;;
  decimal_of_string s.

(** Modelled from the spec: [deserialize_trade] of
  [buchfink/serialization.py], the reader of the same mapping. *)
Definition deserialize_trade (doc : yaml) : result Trade :=
  raw_ts <- yaml_getitem doc "timestamp" ;;
  ts <- as_int raw_ts ;;
  raw_pair <- yaml_getitem doc "pair" ;;
  '(b, q) <- as_pair raw_pair ;;
  raw_type <- yaml_getitem doc "trade_type" ;;
  type_name <- as_str raw_type ;;
  ty <- trade_type_of_string type_name ;;
  amount' <- decimal_field doc "amount" ;;
  rate' <- decimal_field doc "rate" ;;
  fee' <- decimal_field doc "fee" ;;
  raw_fee_asset <- yaml_getitem doc "fee_asset" ;;
  fee_asset' <- as_str raw_fee_asset ;;
  raw_source <- yaml_getitem doc "source_account" ;;
  source <- as_str raw_source ;;
  Ok {| timestamp := ts; base_asset := b; quote_asset := q;
      trade_type := ty; amount := amount'; rate := rate'; fee := fee';
      fee_asset := fee_asset'; source_account := source |}.

(** [db.get_local_trades_for_account(account)] (db.py, lines 156-175). *)
Definition get_local_trades_for_account (db : BuchfinkDB) (fs : filesystem)
         (acct : string) : result (list Trade) :=
  account_info <- find_account db acct ;;
  if contains_key "exchange" account_info then
  name <- getitem account_info "name" ;;
  let trades_file :=
    os_path_join (os_path_join (data_directory db) "trades") (name ++ ".yaml") in
  doc <- load_yaml fs trades_file ;;
  raw <- yaml_getitem doc "trades" ;;
  items <- yaml_iter raw ;;
  comprehension deserialize_trade items
  else if contains_key "file" account_info then
  path <- getitem account_info "file" ;;
  let trades_file := os_path_join (data_directory db) path in
  doc <- load_yaml fs trades_file ;;
  raw <- yaml_get doc "trades" (YSeq []) ;;
  items <- yaml_iter raw ;;
  comprehension deserialize_trade items
  else if contains_key "ethereum" account_info
        || contains_key "bitcoin" account_info then
(* Currently buchfink is not able to fetch trades for blockchain accounts *)
  Ok []
  else Raise (ValueError ("Invalid account: " ++ acct)).

(** The collaborators of [fetch]. *)
Record fetch_env : Type := {
  fetch_validate_api_key : exchange -> result (bool * string);
  query_online_trade_history : exchange -> result (list Trade);
  }.

(** The state [fetch] works on, as [BuchfinkDB()] leaves it: the files,
  the directories and the messages written. *)
Record fetch_state : Type := {
  disk : filesystem;
  folders : list string;
  messages : list log_entry;
  }.

Definition say (e : log_entry) (s : fetch_state) : fetch_state :=
  {| disk := disk s; folders := folders s; messages := messages s ++ [e] |}.

(** The file [fetch] writes for an account (cli.py, line 163). *)
Definition ledger_path (name : string) : string := "trades/" ++ name ++ ".yaml".

(** The body of the loop of [fetch] (cli.py, lines 138-164). *)
Definition fetch_account (env : fetch_env) (db : BuchfinkDB)
         (keyword : option string) (acct : account) (s : fetch_state)
  : result fetch_state :=
  filtered <- match keyword with
            | None => Ok false
            | Some k => name <- getitem acct "name" ;;
                        Ok (negb (str_contains k name))
            end ;;
  if filtered then Ok s
  else if negb (contains_key "exchange" acct) then Ok s
  else
  name <- getitem acct "name" ;;
  let s := say (Echo_fetching name) s in
  ex <- get_exchange db name ;;
  '(api_key_is_valid, error) <- fetch_validate_api_key env ex ;;
  if negb api_key_is_valid then Ok (say (Critical_skipping name error) s)
  else
    trades <- query_online_trade_history env ex ;;
    let s := say (Info_fetched_trades (List.length trades) name) s in
    written <- write_yaml (folders s) (disk s) (ledger_path name)
                          (YMap [("trades", YSeq (serialize_trades trades))]) ;;
    Ok {| disk := written; folders := folders s; messages := messages s |}.

(** [fetch(keyword)] *)
Definition fetch (env : fetch_env) (db : BuchfinkDB) (keyword : option string)
         (s : fetch_state) : result fetch_state :=
  for_each (fetch_account env db keyword) (get_all_accounts db) s.

(** The accounting collaborator behind [allowances]: [process_history]
  on the collected trades, then [accountant.events.details.items()]. *)
Definition accountant := list Trade -> result (list (string * (string * string))).

(** One pass of the loop of [allowances] (cli.py, lines 226-228). *)
Definition collect_account (db : BuchfinkDB) (fs : filesystem)
         (acct : account) (all_trades : list Trade) : result (list Trade) :=
  name <- getitem acct "name" ;;
  trades <- get_local_trades_for_account db fs name ;;
  Ok (all_trades ++ trades).

(** [allowances()]: the rows of the printed table. *)
Definition allowances (process_history : accountant) (db : BuchfinkDB)
         (fs : filesystem) : result (list (list string)) :=
  all_trades <- for_each (collect_account db fs) (get_all_accounts db) [] ;;
  details <- process_history all_trades ;;
  Ok (map (fun d => [fst d; fst (snd d); "TBD"; snd (snd d)]) details).

End Ledger.

(** ** Report definitions and the [report] and [run] commands *)

Module Reports.

(** A naive [datetime]. *)
Record datetime : Type := {
  year : nat; month : nat; day : nat;
  hour : nat; minute : nat; second : nat; microsecond : nat;
  }.

Definition datetime_fields (d : datetime) : list nat :=
  [year d; month d; day d; hour d; minute d; second d; microsecond d].

Fixpoint lex_ltb (a b : list nat) : bool :=
  match a, b with
  | x :: a', y :: b' => (x <? y)%nat || ((x =? y)%nat && lex_ltb a' b')
  | _, _ => false
  end.

(** [a < b] on naive datetimes. *)
Definition datetime_ltb (a b : datetime) : bool :=
  lex_ltb (datetime_fields a) (datetime_fields b).

(** Modelled from the spec: the fields of [ReportConfig], declared in
  [buchfink/config.py], which is not among the source files:
  "[{name, title?, template?, from_dt, to_dt}]" (§3). *)
Record ReportConfig : Type := {
  name : string;
  title : option string;
  template : option string;
  from_dt : datetime;
  to_dt : datetime;
  }.

(** Modelled from the spec: the constructor [ReportConfig(...)] of
  [buchfink/config.py], which is not among the source files, called with
  keyword arguments at both call sites: "[from_dt <= to_dt] is an
  invariant; violated definitions are rejected before running" (§3), the
  rejection being the [ConfigError] of §4.1. *)
Definition new_ReportConfig (name' : string) (title' template' : option string)
         (from' to' : datetime) : result ReportConfig :=
  if datetime_ltb to' from' then Raise (Raised "ConfigError")
  else Ok {| name := name'; title := title'; template := template';
           from_dt := from'; to_dt := to' |}.

(** What [run_report] returns: a mapping whose [overview] entry is a
  mapping of totals. *)
Definition report_result := dict (dict string).

(** The collaborators of the report commands: [datetime.fromisoformat],
  [datetime.timestamp] (POSIX seconds, which depend on the time zone of
  the machine and are not defined for every date; the commands discard
  them) and [run_report] of [buchfink/report.py]. *)
Record report_env : Type := {
  fromisoformat : string -> result datetime;
  datetime_timestamp : datetime -> result Z;
  run_report : ReportConfig -> result report_result;
  }.

Section Commands.
Variable env : report_env.

(** The [ReportConfig(...)] expression in [get_all_reports] (db.py,
  lines 136-142). *)
Definition report_of_info (info : report_info) : result ReportConfig :=
  name' <- getitem info "name" ;;
  raw_from <- getitem info "from" ;;
  from' <- fromisoformat env raw_from ;;
  raw_to <- getitem info "to" ;;
  to' <- fromisoformat env raw_to ;;
  new_ReportConfig name' (dget "title" info) (dget "template" info) from' to'.

(** [db.get_all_reports()]: a generator, so each definition is built
  when the consumer asks for it. *)
Definition get_all_reports (db : BuchfinkDB) : list (result ReportConfig) :=
  map report_of_info (reports db).

(** The state of [run]: the [results] dictionary and, to make the order
  of events visible, the reports handed to [run_report] so far. *)
Record run_state : Type := {
  results : dict report_result;
  started : list ReportConfig;
  }.

(** The body of the loop of [run] (cli.py, lines 198-205). *)
Definition run_one (keyword : option string) (next : result ReportConfig)
     (s : run_state) : result run_state :=
  report <- next ;;
  let filtered := match keyword with
            | None => false
            | Some k => negb (str_contains k (name report))
            end in
  if filtered then Ok s
  else
  r <- run_report env report ;;
  Ok {| results := dset (name report) r (results s);
    started := started s ++ [report] |}.

(** A row of the overview table (cli.py, lines 209-213). *)
Definition overview_row (entry : string * report_result)
  : result (list string) :=
  overview <- getitem (snd entry) "overview" ;;
  total <- getitem overview "total_profit_loss" ;;
  taxable <- getitem overview "total_taxable_profit_loss" ;;
  Ok [fst entry; total; taxable].

(** [run(keyword)]: the printed table and the reports that were run. *)
Definition run (db : BuchfinkDB) (keyword : option string)
  : result (list (list string) * list ReportConfig) :=
  s <- for_each (run_one keyword) (get_all_reports db)
          {| results := []; started := [] |} ;;
  table <- comprehension overview_row (results s) ;;
  Ok (table, started s).

(** [report(name, from_, to)] (cli.py, lines 171-185): the logged
  overview and the report handed to [run_report].  Each date is parsed
  twice, first for the two timestamps, which are computed and not
  used. *)
Definition report (name' from_ to : string)
  : result (dict string * ReportConfig) :=
  start_ts <- (d <- fromisoformat env from_ ;; datetime_timestamp env d) ;;
  end_ts <- (d <- fromisoformat env to ;; datetime_timestamp env d) ;;
  from' <- fromisoformat env from_ ;;
  to' <- fromisoformat env to ;;
  cfg <- new_ReportConfig name' None None from' to' ;;
  result' <- run_report env cfg ;;
  overview <- getitem result' "overview" ;;
  Ok (overview, cfg).

End Commands.

(** [datetime.fromisoformat] of Python 3.7 to 3.10 on strings of at most
  ten characters, for running the model on concrete inputs: a date
  [YYYY-MM-DD] or a [ValueError] with Python's message.  Longer strings,
  which may carry a time, are not what this instance is for: it treats
  them as invalid. *)
Definition digit_of (c : ascii) : option nat :=
  let n := nat_of_ascii c in
  if ((48 <=? n) && (n <=? 57))%nat then Some (n - 48)%nat else None.


Fixpoint number_of (cs : list ascii) (acc : nat) : option nat :=
  match cs with
  | [] => Some acc
  | c :: cs' =>
    match digit_of c with
    | Some d => number_of cs' (10 * acc + d)
    | None => None
    end
  end.

Definition is_leap (y : nat) : bool :=
  ((y mod 4 =? 0) && (negb (y mod 100 =? 0) || (y mod 400 =? 0)))%nat.

Definition days_in_month (y m : nat) : nat :=
  match m with
  | 2 => if is_leap y then 29 else 28
  | 4 | 6 | 9 | 11 => 30
  | _ => 31
  end.

Definition date_fromisoformat (s : string) : result datetime :=
  match list_ascii_of_string s with
  | [y1; y2; y3; y4; "-"%char; m1; m2; "-"%char; d1; d2] =>
    match number_of [y1; y2; y3; y4] 0, number_of [m1; m2] 0,
          number_of [d1; d2] 0 with
    | Some y, Some m, Some d =>
        if (y =? 0)%nat then Raise (ValueError "year 0 is out of range")
        else if negb ((1 <=? m) && (m <=? 12))%nat
        then Raise (ValueError "month must be in 1..12")
        else if negb ((1 <=? d) && (d <=? days_in_month y m))%nat
        then Raise (ValueError "day is out of range for month")
        else Ok {| year := y; month := m; day := d; hour := 0;
                   minute := 0; second := 0; microsecond := 0 |}
    | _, _, _ => Raise (ValueError ("Invalid isoformat string: '" ++ s ++ "'"))
    end
  | _ => Raise (ValueError ("Invalid isoformat string: '" ++ s ++ "'"))
  end.

(** [datetime.timestamp] on a machine whose time zone is UTC, for running
  the model on concrete inputs: the seconds since 1970-01-01, the
  microseconds dropped.  Python looks a day to each side of the date, so
  the first and the last day of the calendar raise. *)
Definition days_from_civil (y m d : Z) : Z :=
  let y' := if (m <=? 2)%Z then (y - 1)%Z else y in
  let era := (y' / 400)%Z in
  let yoe := (y' - era * 400)%Z in
  let mp := if (m <=? 2)%Z then (m + 9)%Z else (m - 3)%Z in
  let doy := ((153 * mp + 2) / 5 + d - 1)%Z in
  let doe := (yoe * 365 + yoe / 4 - yoe / 100 + doy)%Z in
  (era * 146097 + doe - 719468)%Z.

Definition utc_timestamp (dt : datetime) : result Z :=
  let days := days_from_civil (Z.of_nat (year dt)) (Z.of_nat (month dt))
                            (Z.of_nat (day dt)) in
  if (days <? days_from_civil 1 1 2)%Z
  then Raise (ValueError "year 0 is out of range")
  else if (days_from_civil 9999 12 30 <? days)%Z
  then Raise (ValueError "year 10000 is out of range")
  else Ok (days * 86400 + Z.of_nat (hour dt) * 3600 + Z.of_nat (minute dt) * 60
         + Z.of_nat (second dt))%Z.

End Reports.

(** ** Vocabulary of the properties *)

Section Vocabulary.
Context {FVal : Type} `{FValOps FVal}.

(** [x] occurs in [l] somewhere in front of [y]. *)
Definition before {A} (x y : A) (l : list A) : Prop :=
  exists l1 l2 l3, l = l1 ++ x :: l2 ++ y :: l3.

(** No item is smaller than an item that comes later. *)
Definition value_desc (l : list (Asset * FVal)) : Prop :=
  StronglySorted (fun p q => flt (snd p) (snd q) = false) l.

(** The order of the rows as the specification words it: greater value
  first, and on equal values the smaller asset identifier first. *)
Definition spec_precedes (p q : Asset * FVal) : bool :=
  flt (snd q) (snd p)
  || (negb (flt (snd p) (snd q)) && String.leb (fst p) (fst q)).

Definition spec_ordered (l : list (Asset * FVal)) : Prop :=
  StronglySorted (fun p q => spec_precedes p q = true) l.

(** No two items have the same value. *)
Definition no_ties (l : list (Asset * FVal)) : Prop :=
  forall p q, In p l -> In q l -> p <> q ->
            flt (snd p) (snd q) = true \/ flt (snd q) (snd p) = true.

(** Two dictionaries with the same entries, whatever their order. *)
Definition same_entries {V} (d1 d2 : dict V) : Prop :=
  forall k, dget k d1 = dget k d2.

(** The states [balances] can reach: both accumulators have each asset
  once, and an asset with a value total has a quantity total. *)
Definition well_formed (s : sums FVal) : Prop :=
  NoDup (keys (balances_sum s)) /\ NoDup (keys (usd_value_sum s))
  /\ incl (keys (usd_value_sum s)) (keys (balances_sum s)).

(** What one account adds to the accumulators: the triples handed to
  [accumulate], in order, and the lines it logs. *)
Definition entry : Type := Asset * FVal * option FVal.

Definition apply_entry (s : sums FVal) (e : entry) : sums FVal :=
  accumulate (fst (fst e)) (snd (fst e)) (snd e) s.

Definition apply_entries (es : list entry) (s : sums FVal) : sums FVal :=
  fold_left apply_entry es s.

Definition add_log (lg : list log_entry) (s : sums FVal) : sums FVal :=
  {| balances_sum := balances_sum s; usd_value_sum := usd_value_sum s;
   log := log s ++ lg |}.

(** An account's pass through the loop, seen from outside: it raises, or
  it logs some lines and accumulates some entries. *)
Definition contribution : Type := result (list entry * list log_entry).

Definition absorb (c : contribution) (s : sums FVal) : result (sums FVal) :=
  p <- c ;; Ok (apply_entries (fst p) (add_log (snd p) s)).

(** Two states with the same totals per asset. *)
Definition same_totals (s1 s2 : sums FVal) : Prop :=
  same_entries (balances_sum s1) (balances_sum s2)
  /\ same_entries (usd_value_sum s1) (usd_value_sum s2).

(** The additions an entry makes to each accumulator. *)
Definition add_pair (d : dict FVal) (kv : Asset * FVal) : dict FVal :=
  add_to d (fst kv) (snd kv).

Definition quantity_of (e : entry) : Asset * FVal := (fst (fst e), snd (fst e)).

Definition value_of (e : entry) : list (Asset * FVal) :=
  match snd e with
  | Some v => [(fst (fst e), v)]
  | None => []
  end.

(** The row of an asset and its value in the reporting currency. *)
Definition priced_row (env : balances_env FVal) (s : sums FVal)
         (currency_in_usd : FVal) (asset : Asset)
  : result (row FVal * FVal) :=
  balance <- getitem (balances_sum s) asset ;;
  v <- fdiv (get_default (usd_value_sum s) asset fzero) currency_in_usd ;;
  Ok ({| row_label_of := Row_asset asset; row_amount := Some balance;
       row_symbol := Some (asset_symbol env asset);
       row_value := round_float v |}, v).

(** The entry an item of an exchange's balances stands for. *)
Definition exchange_entry (item : Asset * exchange_balance FVal) : result entry :=
  match eb_amount (snd item) with
  | None => Raise (KeyError "amount")
  | Some amount => Ok (fst item, amount, eb_usd_value (snd item))
  end.

Definition chain_entry (item : Asset * chain_balance FVal) : entry :=
  (fst item, cb_amount (snd item), Some (cb_usd_value (snd item))).

Definition btc_entry (b : chain_balance FVal) : entry :=
  ("BTC", cb_amount b, Some (cb_usd_value b)).

(** The balances of an exchange's answer that come with a [usd_value]. *)
Definition is_priced (item : Asset * exchange_balance FVal) : bool :=
  match eb_usd_value (snd item) with
  | Some _ => true
  | None => false
  end.

(** The same collaborators, with the balances that have no [usd_value]
  taken out of every exchange's answer. *)
Definition drop_unpriced (env : balances_env FVal) : balances_env FVal :=
  {| validate_api_key := validate_api_key env;
   query_balances := fun ex =>
     '(balances, error) <- query_balances env ex ;;
     Ok (filter is_priced balances, error);
   chain_query_balances := chain_query_balances env;
   find_usd_price := find_usd_price env;
   new_FVal := new_FVal env;
   new_Asset := new_Asset env;
   asset_symbol := asset_symbol env;
   get_main_currency := get_main_currency env;
   files := files env |}.

(** [s] has the value totals of [s'], and a quantity total for every
  asset that has one in [s']. *)
Definition same_values (s s' : sums FVal) : Prop :=
  usd_value_sum s = usd_value_sum s'
  /\ forall a, dget a (balances_sum s') <> None -> dget a (balances_sum s) <> None.

(** The amounts of an exchange's answer, those without an [amount] left
  out. *)
Definition quantities (items : list (Asset * exchange_balance FVal))
  : list (Asset * FVal) :=
  flat_map (fun item => match eb_amount (snd item) with
                      | Some q => [(fst item, q)]
                      | None => []
                      end) items.

Definition file_entry (env : balances_env FVal) (balance : yaml) : result entry :=
  raw_amount <- yaml_getitem balance "amount" ;;
  amount <- new_FVal env raw_amount ;;
  raw_asset <- yaml_getitem balance "asset" ;;
  asset <- new_Asset env raw_asset ;;
  price <- find_usd_price env asset ;;
  Ok (asset, amount, Some (fmul amount price)).

End Vocabulary.

Arguments entry : clear implicits.
Arguments contribution : clear implicits.

(** Every configured account has a name, and no two share one (§3). *)
Definition well_named (accts : list account) : Prop :=
  Forall (fun a => dget "name" a <> None) accts
  /\ NoDup (map (dget "name") accts).

(** The accounts that a keyword selects: those whose name contains it. *)
Definition name_matches (keyword : string) (a : account) : bool :=
  match dget "name" a with
  | Some n => str_contains keyword n
  | None => false
  end.

(** A name that, with [.yaml] behind it, is a file name: no slash, so
    that its ledger lies in [trades/] itself, no NUL, and not too long. *)
Definition plain_name (n : string) : bool :=
  negb (has_slash n) && negb (has_nul n)
  && (String.length (n ++ ".yaml") <=? name_max)%nat.

(** The exchange kinds [get_exchange] knows. *)
Definition known_exchanges : list string := plain_exchanges ++ ["coinbasepro"].

(** The amounts that a list of additions holds for an asset, in order. *)
Definition amounts_for {FVal : Type} (a : Asset) (l : list (Asset * FVal))
  : list FVal :=
  map snd (filter (fun p => String.eqb (fst p) a) l).

(** The reports that the keyword of [run] selects. *)
Definition report_selected (keyword : option string)
           (cfg : Reports.ReportConfig) : bool :=
  match keyword with
  | None => true
  | Some k => str_contains k (Reports.name cfg)
  end.

(** ** Concrete configurations *)

Module Scenario.
Import ExactDecimal Ledger Reports.

Definition kraken1 : account :=
  [("name", "kraken1"); ("exchange", "kraken"); ("api_key", "k"); ("secret", "s")].
Definition wallet1 : account := [("name", "wallet1"); ("ethereum", "0xabc")].
Definition wallet2 : account := [("name", "wallet2"); ("ethereum", "0xdef")].
Definition vault : account := [("name", "vault"); ("bitcoin", "bc1q")].
Definition cold : account := [("name", "cold"); ("file", "cold.yaml")].
Definition nameless_wallet : account := [("ethereum", "0x123")].
Definition stray : account := [("name", "stray")].
Definition unknown_venue : account :=
  [("name", "mtgox1"); ("exchange", "mtgox"); ("api_key", "k"); ("secret", "s")].

Definition nested : account :=
  [("name", "a/b"); ("exchange", "kraken"); ("api_key", "k"); ("secret", "s")].
Definition binance1 : account :=
  [("name", "binance1"); ("exchange", "binance"); ("api_key", "b"); ("secret", "t")].

Definition paper : account := [("name", "paper"); ("file", "paper.yaml")].

Definition kraken_client : exchange :=
  {| ex_class := "kraken"; ex_api_key := "k"; ex_secret := "s";
   ex_passphrase := None |}.

Definition db_of (accts : list account) : BuchfinkDB :=
  {| data_directory := "."; accounts := accts; reports := [] |}.

(** An exchange that holds 1 BTC worth 30000 USD and 5 XYZ without a
  price; wallet [0xabc] holds 1 ETH worth 100 USD, wallet [0xdef] holds
  100 DAI worth 100 USD; the reporting currency is USD. *)
Definition market : balances_env Q :=
  {| validate_api_key := fun _ => Ok (true, "");
   query_balances := fun _ =>
     Ok ([ ("BTC", {| eb_amount := Some 1%Q; eb_usd_value := Some 30000%Q |});
           ("XYZ", {| eb_amount := Some 5%Q; eb_usd_value := None |}) ], "");
   chain_query_balances := fun a =>
     Ok {| bal_eth :=
             map (fun addr =>
                    if String.eqb addr "0xabc"
                    then [("ETH", {| cb_amount := 1%Q; cb_usd_value := 100%Q |})]
                    else [("DAI", {| cb_amount := 100%Q; cb_usd_value := 100%Q |})])
                 (eth a);
           bal_btc := [] |};
   find_usd_price := fun _ => Ok 1%Q;
   new_FVal := fun _ => Raise (ValueError "Invalid FVal");
   new_Asset := fun _ => Raise (Raised "UnknownAsset");
   asset_symbol := fun a => a;
   get_main_currency := Ok "USD";
   files := [] |}.

(** The same market where every bitcoin account has two addresses, with
  1.5 BTC worth 45000 USD and 0.5 BTC worth 15000 USD. *)
Definition market_btc : balances_env Q :=
  {| validate_api_key := validate_api_key market;
   query_balances := query_balances market;
   chain_query_balances := fun a =>
     Ok {| bal_eth := [];
           bal_btc :=
             flat_map (fun _ => [ {| cb_amount := (3 # 2)%Q; cb_usd_value := 45000%Q |};
                                  {| cb_amount := (1 # 2)%Q; cb_usd_value := 15000%Q |} ])
                      (btc a) |};
   find_usd_price := find_usd_price market;
   new_FVal := new_FVal market;
   new_Asset := new_Asset market;
   asset_symbol := asset_symbol market;
   get_main_currency := get_main_currency market;
   files := files market |}.

(** Totals that an exchange and a wallet in front of the bitcoin account
  have left: 1 BTC worth 30000 USD and 2 ETH worth 200 USD. *)
Definition sums_so_far : sums Q :=
  {| balances_sum := [("BTC", 1%Q); ("ETH", 2%Q)];
   usd_value_sum := [("BTC", 30000%Q); ("ETH", 200%Q)];
   log := [Info_fetched_balances 1 "kraken1"] |}.

(** The same market with an exchange that rejects the API key. *)
Definition market_bad_key : balances_env Q :=
  {| validate_api_key := fun _ => Ok (false, "Invalid key");
   query_balances := query_balances market;
   chain_query_balances := chain_query_balances market;
   find_usd_price := find_usd_price market;
   new_FVal := new_FVal market;
   new_Asset := new_Asset market;
   asset_symbol := asset_symbol market;
   get_main_currency := get_main_currency market;
   files := files market |}.

(** The market seen from a directory that holds [cold.yaml] with an empty
    list of balances and [paper.yaml] with trades only; [FVal] reads a
    whole number, [Asset] accepts every identifier, and only BTC has a
    price. *)
Definition desk : balances_env Q :=
  {| validate_api_key := validate_api_key market;
     query_balances := query_balances market;
     chain_query_balances := chain_query_balances market;
     find_usd_price := fun a =>
       if String.eqb a "BTC" then Ok 30000%Q
       else if String.eqb a "USD" then Ok 1%Q
       else Raise (Raised "PriceQueryUnsupportedAsset");
     new_FVal := fun y =>
       match y with
       | YInt z => Ok (inject_Z z)
       | _ => Raise (ValueError "Invalid FVal")
       end;
     new_Asset := fun y =>
       match y with
       | YStr s => Ok s
       | _ => Raise (Raised "UnknownAsset")
       end;
     asset_symbol := asset_symbol market;
     get_main_currency := get_main_currency market;
     files := [("cold.yaml",
                YMap [("balances",
                       YSeq [YMap [("asset", YStr "BTC"); ("amount", YInt 2)];
                             YMap [("asset", YStr "XYZ"); ("amount", YInt 5)]])]);
               ("paper.yaml", YMap [("trades", YSeq [])])] |}.

Definition trade1 : Trade :=
  {| timestamp := 1609459200; base_asset := "BTC"; quote_asset := "EUR";
   trade_type := Buy;
   amount := {| coefficient := 150; exponent := -2 |};
   rate := {| coefficient := 2350075; exponent := -2 |};
   fee := {| coefficient := 0; exponent := 0 |};
   fee_asset := "EUR"; source_account := "kraken" |}.

Definition trade2 : Trade :=
  {| timestamp := 1612137600; base_asset := "ETH"; quote_asset := "EUR";
   trade_type := Sell;
   amount := {| coefficient := 2; exponent := 0 |};
   rate := {| coefficient := -1; exponent := 3 |};
   fee := {| coefficient := 26; exponent := -4 |};
   fee_asset := "ETH"; source_account := "kraken" |}.

Definition exchange_ok : fetch_env :=
  {| fetch_validate_api_key := fun _ => Ok (true, "");
   query_online_trade_history := fun _ => Ok [trade1; trade2] |}.

Definition exchange_bad_key : fetch_env :=
  {| fetch_validate_api_key := fun _ => Ok (false, "Invalid key");
   query_online_trade_history := fun _ => Ok [trade1; trade2] |}.

Definition exchange_down : fetch_env :=
  {| fetch_validate_api_key := fun _ => Ok (true, "");
   query_online_trade_history := fun _ => Raise (Raised "RemoteError") |}.

Definition no_files : fetch_state :=
  {| disk := []; folders := data_folders; messages := [] |}.

(** A disk with the ledger of [kraken1] but without a [trades] entry in
  it, and the file of [cold] with balances only. *)
Definition disk_without_trades : filesystem :=
  [("trades/kraken1.yaml", YMap [("note", YStr "empty")]);
  ("cold.yaml", YMap [("balances", YSeq [])])].

(** Stored report definitions; the last has its dates the wrong way
  round. *)
Definition report_2020 : report_info :=
  [("name", "2020"); ("from", "2020-01-01"); ("to", "2020-12-31")].
Definition report_2021 : report_info :=
  [("name", "2021"); ("from", "2021-01-01"); ("to", "2021-12-31")].
Definition report_annual : report_info :=
  [("name", "annual"); ("from", "2019-01-01"); ("to", "2019-12-31")].
Definition report_backwards : report_info :=
  [("name", "backwards"); ("from", "2021-12-31"); ("to", "2021-01-01")].

Definition db_reports (rs : list report_info) : BuchfinkDB :=
  {| data_directory := "."; accounts := [kraken1; wallet1]; reports := rs |}.

Definition overview_of (total taxable : string) : report_result :=
  [("overview", [("total_profit_loss", total);
               ("total_taxable_profit_loss", taxable)])].

(** An accounting collaborator that computes every report. *)
Definition accounting_ok : report_env :=
  {| fromisoformat := date_fromisoformat;
   datetime_timestamp := utc_timestamp;
   run_report := fun _ => Ok (overview_of "10" "4") |}.

(** An accounting collaborator that fails on the report named 2020. *)
Definition accounting_fails_2020 : report_env :=
  {| fromisoformat := date_fromisoformat;
   datetime_timestamp := utc_timestamp;
   run_report := fun cfg =>
     if String.eqb (name cfg) "2020" then Raise (Raised "ReportError")
     else Ok (overview_of "10" "4") |}.

Definition no_history : accountant := fun _ => Ok [].

(** An accountant that reports, for each trade it is handed, the base
  asset with the seconds of the trade as allowance and the quote asset as
  price column: what it was handed, and in which order, shows in the
  table. *)
Definition echo_history : accountant :=
  fun trades =>
  Ok (map (fun t => (base_asset t, (string_of_Z (Ledger.timestamp t), quote_asset t)))
        trades).

(** A disk with the ledger of [kraken1], holding the first trade, and the
  file of [paper], holding the second. *)
Definition disk_with_trades : filesystem :=
  [("trades/kraken1.yaml", YMap [("trades", YSeq (serialize_trades [trade1]))]);
  ("paper.yaml", YMap [("trades", YSeq (serialize_trades [trade2]))])].

End Scenario.

(** * Properties *)

(** ** Exceptions and loops *)

Lemma bind_ok {A B} (c : result A) (k : A -> result B) (b : B) :
  bind c k = Ok b -> exists a, c = Ok a /\ k a = Ok b.
Proof.
  destruct c as [a|e]; simpl; intros Hk; [exists a; split; auto | discriminate].
Qed.

Section Control.
Context {A B S : Type}.

Lemma for_each_app (body : A -> S -> result S) (l1 l2 : list A) (s : S) :
  for_each body (l1 ++ l2) s = bind (for_each body l1 s) (for_each body l2).
Proof.
  revert s; induction l1 as [|x l1 IH]; intros s; simpl; [reflexivity|].
  destruct (body x s) as [s'|e]; simpl; [apply IH | reflexivity].
Qed.

(** A property kept by every pass of a loop holds when the loop ends. *)
Lemma for_each_invariant (P : S -> Prop) (body : A -> S -> result S) :
  (forall x s s', P s -> body x s = Ok s' -> P s') ->
  forall l s s', P s -> for_each body l s = Ok s' -> P s'.
Proof.
  intros Hstep l; induction l as [|x l IH]; intros s s' Hs Hrun; simpl in Hrun.
  - injection Hrun as <-; exact Hs.
  - apply bind_ok in Hrun as (s1 & H1 & H2); eauto.
Qed.

(** A loop whose passes never raise does not raise. *)
Lemma for_each_total (body : A -> S -> result S) (l : list A) :
  (forall x s, In x l -> exists s', body x s = Ok s') ->
  forall s, exists s', for_each body l s = Ok s'.
Proof.
  induction l as [|x l IH]; intros Hbody s; simpl; [eauto|].
  destruct (Hbody x s (or_introl eq_refl)) as (s1 & ->); simpl.
  apply IH; intros y s2 Hy; apply Hbody; right; exact Hy.
Qed.

(** A pass that raises in every state makes the whole loop raise. *)
Lemma for_each_aborts (body : A -> S -> result S) (l : list A) (x : A) :
  In x l -> (forall s, exists e, body x s = Raise e) ->
  forall s, exists e, for_each body l s = Raise e.
Proof.
  intros Hin Hx; induction l as [|y l IH]; intros s; [destruct Hin|].
  simpl; destruct Hin as [->|Hin].
  - destruct (Hx s) as (e & ->); simpl; eauto.
  - destruct (body y s) as [s1|e]; simpl; eauto.
Qed.

(** A loop whose pass computes something from the item alone and folds it
  into the state is a comprehension followed by a fold. *)
Lemma for_each_fold (f : A -> result B) (g : S -> B -> S)
    (body : A -> S -> result S) (l : list A) :
  (forall x s, body x s = bind (f x) (fun e => Ok (g s e))) ->
  forall s, for_each body l s
          = bind (comprehension f l) (fun es => Ok (fold_left g es s)).
Proof.
  intros Hbody; induction l as [|x l IH]; intros s; simpl; [reflexivity|].
  rewrite Hbody; destruct (f x) as [e|e]; simpl; [|reflexivity].
  rewrite IH; destruct (comprehension f l); reflexivity.
Qed.

End Control.

(** ** Dictionaries *)

Section Dict.
Context {V : Type}.
Implicit Types (d : dict V) (k : string).

Lemma dget_dset k k' v d :
  dget k (dset k' v d) = if String.eqb k k' then Some v else dget k d.
Proof.
  induction d as [|[k0 v0] d IH]; simpl.
  - destruct (String.eqb_spec k k'); reflexivity.
  - destruct (String.eqb_spec k' k0) as [->|Hne]; simpl.
  + destruct (String.eqb_spec k k0); reflexivity.
  + rewrite IH. destruct (String.eqb_spec k k0) as [->|]; [|reflexivity].
    destruct (String.eqb_spec k0 k') as [->|]; [contradiction|reflexivity].
Qed.

Lemma dget_not_in k d : dget k d = None <-> ~ In k (keys d).
Proof.
  induction d as [|[k0 v0] d IH]; simpl; [intuition|].
  destruct (String.eqb_spec k k0) as [->|Hne]; split; intros Hk.
  - discriminate.
  - exfalso; apply Hk; left; reflexivity.
  - intros [Heq|Hin]; [congruence | apply IH in Hk; contradiction].
  - apply IH; intros Hin; apply Hk; right; exact Hin.
Qed.

Lemma dget_in k v d : dget k d = Some v -> In (k, v) d.
Proof.
  induction d as [|[k0 v0] d IH]; simpl; [discriminate|].
  destruct (String.eqb_spec k k0) as [->|Hne]; [intros [= ->]; left; reflexivity|].
  intros Hk; right; exact (IH Hk).
Qed.

Lemma in_dget k v d : NoDup (keys d) -> In (k, v) d -> dget k d = Some v.
Proof.
  induction d as [|[k0 v0] d IH]; simpl; [contradiction|].
  intros Hnd [Heq|Hin].
  - injection Heq as -> ->; rewrite String.eqb_refl; reflexivity.
  - inversion Hnd as [|? ? Hk0 Hnd']; subst.
  destruct (String.eqb_spec k k0) as [->|Hne]; [|apply IH; assumption].
  exfalso; apply Hk0; change k0 with (fst (k0, v)); apply in_map; exact Hin.
Qed.

(** Assigning to a present key keeps the order of the keys; a new key
  goes to the end. *)
Lemma keys_dset k v d :
  keys (dset k v d) = if contains_key k d then keys d else keys d ++ [k].
Proof.
  unfold contains_key, keys; induction d as [|[k0 v0] d IH]; simpl; [reflexivity|].
  destruct (String.eqb_spec k k0) as [->|Hne]; simpl; [reflexivity|].
  rewrite IH; destruct (dget k d); reflexivity.
Qed.

Lemma NoDup_keys_dset k v d : NoDup (keys d) -> NoDup (keys (dset k v d)).
Proof.
  intros Hnd; rewrite keys_dset; unfold contains_key.
  destruct (dget k d) eqn:Hk; [exact Hnd|].
  apply dget_not_in in Hk.
  apply (Permutation_NoDup (l := k :: keys d)).
  - apply Permutation_cons_append.
  - constructor; assumption.
Qed.

Lemma in_keys_dset k k' v d :
  In k (keys (dset k' v d)) <-> k = k' \/ In k (keys d).
Proof.
  rewrite keys_dset; unfold contains_key; destruct (dget k' d) eqn:Hk.
  - split; [auto|]. intros [->|Hin]; [|exact Hin].
  apply dget_in in Hk; change k' with (fst (k', v0)); apply in_map; exact Hk.
  - rewrite in_app_iff; simpl; intuition.
Qed.

(** Dictionaries with the same entries hold the same pairs. *)
Lemma same_entries_perm d1 d2 :
  NoDup (keys d1) -> NoDup (keys d2) -> same_entries d1 d2 -> Permutation d1 d2.
Proof.
  intros H1 H2 Hsame; apply NoDup_Permutation.
  - eapply NoDup_map_inv; exact H1.
  - eapply NoDup_map_inv; exact H2.
  - intros [k v]; split; intros Hin.
  + apply dget_in; rewrite <- Hsame; apply in_dget; assumption.
  + apply dget_in; rewrite Hsame; apply in_dget; assumption.
Qed.

End Dict.

(** ** The stable descending sort *)

Section BeforeFacts.
Context {A : Type}.
Implicit Types (x y p q : A) (l : list A).

Lemma before_head x q l : In q l -> before x q (x :: l).
Proof.
  intros Hin; apply in_split in Hin as (l2 & l3 & ->).
  exists [], l2, l3; reflexivity.
Qed.

Lemma before_cons p q x l : before p q l -> before p q (x :: l).
Proof.
  intros (l1 & l2 & l3 & ->); exists (x :: l1), l2, l3; reflexivity.
Qed.

Lemma before_cons_inv p q x l :
  before p q (x :: l) -> (p = x /\ In q l) \/ before p q l.
Proof.
  intros (l1 & l2 & l3 & Heq); destruct l1 as [|a l1]; simpl in Heq.
  - injection Heq as -> ->; left; split; [reflexivity|].
  apply in_or_app; right; left; reflexivity.
  - injection Heq as -> ->; right; exists l1, l2, l3; reflexivity.
Qed.

Lemma before_insert_mid p q x l1 l2 :
  before p q (l1 ++ l2) -> before p q (l1 ++ x :: l2).
Proof.
  induction l1 as [|a l1 IH]; simpl; intros Hb; [apply before_cons; exact Hb|].
  apply before_cons_inv in Hb as [[-> Hin]|Hb].
  - apply before_head; apply in_app_or in Hin; apply in_or_app.
  destruct Hin; [left | right; right]; assumption.
  - apply before_cons; apply IH; exact Hb.
Qed.

End BeforeFacts.

Section SortingFacts.
Context {FVal : Type} `{FValOps FVal}.
Implicit Types (x y p q : Asset * FVal) (l : list (Asset * FVal)).

(** Where [insert_desc] puts the new item: behind the items that are
  greater, in front of the first one that is not. *)
Lemma insert_desc_split x l :
  exists l1 l2,
  l = l1 ++ l2 /\ insert_desc x l = l1 ++ x :: l2
  /\ Forall (fun y => flt (snd x) (snd y) = true) l1
  /\ (forall y l2', l2 = y :: l2' -> flt (snd x) (snd y) = false).
Proof.
  induction l as [|y l IH]; simpl.
  - exists [], []; repeat split; [constructor | discriminate].
  - destruct (flt (snd x) (snd y)) eqn:Hxy.
  + destruct IH as (l1 & l2 & -> & -> & Hall & Hhd).
    exists (y :: l1), l2; repeat split; [constructor; assumption | exact Hhd].
  + exists [], (y :: l); repeat split; [constructor|].
    intros y' l2' [= <- <-]; exact Hxy.
Qed.

Lemma insert_desc_perm x l : Permutation (insert_desc x l) (x :: l).
Proof.
  destruct (insert_desc_split x l) as (l1 & l2 & -> & -> & _).
  symmetry; apply Permutation_middle.
Qed.

Lemma sorted_desc_perm l : Permutation (sorted_desc l) l.
Proof.
  induction l as [|x l IH]; simpl; [constructor|].
  rewrite insert_desc_perm; constructor; exact IH.
Qed.

Lemma insert_desc_sorted `{!FValOrder} x l :
  value_desc l -> value_desc (insert_desc x l).
Proof.
  unfold value_desc; induction l as [|y l IH]; simpl; intros Hs.
  - repeat constructor.
  - inversion Hs as [|? ? Hs' Hall]; subst.
  destruct (flt (snd x) (snd y)) eqn:Hxy.
  + constructor; [apply IH; exact Hs'|].
    rewrite Forall_forall in *; intros z Hz.
    apply (Permutation_in _ (insert_desc_perm x l)) in Hz as [<-|Hz].
    * apply flt_asym; exact Hxy.
    * apply Hall; exact Hz.
  + constructor; [exact Hs|].
    constructor; [exact Hxy|].
    rewrite Forall_forall in *; intros z Hz.
    destruct (flt (snd x) (snd z)) eqn:Hxz; [|reflexivity].
    destruct (flt_cotrans _ (snd y) _ Hxz) as [Hc|Hc]; [congruence|].
    rewrite (Hall z Hz) in Hc; discriminate.
Qed.

Lemma sorted_desc_sorted `{!FValOrder} l : value_desc (sorted_desc l).
Proof.
  induction l as [|x l IH]; simpl; [constructor|].
  apply insert_desc_sorted; exact IH.
Qed.

(** The sort is stable: an item stays in front of every later item that
  is not greater than it. *)
Lemma sorted_desc_stable p q l :
  before p q l -> flt (snd p) (snd q) = false -> before p q (sorted_desc l).
Proof.
  induction l as [|x l IH]; intros Hb Hpq.
  - destruct Hb as (l1 & l2 & l3 & Heq); destruct l1; discriminate.
  - simpl; destruct (insert_desc_split x (sorted_desc l))
    as (l1 & l2 & Hl & -> & Hgt & _).
  apply before_cons_inv in Hb as [[-> Hin]|Hb].
  + apply (Permutation_in _ (Permutation_sym (sorted_desc_perm l))) in Hin.
    rewrite Hl in Hin; apply in_app_or in Hin as [Hin|Hin].
    * rewrite Forall_forall in Hgt; rewrite (Hgt q Hin) in Hpq; discriminate.
    * apply in_split in Hin as (l2a & l2b & ->).
      exists l1, l2a, l2b; reflexivity.
  + apply before_insert_mid; rewrite <- Hl; apply IH; assumption.
Qed.

(** Without ties there is just one descending arrangement. *)
Lemma value_desc_unique `{!FValOrder} l1 l2 :
  no_ties l1 -> NoDup l1 -> Permutation l1 l2 ->
  value_desc l1 -> value_desc l2 -> l1 = l2.
Proof.
  unfold value_desc; revert l2; induction l1 as [|a l1 IH]; intros l2 Hties Hnd Hp H1 H2.
  - apply Permutation_nil in Hp; subst; reflexivity.
  - destruct l2 as [|b l2]; [apply Permutation_sym, Permutation_nil in Hp; discriminate|].
  inversion H1 as [|? ? H1' Ha]; inversion H2 as [|? ? H2' Hb]; subst.
  assert (Hab : a = b).
  { assert (Hin_b : In b (a :: l1))
      by (apply (Permutation_in _ (Permutation_sym Hp)); left; reflexivity).
    assert (Hin_a : In a (b :: l2))
      by (apply (Permutation_in _ Hp); left; reflexivity).
    destruct Hin_b as [Heq|Hin_b]; [exact Heq|].
    destruct Hin_a as [Heq|Hin_a]; [symmetry; exact Heq|].
    rewrite Forall_forall in Ha, Hb.
    assert (Hne : a <> b).
    { intros ->; inversion Hnd; contradiction. }
    destruct (Hties a b (or_introl eq_refl) (or_intror Hin_b) Hne) as [Hlt|Hlt].
    - rewrite (Ha b Hin_b) in Hlt; discriminate.
    - rewrite (Hb a Hin_a) in Hlt; discriminate. }
  subst b; f_equal; apply Permutation_cons_inv in Hp.
  inversion Hnd; subst.
  apply IH; try assumption.
  intros p q Hp' Hq' Hne; apply Hties; [right | right |]; assumption.
Qed.

End SortingFacts.

(** ** The accumulators of [balances] *)

Lemma comprehension_forall2 {A B} (f : A -> result B) (l : list A) (ys : list B) :
  comprehension f l = Ok ys -> Forall2 (fun x y => f x = Ok y) l ys.
Proof.
  revert ys; induction l as [|x l IH]; simpl; intros ys Hc.
  - injection Hc as <-; constructor.
  - apply bind_ok in Hc as (y & Hy & Hc).
    apply bind_ok in Hc as (ys' & Hys & [= <-]).
    constructor; [exact Hy | apply IH; exact Hys].
Qed.

Lemma forall2_comprehension {A B} (f : A -> result B) (l : list A) (ys : list B) :
  Forall2 (fun x y => f x = Ok y) l ys -> comprehension f l = Ok ys.
Proof.
  induction 1 as [|x y l ys Hxy _ IH]; simpl; [reflexivity|].
  rewrite Hxy; simpl; rewrite IH; reflexivity.
Qed.

Lemma comprehension_ext {A B} (f g : A -> result B) (l : list A) :
  (forall x, In x l -> f x = g x) -> comprehension f l = comprehension g l.
Proof.
  induction l as [|x l IH]; simpl; intros Hfg; [reflexivity|].
  rewrite (Hfg x (or_introl eq_refl)), IH; [reflexivity|].
  intros y Hy; apply Hfg; right; exact Hy.
Qed.

Lemma comprehension_pure {A B} (f : A -> B) (l : list A) :
  comprehension (fun x => Ok (f x)) l = Ok (map f l).
Proof.
  induction l as [|x l IH]; simpl; [reflexivity | rewrite IH; reflexivity].
Qed.

Section Accumulators.
Context {FVal : Type} `{FValOps FVal}.
Implicit Types (s : sums FVal) (es : list (entry FVal)).

Lemma add_log_nil s : add_log [] s = s.
Proof. destruct s; unfold add_log; simpl; rewrite app_nil_r; reflexivity. Qed.

Lemma apply_entries_add_log es lg s :
  apply_entries es (add_log lg s) = add_log lg (apply_entries es s).
Proof.
  unfold apply_entries; revert s; induction es as [|e es IH]; intros s; simpl;
  [reflexivity|].
  rewrite <- IH; reflexivity.
Qed.

Lemma apply_entries_app es1 es2 s :
  apply_entries (es1 ++ es2) s = apply_entries es2 (apply_entries es1 s).
Proof. unfold apply_entries; apply fold_left_app. Qed.

Lemma add_to_keys (d : dict FVal) a x :
  NoDup (keys d) -> NoDup (keys (add_to d a x)).
Proof. apply NoDup_keys_dset. Qed.

Lemma accumulate_well_formed a q u s :
  well_formed s -> well_formed (accumulate a q u s).
Proof.
  intros (Hb & Hu & Hincl); unfold well_formed, accumulate; simpl.
  split; [apply add_to_keys; exact Hb|].
  destruct u as [v|].
  - split; [apply add_to_keys; exact Hu|].
  intros k Hk; unfold add_to in *; apply in_keys_dset in Hk.
  apply in_keys_dset; destruct Hk as [->|Hk]; [left; reflexivity|].
  right; apply Hincl; exact Hk.
  - split; [exact Hu|].
  intros k Hk; unfold add_to; apply in_keys_dset; right; apply Hincl; exact Hk.
Qed.

Lemma apply_entries_well_formed es s :
  well_formed s -> well_formed (apply_entries es s).
Proof.
  unfold apply_entries; revert s; induction es as [|e es IH]; intros s Hs;
  [exact Hs|].
  simpl; apply IH; apply accumulate_well_formed; exact Hs.
Qed.

Lemma absorb_well_formed (c : contribution FVal) s s' :
  well_formed s -> absorb c s = Ok s' -> well_formed s'.
Proof.
  unfold absorb; intros Hs Hc; apply bind_ok in Hc as (p & _ & [= <-]).
  apply apply_entries_well_formed; exact Hs.
Qed.

Lemma empty_sums_well_formed : well_formed (empty_sums (FVal := FVal)).
Proof. repeat split; try constructor. intros k []. Qed.

(** *** Every branch of the account loop is a contribution *)

Lemma exchange_items_fold (items : list (Asset * exchange_balance FVal)) s :
  for_each exchange_item items s
  = bind (comprehension exchange_entry items)
       (fun es => Ok (apply_entries es s)).
Proof.
  apply (for_each_fold exchange_entry apply_entry).
  intros item s0; unfold exchange_item, exchange_entry.
  destruct (eb_amount (snd item)); reflexivity.
Qed.

Lemma eth_items_fold (items : list (Asset * chain_balance FVal)) s :
  for_each eth_item items s = Ok (apply_entries (map chain_entry items) s).
Proof.
  rewrite (for_each_fold (fun i => Ok (chain_entry i)) apply_entry);
  [|reflexivity].
  rewrite comprehension_pure; reflexivity.
Qed.

Lemma eth_balances_fold (bs : list (list (Asset * chain_balance FVal))) s :
  for_each (for_each eth_item) bs s
  = Ok (apply_entries (concat (map (map chain_entry) bs)) s).
Proof.
  revert s; induction bs as [|b bs IH]; intros s; simpl; [reflexivity|].
  rewrite eth_items_fold; simpl; rewrite IH, apply_entries_app; reflexivity.
Qed.

Lemma btc_items_fold (items : list (chain_balance FVal)) s :
  for_each btc_item items s = Ok (apply_entries (map btc_entry items) s).
Proof.
  rewrite (for_each_fold (fun i => Ok (btc_entry i)) apply_entry);
  [|reflexivity].
  rewrite comprehension_pure; reflexivity.
Qed.

Variable env : balances_env FVal.

Lemma file_items_fold (items : list yaml) s :
  for_each (file_item env) items s
  = bind (comprehension (file_entry env) items)
       (fun es => Ok (apply_entries es s)).
Proof.
  apply (for_each_fold (file_entry env) apply_entry).
  intros item s0; unfold file_item, file_entry.
  destruct (yaml_getitem item "amount") as [ra|]; cbn [bind]; [|reflexivity].
  destruct (new_FVal env ra) as [am|]; cbn [bind]; [|reflexivity].
  destruct (yaml_getitem item "asset") as [rs|]; cbn [bind]; [|reflexivity].
  destruct (new_Asset env rs) as [asset|]; cbn [bind]; [|reflexivity].
  destruct (find_usd_price env asset); reflexivity.
Qed.

Variable db : BuchfinkDB.

Ltac contribute c :=
  exists c; intros s; unfold absorb; simpl;
  rewrite ?add_log_nil; reflexivity.

Ltac raises e := contribute (@Raise (list (entry FVal) * list log_entry) e).
Ltac nothing := contribute (Ok (@nil (entry FVal), @nil log_entry)).

Lemma exchange_branch_uniform acct :
  exists c, forall s, exchange_branch env db acct s = absorb c s.
Proof.
  unfold exchange_branch.
  destruct (getitem acct "name") as [name|e]; cbn [bind]; [|raises e].
  destruct (get_exchange db name) as [ex|e]; cbn [bind]; [|raises e].
  destruct (validate_api_key env ex) as [[valid err]|e]; cbn [bind]; [|raises e].
  destruct valid; cbn [negb].
  - destruct (query_balances env ex) as [[bal err2]|e]; cbn [bind]; [|raises e].
  destruct (String.eqb err2 "").
  + exists (bind (comprehension exchange_entry bal)
                 (fun es => Ok (es, [Info_fetched_balances (List.length bal) name]))).
    intros s; rewrite exchange_items_fold; unfold absorb.
    destruct (comprehension exchange_entry bal); reflexivity.
  + nothing.
  - contribute (Ok (@nil (entry FVal), [Critical_skipping name err])).
Qed.

Lemma ethereum_branch_uniform acct :
  exists c, forall s, ethereum_branch env acct s = absorb c s.
Proof.
  unfold ethereum_branch.
  destruct (get_chain_manager acct) as [m|e]; cbn [bind]; [|raises e].
  destruct (chain_query_balances env m) as [b|e]; cbn [bind]; [|raises e].
  exists (Ok (concat (map (map chain_entry) (bal_eth b)), @nil log_entry)).
  intros s; rewrite eth_balances_fold; unfold absorb; simpl.
  rewrite add_log_nil; reflexivity.
Qed.

Lemma bitcoin_branch_uniform acct :
  exists c, forall s, bitcoin_branch env acct s = absorb c s.
Proof.
  unfold bitcoin_branch.
  destruct (get_chain_manager acct) as [m|e]; cbn [bind]; [|raises e].
  destruct (chain_query_balances env m) as [b|e]; cbn [bind]; [|raises e].
  exists (Ok (map btc_entry (bal_btc b), @nil log_entry)).
  intros s; rewrite btc_items_fold; unfold absorb; simpl.
  rewrite add_log_nil; reflexivity.
Qed.

Lemma file_branch_uniform acct :
  exists c, forall s, file_branch env acct s = absorb c s.
Proof.
  unfold file_branch.
  destruct (getitem acct "file") as [path|e]; cbn [bind]; [|raises e].
  destruct (load_yaml (files env) path) as [doc|e]; cbn [bind]; [|raises e].
  destruct (yaml_contains "balances" doc) as [has|e]; cbn [bind]; [|raises e].
  destruct has; [|nothing].
  destruct (yaml_getitem doc "balances") as [raw|e]; cbn [bind]; [|raises e].
  destruct (yaml_iter raw) as [items|e]; cbn [bind]; [|raises e].
  exists (bind (comprehension (file_entry env) items)
             (fun es => Ok (es, @nil log_entry))).
  intros s; rewrite file_items_fold; unfold absorb.
  destruct (comprehension (file_entry env) items); simpl;
  rewrite ?add_log_nil; reflexivity.
Qed.

(** What an account does to the accumulators does not depend on what is
  in them. *)
Lemma balances_account_uniform keyword acct :
  exists c, forall s, balances_account env db keyword acct s = absorb c s.
Proof.
  unfold balances_account.
  destruct (match keyword with
          | None => Ok false
          | Some k => name <- getitem acct "name" ;; Ok (negb (str_contains k name))
          end) as [filtered|e]; cbn [bind]; [|raises e].
  destruct filtered; [nothing|].
  destruct (contains_key "exchange" acct); [apply exchange_branch_uniform|].
  destruct (contains_key "ethereum" acct); [apply ethereum_branch_uniform|].
  destruct (contains_key "bitcoin" acct); [apply bitcoin_branch_uniform|].
  destruct (contains_key "file" acct); [apply file_branch_uniform|].
  nothing.
Qed.

Lemma balances_accumulate_well_formed keyword s :
  balances_accumulate env db keyword = Ok s -> well_formed s.
Proof.
  unfold balances_accumulate.
  apply (for_each_invariant well_formed); [|apply empty_sums_well_formed].
  intros acct s0 s1 Hs0.
  destruct (balances_account_uniform keyword acct) as (c & Hc); rewrite Hc.
  apply absorb_well_formed; exact Hs0.
Qed.

End Accumulators.

(** ** The table *)

Section Table.
Context {FVal : Type} `{FValOps FVal}.
Variable env : balances_env FVal.
Implicit Types (s : sums FVal).

Lemma table_rows_fold s rate assets (acc : list (row FVal) * FVal) :
  for_each (table_row env s rate) assets acc
  = bind (comprehension (priced_row env s rate) assets)
       (fun rvs => Ok (fst acc ++ map fst rvs,
                       fold_left fadd (map snd rvs) (snd acc))).
Proof.
  rewrite (for_each_fold (priced_row env s rate)
           (fun (a : list (row FVal) * FVal) rv =>
              (fst a ++ [fst rv], fadd (snd a) (snd rv)))).
  - destruct (comprehension (priced_row env s rate) assets) as [rvs|e];
    [|reflexivity].
  cbn [bind]; f_equal; clear; revert acc.
  induction rvs as [|rv rvs IH]; intros acc; simpl.
  + rewrite app_nil_r; destruct acc; reflexivity.
  + rewrite IH; simpl; rewrite <- app_assoc; reflexivity.
  - intros asset a; unfold table_row, priced_row.
  destruct (getitem (balances_sum s) asset); cbn [bind]; [|reflexivity].
  destruct (fdiv _ rate); reflexivity.
Qed.

(** The table is the priced rows of the sorted assets, then the total. *)
Lemma make_table_rows s table :
  make_table env s = Ok table <->
  exists currency rate rvs,
  get_main_currency env = Ok currency
  /\ find_usd_price env currency = Ok rate
  /\ comprehension (priced_row env s rate)
                   (map fst (sorted_desc (usd_value_sum s))) = Ok rvs
  /\ table = map fst rvs ++ [total_row (fold_left fadd (map snd rvs) fzero)].
Proof.
  unfold make_table; split.
  - intros Hm.
  apply bind_ok in Hm as (currency & Hc & Hm).
  apply bind_ok in Hm as (rate & Hr & Hm).
  rewrite table_rows_fold in Hm.
  apply bind_ok in Hm as ([t total] & Ht & [= <-]).
  apply bind_ok in Ht as (rvs & Hrvs & [= <- <-]).
  exists currency, rate, rvs; auto.
  - intros (currency & rate & rvs & Hc & Hr & Hrvs & ->).
  rewrite Hc; cbn [bind]; rewrite Hr; cbn [bind].
  rewrite table_rows_fold, Hrvs; reflexivity.
Qed.

Lemma priced_row_inv s rate asset r v :
  priced_row env s rate asset = Ok (r, v) ->
  row_label_of r = Row_asset asset
  /\ row_amount r = dget asset (balances_sum s)
  /\ row_value r = round_float v
  /\ fdiv (get_default (usd_value_sum s) asset fzero) rate = Ok v.
Proof.
  unfold priced_row, getitem; intros Hp.
  destruct (dget asset (balances_sum s)) as [b|]; [|discriminate].
  cbn [bind] in Hp; apply bind_ok in Hp as (v' & Hv & [= <- <-]); auto.
Qed.

End Table.

(** ** Exact rational decimals obey the laws *)

Module ExactDecimalFacts.
Import ExactDecimal.

Lemma lt_iff (a b : Q) : lt a b = true <-> (a < b)%Q.
Proof.
  unfold lt; rewrite negb_true_iff; split; intros Hab.
  - apply Qnot_le_lt; intros Hle; apply Qle_bool_iff in Hle; congruence.
  - destruct (Qle_bool b a) eqn:Hle; [|reflexivity].
  apply Qle_bool_iff in Hle; exfalso; exact (Qlt_not_le _ _ Hab Hle).
Qed.

#[global] Instance order : FValOrder (H := ops).
Proof.
  split; cbn [flt ops].
  - intros a b Hab; apply lt_iff in Hab.
  destruct (lt b a) eqn:Hba; [|reflexivity].
  apply lt_iff in Hba; exfalso; exact (Qlt_irrefl _ (Qlt_trans _ _ _ Hab Hba)).
  - intros a b c Hac; apply lt_iff in Hac; rewrite !lt_iff.
  destruct (Qlt_le_dec a b) as [Hab|Hba]; [left; exact Hab|].
  right; exact (Qle_lt_trans _ _ _ Hba Hac).
Qed.

#[global] Instance sum : FValSum (H := ops).
Proof.
  split.
  - intros a b; change (Qred (a + b) = Qred (b + a)).
  apply Qred_complete, Qplus_comm.
  - intros a b c; change (Qred (Qred (a + b) + c) = Qred (a + Qred (b + c))).
  apply Qred_complete; rewrite !Qred_correct; symmetry; apply Qplus_assoc.
Qed.

End ExactDecimalFacts.

(** ** Order of the rows (C3) *)

Section RowOrder.
Context {FVal : Type} `{FValOps FVal}.
Variable env : balances_env FVal.

Lemma priced_rows_columns (s : sums FVal) rate items rvs :
  (forall p, In p items -> get_default (usd_value_sum s) (fst p) fzero = snd p) ->
  Forall2 (fun a rv => priced_row env s rate a = Ok rv) (map fst items) rvs ->
  Forall2 (fun item v => fdiv (snd item) rate = Ok v) items (map snd rvs)
  /\ map row_label_of (map fst rvs) = map (fun item => Row_asset (fst item)) items
  /\ map row_amount (map fst rvs)
   = map (fun item => dget (fst item) (balances_sum s)) items
  /\ map row_value (map fst rvs) = map round_float (map snd rvs).
Proof.
  revert rvs; induction items as [|p items IH]; intros rvs Hval Hrows;
  inversion Hrows as [|a [r v] l l' Hp Hrest]; subst; simpl.
  - repeat split; constructor.
  - destruct (IH l') as (IH1 & IH2 & IH3 & IH4);
    [intros q Hq; apply Hval; right; exact Hq | exact Hrest |].
  apply priced_row_inv in Hp as (Hl & Ha & Hv & Hd).
  rewrite (Hval p (or_introl eq_refl)) in Hd.
  repeat split; [constructor; assumption | | |]; f_equal; assumption.
Qed.

End RowOrder.

(** C3, as the code has it: the asset rows come in descending order of
    their value total; assets whose value totals tie stay in the order in
    which they first received a value, not in the order of their
    identifiers; the last row is the total of the rows' values. *)
Theorem balances_rows_descend_total_last
        {FVal : Type} `{FValOps FVal} `{!FValOrder}
        (env : balances_env FVal) (db : BuchfinkDB) (keyword : option string)
        (table : list (row FVal)) (lg : list log_entry) :
  balances env db keyword = Ok (table, lg) ->
  exists s rate values,
    balances_accumulate env db keyword = Ok s
    /\ Permutation (sorted_desc (usd_value_sum s)) (usd_value_sum s)
    /\ value_desc (sorted_desc (usd_value_sum s))
    /\ (forall p q, before p q (usd_value_sum s) ->
                    flt (snd p) (snd q) = false ->
                    before p q (sorted_desc (usd_value_sum s)))
    /\ Forall2 (fun item v => fdiv (snd item) rate = Ok v)
               (sorted_desc (usd_value_sum s)) values
    /\ map row_label_of table
       = map (fun item => Row_asset (fst item)) (sorted_desc (usd_value_sum s))
         ++ [Row_total]
    /\ map row_amount table
       = map (fun item => dget (fst item) (balances_sum s))
             (sorted_desc (usd_value_sum s)) ++ [None]
    /\ map row_value table
       = map round_float values ++ [round_float (fold_left fadd values fzero)].
Proof.
  unfold balances; intros Hb.
  apply bind_ok in Hb as (s & Hs & Hb).
  apply bind_ok in Hb as (t & Ht & [= <- <-]).
  apply make_table_rows in Ht as (currency & rate & rvs & _ & _ & Hrvs & ->).
  pose proof (balances_accumulate_well_formed _ _ _ _ Hs) as (_ & Hnd & _).
  apply comprehension_forall2 in Hrvs.
  apply priced_rows_columns in Hrvs as (Hv & Hl & Ha & Hr).
  - exists s, rate, (map snd rvs); split; [exact Hs|].
    split; [apply sorted_desc_perm|].
    split; [apply sorted_desc_sorted|].
    split; [intros p q; apply sorted_desc_stable|].
    split; [exact Hv|].
    rewrite !map_app, Hl, Ha, Hr; auto.
  - intros [a v] Hin; simpl; unfold get_default.
    apply (Permutation_in _ (sorted_desc_perm _)) in Hin.
    rewrite (in_dget _ _ _ Hnd Hin); reflexivity.
Qed.

Lemma balances_rows_descend_total_last_witness :
  exists s,
    balances_accumulate Scenario.market
      (Scenario.db_of [Scenario.kraken1; Scenario.wallet1]) None = Ok s
    /\ value_desc (sorted_desc (usd_value_sum s)).
Proof.
  destruct (balances_rows_descend_total_last
              (H := ExactDecimal.ops) Scenario.market
              (Scenario.db_of [Scenario.kraken1; Scenario.wallet1])
              None _ _ eq_refl)
    as (s & _ & _ & Hs & _ & Hsorted & _).
  exists s; split; assumption.
Defined.

(** C3 as the specification words it fails: two assets worth the same come
    out in the order in which they were met (ETH, then DAI), not in the
    order of their identifiers. *)
Lemma balances_ties_not_by_identifier :
  exists table lg s,
    balances Scenario.market
      (Scenario.db_of [Scenario.wallet1; Scenario.wallet2]) None = Ok (table, lg)
    /\ balances_accumulate Scenario.market
         (Scenario.db_of [Scenario.wallet1; Scenario.wallet2]) None = Ok s
    /\ map row_label_of table = [Row_asset "ETH"; Row_asset "DAI"; Row_total]
    /\ sorted_desc (usd_value_sum s) = [("ETH", 100%Q); ("DAI", 100%Q)]
    /\ ~ spec_ordered (sorted_desc (usd_value_sum s)).
Proof.
  eexists; eexists; eexists.
  split; [vm_compute; reflexivity|].
  split; [vm_compute; reflexivity|].
  split; [reflexivity|].
  split; [reflexivity|].
  intros Hs; inversion Hs as [|? ? _ Hall]; subst.
  inversion Hall as [|? ? Hp _]; subst.
  vm_compute in Hp; discriminate.
Qed.

(** ** Accounts in another order (C5) *)

Section Totals.
Context {FVal : Type} `{FValOps FVal} `{!FValSum}.
Implicit Types (d : dict FVal) (s : sums FVal).

Lemma fold_fadd_permuted (l l' : list FVal) :
  Permutation l l' -> forall a, fold_left fadd l a = fold_left fadd l' a.
Proof.
  induction 1 as [|x l l' _ IH|x y l|l l' l'' _ IH1 _ IH2]; intros a; simpl.
  - reflexivity.
  - apply IH.
  - f_equal; rewrite !fadd_assoc; f_equal; apply fadd_comm.
  - rewrite IH1; apply IH2.
Qed.

Lemma get_default_same d d' k :
  same_entries d d' -> get_default d k fzero = get_default d' k fzero.
Proof. intros Hs; unfold get_default; rewrite (Hs k); reflexivity. Qed.

Lemma add_to_same d d' a v :
  same_entries d d' -> same_entries (add_to d a v) (add_to d' a v).
Proof.
  intros Hs k; unfold add_to; rewrite !dget_dset, (get_default_same _ _ _ Hs).
  destruct (String.eqb k a); [reflexivity | apply Hs].
Qed.

Lemma get_default_add_to d a v k :
  get_default (add_to d a v) k fzero
  = if String.eqb k a then fadd (get_default d a fzero) v
  else get_default d k fzero.
Proof.
  unfold get_default at 1; unfold add_to; rewrite dget_dset.
  destruct (String.eqb k a); reflexivity.
Qed.

(** Two additions can be made in either order. *)
Lemma add_to_swap d d' a v b w :
  same_entries d d' ->
  same_entries (add_to (add_to d a v) b w) (add_to (add_to d' b w) a v).
Proof.
  intros Hs k.
  unfold add_to at 1 3; rewrite !dget_dset, !get_default_add_to.
  unfold add_to; rewrite !dget_dset, !(get_default_same _ _ _ Hs).
  destruct (String.eqb_spec k b) as [Ekb|Nkb];
  destruct (String.eqb_spec k a) as [Eka|Nka]; subst;
  rewrite ?String.eqb_refl; try reflexivity.
  - f_equal; rewrite !fadd_assoc; f_equal; apply fadd_comm.
  - destruct (String.eqb_spec b a) as [Eba|]; [congruence | reflexivity].
  - destruct (String.eqb_spec a b) as [Eab|]; [congruence | reflexivity].
  - apply Hs.
Qed.

Lemma add_pairs_same (l : list (Asset * FVal)) d d' :
  same_entries d d' ->
  same_entries (fold_left add_pair l d) (fold_left add_pair l d').
Proof.
  revert d d'; induction l as [|kv l IH]; intros d d' Hs; simpl; [exact Hs|].
  apply IH, add_to_same, Hs.
Qed.

Lemma add_pairs_permuted (l l' : list (Asset * FVal)) :
  Permutation l l' ->
  forall d d', same_entries d d' ->
             same_entries (fold_left add_pair l d) (fold_left add_pair l' d').
Proof.
  induction 1 as [|x l l' _ IH|x y l|l l' l'' _ IH1 _ IH2]; intros d d' Hs; simpl.
  - exact Hs.
  - apply IH, add_to_same, Hs.
  - apply add_pairs_same; unfold add_pair; apply add_to_swap, Hs.
  - intros k; rewrite (IH1 d d (fun _ => eq_refl) k); apply IH2, Hs.
Qed.

Lemma balances_sum_apply_entries (es : list (entry FVal)) s :
  balances_sum (apply_entries es s)
  = fold_left add_pair (map quantity_of es) (balances_sum s).
Proof.
  unfold apply_entries; revert s; induction es as [|e es IH]; intros s; simpl;
  [reflexivity | rewrite IH; reflexivity].
Qed.

Lemma usd_value_sum_apply_entries (es : list (entry FVal)) s :
  usd_value_sum (apply_entries es s)
  = fold_left add_pair (flat_map value_of es) (usd_value_sum s).
Proof.
  unfold apply_entries; revert s; induction es as [|e es IH]; intros s; simpl;
  [reflexivity|].
  rewrite IH, fold_left_app; f_equal.
  destruct e as [[a q] [v|]]; reflexivity.
Qed.

Lemma flat_map_permuted {A B} (f : A -> list B) (l l' : list A) :
  Permutation l l' -> Permutation (flat_map f l) (flat_map f l').
Proof.
  induction 1 as [|x l l' _ IH|x y l|l l' l'' _ IH1 _ IH2]; simpl.
  - constructor.
  - apply Permutation_app_head, IH.
  - rewrite !app_assoc; apply Permutation_app_tail, Permutation_app_comm.
  - etransitivity; eassumption.
Qed.

(** The totals do not depend on the order of the entries. *)
Lemma apply_entries_permuted (es es' : list (entry FVal)) s s' :
  Permutation es es' -> same_totals s s' ->
  same_totals (apply_entries es s) (apply_entries es' s').
Proof.
  intros Hp (Hb & Hu); split.
  - rewrite !balances_sum_apply_entries.
  apply add_pairs_permuted; [apply Permutation_map, Hp | exact Hb].
  - rewrite !usd_value_sum_apply_entries.
  apply add_pairs_permuted; [apply flat_map_permuted, Hp | exact Hu].
Qed.

Lemma same_totals_refl s : same_totals s s.
Proof. split; intros k; reflexivity. Qed.

Lemma same_totals_trans s1 s2 s3 :
  same_totals s1 s2 -> same_totals s2 s3 -> same_totals s1 s3.
Proof.
  intros (Hb & Hu) (Hb' & Hu'); split; intros k;
  [rewrite (Hb k); apply Hb' | rewrite (Hu k); apply Hu'].
Qed.

Lemma same_totals_add_log lg s : same_totals (add_log lg s) s.
Proof. split; intros k; reflexivity. Qed.

Lemma absorb_ok (c : contribution FVal) s s1 :
  absorb c s = Ok s1 ->
  exists es lg, c = Ok (es, lg) /\ s1 = apply_entries es (add_log lg s).
Proof.
  unfold absorb; intros Hc; apply bind_ok in Hc as ([es lg] & -> & [= <-]).
  exists es, lg; split; reflexivity.
Qed.

Lemma absorb_same_totals es lg s s' :
  same_totals s s' ->
  same_totals (apply_entries es (add_log lg s)) (apply_entries es (add_log lg s')).
Proof.
  intros Hs; apply apply_entries_permuted; [reflexivity|].
  eapply same_totals_trans; [apply same_totals_add_log|].
  eapply same_totals_trans; [exact Hs|].
  destruct (same_totals_add_log lg s') as (Hb & Hu); split; intros k;
  [rewrite (Hb k) | rewrite (Hu k)]; reflexivity.
Qed.

Section Loop.
Context {A : Type}.
Variable body : A -> sums FVal -> result (sums FVal).
Hypothesis uniform : forall x, exists c, forall s, body x s = absorb c s.

Lemma loop_same_totals l s s' s1 :
  same_totals s s' -> for_each body l s = Ok s1 ->
  exists s2, for_each body l s' = Ok s2 /\ same_totals s1 s2.
Proof.
  revert s s'; induction l as [|x l IH]; intros s s' Hs Hrun; simpl in *.
  - injection Hrun as <-; eauto.
  - apply bind_ok in Hrun as (sx & Hx & Hrun).
  destruct (uniform x) as (c & Hc); rewrite Hc in *.
  apply absorb_ok in Hx as (es & lg & -> & ->).
  unfold absorb; cbn [bind fst snd].
  eapply IH; [|exact Hrun]; apply absorb_same_totals, Hs.
Qed.

(** The loop over permuted items ends with the same totals. *)
Lemma loop_permuted l l' :
  Permutation l l' ->
  forall s s' s1,
  same_totals s s' -> for_each body l s = Ok s1 ->
  exists s2, for_each body l' s' = Ok s2 /\ same_totals s1 s2.
Proof.
  induction 1 as [|x l l' _ IH|x y l|l l' l'' _ IH1 _ IH2];
  intros s s' s1 Hs Hrun.
  - simpl in *; injection Hrun as <-; eauto.
  - simpl in *; apply bind_ok in Hrun as (sx & Hx & Hrun).
  destruct (uniform x) as (c & Hc); rewrite Hc in *.
  apply absorb_ok in Hx as (es & lg & -> & ->).
  unfold absorb; cbn [bind fst snd].
  eapply IH; [|exact Hrun]; apply absorb_same_totals, Hs.
  - simpl in *; apply bind_ok in Hrun as (sy & Hy & Hrun).
  apply bind_ok in Hrun as (sx & Hx & Hrun).
  destruct (uniform x) as (cx & Hcx); destruct (uniform y) as (cy & Hcy).
  rewrite Hcy in Hy; rewrite Hcx in Hx.
  apply absorb_ok in Hy as (esy & lgy & -> & ->).
  apply absorb_ok in Hx as (esx & lgx & -> & ->).
  rewrite Hcx; unfold absorb; cbn [bind fst snd].
  rewrite Hcy; unfold absorb; cbn [bind fst snd].
  eapply loop_same_totals; [|exact Hrun].
  rewrite !apply_entries_add_log.
  eapply same_totals_trans; [apply same_totals_add_log|].
  eapply same_totals_trans; [apply same_totals_add_log|].
  eapply same_totals_trans;
  [|split; intros k;
  [destruct (same_totals_add_log lgy
               (add_log lgx (apply_entries esy (apply_entries esx s')))) as (Hb & _);
   rewrite (Hb k)
  |destruct (same_totals_add_log lgy
               (add_log lgx (apply_entries esy (apply_entries esx s')))) as (_ & Hu);
   rewrite (Hu k)]; reflexivity].
  eapply same_totals_trans;
  [|split; intros k;
  [destruct (same_totals_add_log lgx
               (apply_entries esy (apply_entries esx s'))) as (Hb & _);
   rewrite (Hb k)
  |destruct (same_totals_add_log lgx
               (apply_entries esy (apply_entries esx s'))) as (_ & Hu);
   rewrite (Hu k)]; reflexivity].
  rewrite <- !apply_entries_app.
  apply apply_entries_permuted; [apply Permutation_app_comm | exact Hs].
  - destruct (IH1 s s s1 (same_totals_refl s) Hrun) as (s2 & Hrun2 & H12).
  destruct (IH2 s s' s2 Hs Hrun2) as (s3 & Hrun3 & H23).
  exists s3; split; [exact Hrun3 | eapply same_totals_trans; eassumption].
Qed.

End Loop.

End Totals.

Lemma forall2_permuted {A B} (R : A -> B -> Prop) (l l' : list A) :
  Permutation l l' ->
  forall ys, Forall2 R l ys ->
             exists ys', Forall2 R l' ys' /\ Permutation ys ys'.
Proof.
  induction 1 as [|x l l' _ IH|x y l|l l' l'' _ IH1 _ IH2]; intros ys Hys.
  - inversion Hys; subst; exists []; split; constructor.
  - inversion Hys as [|? b ? bs Hb Hbs]; subst.
    destruct (IH bs Hbs) as (bs' & Hbs' & Hp).
    exists (b :: bs'); split; constructor; assumption.
  - inversion Hys as [|? b ? bs Hb Hbs]; subst.
    inversion Hbs as [|? c ? cs Hc Hcs]; subst.
    exists (c :: b :: cs); split; [repeat constructor; assumption | constructor].
  - destruct (IH1 ys Hys) as (ys' & Hys' & Hp1).
    destruct (IH2 ys' Hys') as (ys'' & Hys'' & Hp2).
    exists ys''; split; [exact Hys'' | etransitivity; eassumption].
Qed.

Lemma comprehension_permuted {A B} (f : A -> result B) (l l' : list A) ys :
  Permutation l l' -> comprehension f l = Ok ys ->
  exists ys', comprehension f l' = Ok ys' /\ Permutation ys ys'.
Proof.
  intros Hp Hc; apply comprehension_forall2 in Hc.
  destruct (forall2_permuted _ _ _ Hp ys Hc) as (ys' & Hys' & Hperm).
  exists ys'; split; [apply forall2_comprehension; exact Hys' | exact Hperm].
Qed.

Lemma filter_permuted {A} (p : A -> bool) (l l' : list A) :
  Permutation l l' -> Permutation (filter p l) (filter p l').
Proof.
  induction 1 as [|x l l' _ IH|x y l|l l' l'' _ IH1 _ IH2]; simpl.
  - constructor.
  - destruct (p x); [constructor|]; exact IH.
  - destruct (p x), (p y); try reflexivity; constructor.
  - etransitivity; eassumption.
Qed.

Lemma for_each_ext {A S} (body body' : A -> S -> result S) (l : list A) :
  (forall x s, In x l -> body x s = body' x s) ->
  forall s, for_each body l s = for_each body' l s.
Proof.
  induction l as [|x l IH]; intros Hb s; simpl; [reflexivity|].
  rewrite (Hb x s (or_introl eq_refl)); destruct (body' x s); simpl; [|reflexivity].
  apply IH; intros y s' Hy; apply Hb; right; exact Hy.
Qed.

(** *** The lookup of an account by its name *)

Section Lookup.

Lemma named_accounts (l : list account) :
  Forall (fun a => dget "name" a <> None) l ->
  exists nl, comprehension with_name l = Ok nl
           /\ map (fun na => Some (fst na)) nl = map (dget "name") l.
Proof.
  induction 1 as [|a l Ha _ (nl & Hnl & Hnames)]; simpl.
  - exists []; split; reflexivity.
  - unfold with_name at 1, getitem.
  destruct (dget "name" a) as [n|] eqn:Hn; [|contradiction].
  cbn [bind]; rewrite Hnl; cbn [bind].
  exists ((n, a) :: nl); split; [reflexivity|].
  simpl; rewrite Hnames; reflexivity.
Qed.

Lemma unique_match (nl : list (string * account)) (n : string) :
  NoDup (map (fun na => Some (fst na)) nl) ->
  (List.length (filter (fun na => String.eqb (fst na) n) nl) <= 1)%nat.
Proof.
  induction nl as [|[k a] nl IH]; simpl; intros Hnd; [lia|].
  inversion Hnd as [|? ? Hk Hnd']; subst.
  destruct (String.eqb_spec k n) as [->|Hne]; [|apply IH; exact Hnd'].
  simpl; destruct (filter (fun na => String.eqb (fst na) n) nl) as [|[k' a'] rest] eqn:Hf;
  [simpl; lia|].
  exfalso; apply Hk.
  assert (Hin : In (k', a') (filter (fun na => String.eqb (fst na) n) nl))
  by (rewrite Hf; left; reflexivity).
  apply filter_In in Hin as (Hin & Heq); simpl in Heq.
  apply String.eqb_eq in Heq; subst k'.
  change (Some n) with ((fun na : string * account => Some (fst na)) (n, a')).
  apply in_map; exact Hin.
Qed.

(** With unique names the lookup does not depend on the order of the
  accounts. *)
Lemma find_account_permuted (db db' : BuchfinkDB) (n : string) :
  well_named (accounts db) -> Permutation (accounts db) (accounts db') ->
  find_account db' n = find_account db n.
Proof.
  intros (Hnamed & Hnd) Hp; unfold find_account.
  destruct (named_accounts _ Hnamed) as (nl & Hnl & Hnames).
  rewrite Hnl.
  destruct (comprehension_permuted _ _ _ _ Hp Hnl) as (nl' & Hnl' & Hperm).
  rewrite Hnl'; cbn [bind].
  rewrite <- Hnames in Hnd.
  pose proof (unique_match nl n Hnd) as Hlen.
  pose proof (filter_permuted (fun na => String.eqb (fst na) n) _ _ Hperm) as Hf.
  destruct (filter (fun na => String.eqb (fst na) n) nl) as [|x [|y rest]].
  - apply Permutation_nil in Hf; rewrite Hf; reflexivity.
  - apply Permutation_length_1_inv in Hf; rewrite Hf; reflexivity.
  - simpl in Hlen; lia.
Qed.

End Lookup.

Section PermutedTable.
Context {FVal : Type} `{FValOps FVal}.
Variable env : balances_env FVal.
Implicit Types (s : sums FVal).

Lemma priced_row_same s s' rate a :
  same_totals s s' -> priced_row env s' rate a = priced_row env s rate a.
Proof.
  intros (Hb & Hu); unfold priced_row, getitem, get_default.
  rewrite (Hb a), (Hu a); reflexivity.
Qed.

Lemma table_row_same s s' rate a acc :
  same_totals s s' -> table_row env s' rate a acc = table_row env s rate a acc.
Proof.
  intros (Hb & Hu); unfold table_row, getitem, get_default.
  rewrite (Hb a), (Hu a); reflexivity.
Qed.

Lemma usd_value_sum_permuted s s' :
  well_formed s -> well_formed s' -> same_totals s s' ->
  Permutation (usd_value_sum s) (usd_value_sum s').
Proof.
  intros (_ & Hnd & _) (_ & Hnd' & _) (_ & Hu).
  apply same_entries_perm; assumption.
Qed.

(** Without ties the table is the same. *)
Lemma make_table_no_ties `{!FValOrder} s s' :
  well_formed s -> well_formed s' -> same_totals s s' ->
  no_ties (usd_value_sum s) ->
  make_table env s' = make_table env s.
Proof.
  intros Hwf Hwf' Hsame Hties.
  assert (Hsorted : sorted_desc (usd_value_sum s) = sorted_desc (usd_value_sum s')).
  { apply value_desc_unique.
  - intros p q Hp Hq; apply Hties;
      eapply Permutation_in; try apply sorted_desc_perm; assumption.
  - apply (Permutation_NoDup (Permutation_sym (sorted_desc_perm _))).
    destruct Hwf as (_ & Hnd & _); eapply NoDup_map_inv; exact Hnd.
  - rewrite !sorted_desc_perm; apply usd_value_sum_permuted; assumption.
  - apply sorted_desc_sorted.
  - apply sorted_desc_sorted. }
  unfold make_table.
  destruct (get_main_currency env) as [currency|]; cbn [bind]; [|reflexivity].
  destruct (find_usd_price env currency) as [rate|]; cbn [bind]; [|reflexivity].
  rewrite Hsorted.
  rewrite (for_each_ext (table_row env s' rate) (table_row env s rate));
  [reflexivity|].
  intros a acc _; apply table_row_same; exact Hsame.
Qed.

(** With ties the rows may come in another order; the total stays. *)
Lemma make_table_permuted `{!FValSum} s s' table :
  well_formed s -> well_formed s' -> same_totals s s' ->
  make_table env s = Ok table ->
  exists rows rows' total,
  table = rows ++ [total]
  /\ make_table env s' = Ok (rows' ++ [total])
  /\ Permutation rows rows'.
Proof.
  intros Hwf Hwf' Hsame Ht.
  apply make_table_rows in Ht as (currency & rate & rvs & Hc & Hr & Hrvs & ->).
  assert (Hp : Permutation (map fst (sorted_desc (usd_value_sum s)))
                         (map fst (sorted_desc (usd_value_sum s')))).
  { apply Permutation_map; rewrite !sorted_desc_perm.
  apply usd_value_sum_permuted; assumption. }
  destruct (comprehension_permuted _ _ _ _ Hp Hrvs) as (rvs' & Hrvs' & Hperm).
  exists (map fst rvs), (map fst rvs'),
  (total_row (fold_left fadd (map snd rvs) fzero)).
  split; [reflexivity|]; split; [|apply Permutation_map, Hperm].
  apply make_table_rows; exists currency, rate, rvs'; repeat split; auto.
  - rewrite <- Hrvs'; apply comprehension_ext.
  intros a _; apply priced_row_same; exact Hsame.
  - rewrite (fold_fadd_permuted _ _ (Permutation_map snd Hperm)); reflexivity.
Qed.

Lemma get_exchange_permuted (db db' : BuchfinkDB) (n : string) :
  well_named (accounts db) -> Permutation (accounts db) (accounts db') ->
  get_exchange db' n = get_exchange db n.
Proof.
  intros Hn Hp; unfold get_exchange.
  rewrite (find_account_permuted db db' n Hn Hp); reflexivity.
Qed.

Lemma balances_account_permuted (db db' : BuchfinkDB) keyword acct s :
  well_named (accounts db) -> Permutation (accounts db) (accounts db') ->
  balances_account env db' keyword acct s = balances_account env db keyword acct s.
Proof.
  intros Hn Hp; unfold balances_account, exchange_branch.
  destruct (match keyword with
          | None => Ok false
          | Some k => name <- getitem acct "name" ;; Ok (negb (str_contains k name))
          end) as [[|]|]; cbn [bind]; try reflexivity.
  destruct (contains_key "exchange" acct); [|reflexivity].
  destruct (getitem acct "name") as [name|]; cbn [bind]; [|reflexivity].
  rewrite (get_exchange_permuted db db' name Hn Hp); reflexivity.
Qed.

End PermutedTable.

(** C5, as the code has it: with account names unique, processing the
    accounts in another order gives the same quantity and value total for
    every asset, the same rows and the same Total row; the rows come in
    the same order when no two assets have the same value total, and
    otherwise may come in another order. *)
Theorem balances_accounts_permuted
        {FVal : Type} `{FValOps FVal} `{!FValOrder} `{!FValSum}
        (env : balances_env FVal) (db db' : BuchfinkDB)
        (keyword : option string) (table : list (row FVal))
        (lg : list log_entry) :
  well_named (accounts db) ->
  Permutation (accounts db) (accounts db') ->
  balances env db keyword = Ok (table, lg) ->
  exists s s' rows rows' total lg',
    balances_accumulate env db keyword = Ok s
    /\ balances_accumulate env db' keyword = Ok s'
    /\ same_totals s s'
    /\ table = rows ++ [total]
    /\ balances env db' keyword = Ok (rows' ++ [total], lg')
    /\ Permutation rows rows'
    /\ (no_ties (usd_value_sum s) -> rows' = rows).
Proof.
  intros Hn Hp Hb; unfold balances in Hb.
  apply bind_ok in Hb as (s & Hs & Hb).
  apply bind_ok in Hb as (t & Ht & [= <- <-]).
  assert (Hs' : exists s', balances_accumulate env db' keyword = Ok s'
                           /\ same_totals s s').
  { unfold balances_accumulate, get_all_accounts in *.
    rewrite (for_each_ext (balances_account env db' keyword)
                          (balances_account env db keyword));
      [|intros a s0 _; apply balances_account_permuted; assumption].
    eapply loop_permuted; [apply balances_account_uniform | exact Hp
                          | apply same_totals_refl | exact Hs]. }
  destruct Hs' as (s' & Hs' & Hsame).
  pose proof (balances_accumulate_well_formed _ _ _ _ Hs) as Hwf.
  pose proof (balances_accumulate_well_formed _ _ _ _ Hs') as Hwf'.
  destruct (make_table_permuted env s s' t Hwf Hwf' Hsame Ht)
    as (rows & rows' & total & -> & Ht' & Hperm).
  exists s, s', rows, rows', total, (log s').
  split; [exact Hs|]. split; [exact Hs'|]. split; [exact Hsame|].
  split; [reflexivity|].
  split; [unfold balances; rewrite Hs'; cbn [bind]; rewrite Ht'; reflexivity|].
  split; [exact Hperm|].
  intros Hties.
  rewrite (make_table_no_ties env s s' Hwf Hwf' Hsame Hties), Ht in Ht'.
  injection Ht' as Ht'; apply app_inv_tail in Ht'; symmetry; exact Ht'.
Qed.

Lemma balances_accounts_permuted_witness :
  exists s s',
    balances_accumulate Scenario.market
      (Scenario.db_of [Scenario.kraken1; Scenario.wallet1]) None = Ok s
    /\ balances_accumulate Scenario.market
         (Scenario.db_of [Scenario.wallet1; Scenario.kraken1]) None = Ok s'
    /\ same_totals s s'.
Proof.
  assert (Hn : well_named (accounts (Scenario.db_of [Scenario.kraken1; Scenario.wallet1]))).
  { split; simpl.
    - repeat constructor; discriminate.
    - repeat constructor; simpl; intuition discriminate. }
  destruct (balances_accounts_permuted (H := ExactDecimal.ops)
              Scenario.market
              (Scenario.db_of [Scenario.kraken1; Scenario.wallet1])
              (Scenario.db_of [Scenario.wallet1; Scenario.kraken1])
              None _ _ Hn (perm_swap _ _ _) eq_refl)
    as (s & s' & _ & _ & _ & _ & Hs & Hs' & Hsame & _).
  exists s, s'; split; [exact Hs | split; [exact Hs' | exact Hsame]].
Defined.

(** C5 as the specification words it fails: two wallets whose assets are
    worth the same give the rows ETH, DAI in one order of the accounts and
    DAI, ETH in the other. *)
Lemma tied_rows_follow_account_order :
  Permutation [Scenario.wallet1; Scenario.wallet2]
              [Scenario.wallet2; Scenario.wallet1]
  /\ exists t1 t2 lg1 lg2,
      balances Scenario.market
        (Scenario.db_of [Scenario.wallet1; Scenario.wallet2]) None = Ok (t1, lg1)
      /\ balances Scenario.market
           (Scenario.db_of [Scenario.wallet2; Scenario.wallet1]) None = Ok (t2, lg2)
      /\ map row_label_of t1 = [Row_asset "ETH"; Row_asset "DAI"; Row_total]
      /\ map row_label_of t2 = [Row_asset "DAI"; Row_asset "ETH"; Row_total]
      /\ t1 <> t2.
Proof.
  split; [apply perm_swap|].
  eexists; eexists; eexists; eexists.
  split; [vm_compute; reflexivity|].
  split; [vm_compute; reflexivity|].
  split; [reflexivity|].
  split; [reflexivity|].
  discriminate.
Qed.

(** ** An account that fails (C2) *)

Lemma for_each_middle {A S} (body : A -> S -> result S) (l1 l2 : list A)
      (x : A) (f : S -> S) :
  (forall s, body x s = Ok (f s)) ->
  forall s, for_each body (l1 ++ x :: l2) s
            = (s1 <- for_each body l1 s ;; for_each body l2 (f s1)).
Proof.
  intros Hx s; rewrite for_each_app.
  destruct (for_each body l1 s) as [s1|e]; cbn [bind for_each]; [|reflexivity].
  rewrite Hx; reflexivity.
Qed.

Lemma keyword_passes (keyword : option string) (acct : account) (name : string) :
  getitem acct "name" = Ok name ->
  (forall k, keyword = Some k -> str_contains k name = true) ->
  match keyword with
  | None => Ok false
  | Some k => n <- getitem acct "name" ;; Ok (negb (str_contains k n))
  end = Ok false.
Proof.
  intros Hname Hk; destruct keyword as [k|]; [|reflexivity].
  rewrite Hname; cbn [bind]; rewrite (Hk k eq_refl); reflexivity.
Qed.

(** C2, as the code has it: an exchange account whose API key is not valid
    is logged and skipped by [balances] and by [fetch], and one whose
    balance query reports an error is skipped by [balances]; the loop goes
    on with the accounts behind it from the state the accounts in front of
    it produced.  (A failure that is raised as an exception is not among
    these cases.) *)
Theorem failed_exchange_is_skipped
        {FVal : Type} `{FValOps FVal}
        (benv : balances_env FVal) (fenv : Ledger.fetch_env) (db : BuchfinkDB)
        (keyword : option string) (front behind : list account)
        (acct : account) (name : string) (ex : exchange) :
  accounts db = front ++ acct :: behind ->
  getitem acct "name" = Ok name ->
  contains_key "exchange" acct = true ->
  (forall k, keyword = Some k -> str_contains k name = true) ->
  get_exchange db name = Ok ex ->
  (forall error,
      validate_api_key benv ex = Ok (false, error) ->
      balances_accumulate benv db keyword
      = (s1 <- for_each (balances_account benv db keyword) front empty_sums ;;
         for_each (balances_account benv db keyword) behind
                  (write_log (Critical_skipping name error) s1)))
  /\ (forall note bal error,
         validate_api_key benv ex = Ok (true, note) ->
         query_balances benv ex = Ok (bal, error) ->
         error <> "" ->
         balances_accumulate benv db keyword
         = (s1 <- for_each (balances_account benv db keyword) front empty_sums ;;
            for_each (balances_account benv db keyword) behind s1))
  /\ (forall error st,
         Ledger.fetch_validate_api_key fenv ex = Ok (false, error) ->
         Ledger.fetch fenv db keyword st
         = (st1 <- for_each (Ledger.fetch_account fenv db keyword) front st ;;
            for_each (Ledger.fetch_account fenv db keyword) behind
                     (Ledger.say (Critical_skipping name error)
                                 (Ledger.say (Echo_fetching name) st1)))).
Proof.
  intros Haccts Hname Hexch Hkw Hex.
  pose proof (keyword_passes keyword acct name Hname Hkw) as Hpass.
  split; [|split].
  - intros error Hval; unfold balances_accumulate, get_all_accounts.
    rewrite Haccts; apply for_each_middle; intros s.
    unfold balances_account; rewrite Hpass; cbn [bind]; rewrite Hexch.
    unfold exchange_branch; rewrite Hname; cbn [bind]; rewrite Hex; cbn [bind].
    rewrite Hval; reflexivity.
  - intros note bal error Hval Hq Herr; unfold balances_accumulate, get_all_accounts.
    rewrite Haccts.
    apply (for_each_middle (balances_account benv db keyword) front behind acct
                           (fun s => s)); intros s.
    unfold balances_account; rewrite Hpass; cbn [bind]; rewrite Hexch.
    unfold exchange_branch; rewrite Hname; cbn [bind]; rewrite Hex; cbn [bind].
    rewrite Hval; cbn [bind negb]; rewrite Hq; cbn [bind].
    destruct (String.eqb_spec error ""); [contradiction | reflexivity].
  - intros error st Hval; unfold Ledger.fetch, get_all_accounts.
    rewrite Haccts; apply for_each_middle; intros s.
    unfold Ledger.fetch_account; rewrite Hpass; cbn [bind]; rewrite Hexch.
    cbn [negb]; rewrite Hname; cbn [bind]; rewrite Hex; cbn [bind].
    rewrite Hval; reflexivity.
Qed.

Lemma failed_exchange_is_skipped_witness :
  balances_accumulate Scenario.market_bad_key
    (Scenario.db_of [Scenario.kraken1; Scenario.wallet1]) None
  = for_each (balances_account Scenario.market_bad_key
                (Scenario.db_of [Scenario.kraken1; Scenario.wallet1]) None)
             [Scenario.wallet1]
             (write_log (Critical_skipping "kraken1" "Invalid key") empty_sums).
Proof.
  exact (proj1 (failed_exchange_is_skipped (H := ExactDecimal.ops)
                  Scenario.market_bad_key Scenario.exchange_bad_key
                  (Scenario.db_of [Scenario.kraken1; Scenario.wallet1]) None
                  [] [Scenario.wallet1] Scenario.kraken1 "kraken1"
                  Scenario.kraken_client
                  eq_refl eq_refl eq_refl
                  (fun k (Hk : None = Some k) =>
                     match Hk in _ = o
                           return match o with
                                  | Some k' => str_contains k' "kraken1" = true
                                  | None => True
                                  end
                     with eq_refl => I end)
                  eq_refl)
               "Invalid key" eq_refl).
Defined.

(** C2 as the specification words it fails: a file account whose file
    cannot be opened stops [balances] with the exception, although the
    wallet behind it could have been shown; and an exchange that raises
    while its trades are fetched stops [fetch]. *)
Lemma unreachable_source_aborts_the_run :
  balances Scenario.market (Scenario.db_of [Scenario.cold; Scenario.wallet1]) None
  = Raise (FileNotFoundError "cold.yaml")
  /\ is_ok (balances Scenario.market (Scenario.db_of [Scenario.wallet1]) None) = true
  /\ Ledger.fetch Scenario.exchange_down
       (Scenario.db_of [Scenario.kraken1; Scenario.wallet1]) None Scenario.no_files
     = Raise (Raised "RemoteError").
Proof.
  split; [vm_compute; reflexivity|].
  split; vm_compute; reflexivity.
Qed.

(** ** What the accumulators hold *)

Section Sums.
Context {FVal : Type} `{FValOps FVal}.

Lemma get_default_add_pair (d : dict FVal) (kv : Asset * FVal) (a : Asset) :
  get_default (add_pair d kv) a fzero
  = if String.eqb a (fst kv) then fadd (get_default d (fst kv) fzero) (snd kv)
    else get_default d a fzero.
Proof.
  unfold add_pair, add_to; unfold get_default at 1; rewrite dget_dset.
  destruct (String.eqb a (fst kv)); reflexivity.
Qed.

(** After a list of additions an asset's total is its old total plus its
    amounts, added in order. *)
Lemma add_pairs_total (l : list (Asset * FVal)) (d : dict FVal) (a : Asset) :
  get_default (fold_left add_pair l d) a fzero
  = fold_left fadd (amounts_for a l) (get_default d a fzero).
Proof.
  revert d; induction l as [|kv l IH]; intros d; simpl; [reflexivity|].
  rewrite IH, get_default_add_pair; unfold amounts_for, Asset in *; simpl.
  rewrite (String.eqb_sym a (fst kv)).
  destruct (String.eqb_spec (fst kv) a) as [->|]; reflexivity.
Qed.

(** An asset without an amount in the list keeps its entry, or the lack of
    one. *)
Lemma add_pairs_untouched (l : list (Asset * FVal)) (d : dict FVal) (a : Asset) :
  amounts_for a l = [] -> dget a (fold_left add_pair l d) = dget a d.
Proof.
  revert d; induction l as [|kv l IH]; intros d; unfold amounts_for, Asset in *;
    simpl; [reflexivity|].
  destruct (String.eqb_spec (fst kv) a) as [Heq|Hne]; simpl; [discriminate|].
  intros Hl; rewrite (IH _ Hl); unfold add_pair, add_to; rewrite dget_dset.
  match goal with
  | |- context [String.eqb ?x ?y] => destruct (String.eqb_spec x y) as [Heq|]
  end; [exfalso; apply Hne; symmetry; exact Heq | reflexivity].
Qed.

Lemma flat_map_value_of_priced (l : list (entry FVal)) (f : entry FVal -> Asset * FVal) :
  (forall e, In e l -> value_of e = [f e]) -> flat_map value_of l = map f l.
Proof.
  induction l as [|e l IH]; intros Hl; simpl; [reflexivity|].
  rewrite (Hl e (or_introl eq_refl)), IH; [reflexivity|].
  intros e' He'; apply Hl; right; exact He'.
Qed.

Lemma amounts_for_absent {B} (a : Asset) (g : Asset * B -> FVal)
      (l : list (Asset * B)) :
  ~ In a (map fst l) -> amounts_for a (map (fun i => (fst i, g i)) l) = [].
Proof.
  unfold amounts_for; induction l as [|i l IH]; simpl; intros Ha; [reflexivity|].
  match goal with
  | |- context [String.eqb ?x ?y] => destruct (String.eqb_spec x y) as [Heq|]
  end.
  - exfalso; apply Ha; left; exact Heq.
  - apply IH; intros Hin; apply Ha; right; exact Hin.
Qed.

Lemma amounts_for_same_key {B} (a : Asset) (g : B -> FVal) (l : list B) :
  amounts_for a (map (fun x => (a, g x)) l) = map g l.
Proof.
  unfold amounts_for; induction l as [|x l IH]; simpl; [reflexivity|].
  rewrite String.eqb_refl; simpl; rewrite IH; reflexivity.
Qed.

Lemma amounts_for_other_key {B} (a k : Asset) (g : B -> FVal) (l : list B) :
  a <> k -> amounts_for a (map (fun x => (k, g x)) l) = [].
Proof.
  intros Hne; unfold amounts_for; induction l as [|x l IH]; simpl; [reflexivity|].
  destruct (String.eqb_spec k a) as [Heq|_]; [congruence | exact IH].
Qed.

End Sums.

(** ** A balance without a price (C1) *)

Lemma forall2_transfer {A B} (f g : A -> result B) (R : B -> B -> Prop)
      (l : list A) (ys : list B) :
  (forall a y, In a l -> f a = Ok y -> exists y', g a = Ok y' /\ R y y') ->
  Forall2 (fun a y => f a = Ok y) l ys ->
  exists ys', Forall2 (fun a y => g a = Ok y) l ys' /\ Forall2 R ys ys'.
Proof.
  intros Hfg Hl; induction Hl as [|a y l ys Hy _ IH].
  - exists []; split; constructor.
  - destruct (Hfg a y (or_introl eq_refl) Hy) as (y' & Hy' & Hr).
    destruct IH as (ys' & Hys' & Hrs);
      [intros b z Hb; apply Hfg; right; exact Hb|].
    exists (y' :: ys'); split; constructor; assumption.
Qed.

Lemma forall2_map_eq {A B C} (R : A -> B -> Prop) (f : A -> C) (g : B -> C)
      (l : list A) (l' : list B) :
  (forall a b, R a b -> f a = g b) -> Forall2 R l l' -> map f l = map g l'.
Proof.
  intros Hfg Hl; induction Hl as [|a b l l' Hab _ IH]; simpl; [reflexivity|].
  rewrite (Hfg a b Hab), IH; reflexivity.
Qed.

Lemma comprehension_aborts {A B} (f : A -> result B) (l : list A) (x : A) (e : exn) :
  In x l -> f x = Raise e -> exists e', comprehension f l = Raise e'.
Proof.
  induction l as [|y l IH]; intros Hin Hx; [destruct Hin|]; simpl.
  destruct Hin as [->|Hin].
  - rewrite Hx; eexists; reflexivity.
  - destruct (f y); cbn [bind]; [|eexists; reflexivity].
    destruct (IH Hin Hx) as (e' & ->); eexists; reflexivity.
Qed.

Lemma for_each_simulation {A S} (R : S -> S -> Prop)
      (f g : A -> S -> result S) (l : list A) :
  (forall x s s' s1', In x l -> R s s' -> g x s' = Ok s1' ->
                      exists s1, f x s = Ok s1 /\ R s1 s1') ->
  forall s s' t', R s s' -> for_each g l s' = Ok t' ->
                  exists t, for_each f l s = Ok t /\ R t t'.
Proof.
  induction l as [|x l IH]; intros Hstep s s' t' Hs Hrun; simpl in *.
  - injection Hrun as <-; eauto.
  - apply bind_ok in Hrun as (s1' & Hx & Hrun).
    destruct (Hstep x s s' s1' (or_introl eq_refl) Hs Hx) as (s1 & -> & Hs1).
    cbn [bind].
    exact (IH (fun y u u' u1' Hy => Hstep y u u' u1' (or_intror Hy))
              s1 s1' t' Hs1 Hrun).
Qed.

Section Unpriced.
Context {FVal : Type} `{FValOps FVal}.
Implicit Types (s : sums FVal).

Lemma same_values_accumulate a q u s s' :
  same_values s s' -> same_values (accumulate a q u s) (accumulate a q u s').
Proof.
  intros [Hu Hq]; split; simpl.
  - rewrite Hu; reflexivity.
  - intros k; unfold add_to; rewrite !dget_dset.
    destruct (String.eqb k a); [intros _; discriminate | apply Hq].
Qed.

Lemma same_values_unpriced a q s s' :
  same_values s s' -> same_values (accumulate a q None s) s'.
Proof.
  intros [Hu Hq]; split; simpl; [exact Hu|].
  intros k Hk; unfold add_to; rewrite dget_dset.
  destruct (String.eqb k a); [discriminate | apply Hq, Hk].
Qed.

Lemma same_values_apply_entries (es : list (entry FVal)) s s' :
  same_values s s' -> same_values (apply_entries es s) (apply_entries es s').
Proof.
  unfold apply_entries; revert s s'; induction es as [|e es IH];
    intros s s' Hs; simpl; [exact Hs|].
  apply IH, same_values_accumulate, Hs.
Qed.

Lemma same_values_absorb (c : contribution FVal) s s' s1' :
  same_values s s' -> absorb c s' = Ok s1' ->
  exists s1, absorb c s = Ok s1 /\ same_values s1 s1'.
Proof.
  unfold absorb; intros Hs Hc; apply bind_ok in Hc as (p & Hp & [= <-]).
  rewrite Hp; cbn [bind]; eexists; split; [reflexivity|].
  apply same_values_apply_entries; exact Hs.
Qed.

(** The loop over an exchange's balances goes through with the unpriced
    balances when it goes through without them, and leaves the same
    value totals. *)
Lemma exchange_items_unpriced (items : list (Asset * exchange_balance FVal))
      s s' s1' :
  (forall item, In item items ->
                eb_usd_value (snd item) = None -> eb_amount (snd item) <> None) ->
  same_values s s' ->
  for_each exchange_item (filter is_priced items) s' = Ok s1' ->
  exists s1, for_each exchange_item items s = Ok s1 /\ same_values s1 s1'.
Proof.
  revert s s'; induction items as [|item items IH]; intros s s' Hamt Hs Hrun.
  - injection Hrun as <-; exists s; split; [reflexivity | exact Hs].
  - cbn [filter] in Hrun; cbn [for_each]; unfold is_priced in Hrun at 1.
    unfold exchange_item at 1.
    destruct (eb_usd_value (snd item)) as [v|] eqn:Hv.
    + cbn [for_each] in Hrun; apply bind_ok in Hrun as (s2' & Hitem & Hrun).
      unfold exchange_item in Hitem; rewrite Hv in Hitem.
      destruct (eb_amount (snd item)) as [q|]; [|discriminate].
      injection Hitem as <-; cbn [bind].
      exact (IH _ _ (fun i Hi => Hamt i (or_intror Hi))
                (same_values_accumulate _ _ _ _ _ Hs) Hrun).
    + destruct (eb_amount (snd item)) as [q|] eqn:Hq.
      * cbn [bind].
        exact (IH _ _ (fun i Hi => Hamt i (or_intror Hi))
                  (same_values_unpriced _ _ _ _ Hs) Hrun).
      * exfalso; exact (Hamt item (or_introl eq_refl) Hv Hq).
Qed.

Lemma quantities_of_entries (items : list (Asset * exchange_balance FVal))
      (es : list (entry FVal)) :
  comprehension exchange_entry items = Ok es ->
  map quantity_of es = quantities items /\ map fst (quantities items) = map fst items.
Proof.
  revert es; induction items as [|item items IH]; intros es Hes; simpl in Hes.
  - injection Hes as <-; split; reflexivity.
  - apply bind_ok in Hes as (e & He & Hes).
    apply bind_ok in Hes as (es' & Hes' & [= <-]).
    destruct (IH es' Hes') as (IH1 & IH2).
    unfold exchange_entry in He; unfold quantities; cbn [flat_map map].
    destruct (eb_amount (snd item)) as [q|]; [|discriminate].
    injection He as <-; cbn [app map fst]; split; f_equal; assumption.
Qed.

Lemma add_pairs_keeps (l : list (Asset * FVal)) (d : dict FVal) (a : Asset) :
  dget a d <> None -> dget a (fold_left add_pair l d) <> None.
Proof.
  revert d; induction l as [|kv l IH]; intros d Hd; simpl; [exact Hd|].
  apply IH; unfold add_pair, add_to; rewrite dget_dset.
  destruct (String.eqb a (fst kv)); [discriminate | exact Hd].
Qed.

Lemma add_pairs_has (l : list (Asset * FVal)) (d : dict FVal) (a : Asset) :
  In a (map fst l) -> dget a (fold_left add_pair l d) <> None.
Proof.
  revert d; induction l as [|kv l IH]; intros d Ha; simpl in *; [contradiction|].
  destruct Ha as [Ha|Ha]; [|apply IH, Ha].
  apply add_pairs_keeps; unfold add_pair, add_to; rewrite dget_dset, Ha.
  rewrite String.eqb_refl; discriminate.
Qed.

Lemma absorb_keeps_quantities (c : contribution FVal) s s1 (a : Asset) :
  absorb c s = Ok s1 -> dget a (balances_sum s) <> None ->
  dget a (balances_sum s1) <> None.
Proof.
  unfold absorb; intros Hc Ha; apply bind_ok in Hc as (p & _ & [= <-]).
  rewrite balances_sum_apply_entries; apply add_pairs_keeps; exact Ha.
Qed.

Variables (env : balances_env FVal) (db : BuchfinkDB).

Lemma make_table_same_values s s' table' :
  same_values s s' -> make_table env s' = Ok table' ->
  exists table,
    make_table env s = Ok table
    /\ map row_label_of table = map row_label_of table'
    /\ map row_value table = map row_value table'.
Proof.
  intros [Hu Hq] Ht.
  apply make_table_rows in Ht as (currency & rate & rvs & Hc & Hr & Hrvs & ->).
  apply comprehension_forall2 in Hrvs.
  apply (forall2_transfer _ (priced_row env s rate)
           (fun rv rv' => row_label_of (fst rv') = row_label_of (fst rv)
                          /\ row_value (fst rv') = row_value (fst rv)
                          /\ snd rv' = snd rv)) in Hrvs
    as (rvs' & Hrvs' & Hrel).
  - exists (map fst rvs' ++ [total_row (fold_left fadd (map snd rvs') fzero)]).
    split.
    + apply make_table_rows; exists currency, rate, rvs'; repeat split; auto.
      rewrite Hu; apply forall2_comprehension; exact Hrvs'.
    + assert (Hsnd : map snd rvs' = map snd rvs).
      { symmetry; apply (forall2_map_eq _ _ _ _ _
                           (fun a b Hab => eq_sym (proj2 (proj2 Hab))) Hrel). }
      rewrite !map_app, Hsnd; split; f_equal; rewrite !map_map.
      * symmetry; apply (forall2_map_eq _ _ _ _ _
                           (fun a b Hab => eq_sym (proj1 Hab)) Hrel).
      * symmetry; apply (forall2_map_eq _ _ _ _ _
                           (fun a b Hab => eq_sym (proj1 (proj2 Hab))) Hrel).
  - intros a [r v] _ Hp; unfold priced_row, getitem in *; rewrite Hu.
    specialize (Hq a).
    destruct (dget a (balances_sum s')) as [b'|]; [|discriminate].
    destruct (dget a (balances_sum s)) as [b|];
      [|exfalso; apply Hq; [discriminate | reflexivity]].
    cbn [bind] in *; apply bind_ok in Hp as (v' & Hv & [= <- <-]).
    rewrite Hv; cbn [bind]; eexists; split; [reflexivity|].
    simpl; auto.
Qed.

Hypothesis unpriced_have_amounts :
  forall ex bal error item,
    query_balances env ex = Ok (bal, error) -> In item bal ->
    eb_usd_value (snd item) = None -> eb_amount (snd item) <> None.

(** An account goes through with the unpriced balances when it goes
    through without them. *)
Lemma balances_account_unpriced keyword acct s s' s1' :
  same_values s s' ->
  balances_account (drop_unpriced env) db keyword acct s' = Ok s1' ->
  exists s1, balances_account env db keyword acct s = Ok s1 /\ same_values s1 s1'.
Proof.
  intros Hs; unfold balances_account.
  destruct (match keyword with
            | None => Ok false
            | Some k => name <- getitem acct "name" ;; Ok (negb (str_contains k name))
            end) as [filtered|e]; cbn [bind]; [|discriminate].
  destruct filtered; [intros [= <-]; exists s; split; [reflexivity | exact Hs]|].
  destruct (contains_key "exchange" acct).
  { unfold exchange_branch.
    destruct (getitem acct "name") as [name|e]; cbn [bind]; [|discriminate].
    destruct (get_exchange db name) as [ex|e]; cbn [bind]; [|discriminate].
    cbn [drop_unpriced validate_api_key query_balances].
    destruct (validate_api_key env ex) as [[valid err]|e]; cbn [bind];
      [|discriminate].
    destruct valid; cbn [negb];
      [|intros [= <-]; eexists; split; [reflexivity | exact Hs]].
    destruct (query_balances env ex) as [[bal err2]|e] eqn:Hq; cbn [bind];
      [|discriminate].
    destruct (String.eqb err2 "");
      [|intros [= <-]; exists s; split; [reflexivity | exact Hs]].
    apply exchange_items_unpriced;
      [intros item; exact (unpriced_have_amounts ex bal err2 item Hq) | exact Hs]. }
  destruct (contains_key "ethereum" acct).
  { change (ethereum_branch (drop_unpriced env) acct s')
      with (ethereum_branch env acct s').
    destruct (ethereum_branch_uniform env acct) as (c & Hc); rewrite !Hc.
    apply same_values_absorb, Hs. }
  destruct (contains_key "bitcoin" acct).
  { change (bitcoin_branch (drop_unpriced env) acct s')
      with (bitcoin_branch env acct s').
    destruct (bitcoin_branch_uniform env acct) as (c & Hc); rewrite !Hc.
    apply same_values_absorb, Hs. }
  destruct (contains_key "file" acct).
  { change (file_branch (drop_unpriced env) acct s')
      with (file_branch env acct s').
    destruct (file_branch_uniform env acct) as (c & Hc); rewrite !Hc.
    apply same_values_absorb, Hs. }
  intros [= <-]; exists s; split; [reflexivity | exact Hs].
Qed.

Lemma balances_accumulate_unpriced keyword s' :
  balances_accumulate (drop_unpriced env) db keyword = Ok s' ->
  exists s, balances_accumulate env db keyword = Ok s /\ same_values s s'.
Proof.
  unfold balances_accumulate.
  apply (for_each_simulation same_values).
  - intros acct s0 s0' s1' _; apply balances_account_unpriced.
  - split; [reflexivity | intros a Ha; exact Ha].
Qed.

End Unpriced.

(** C1, as the code has it.  An exchange balance that has an amount but
    no [usd_value] does not stop [balances]: when the command returns a
    table without the unpriced balances, it returns one with them, with
    the same rows in the same order and the same value column, the Total
    included; the value totals are the same.  The unpriced amounts are in
    the quantity totals: behind the exchange account every asset of its
    answer has a quantity total, which is the total before plus the
    asset's amounts in the answer, and it still has one at the end (but a
    row only if some balance gave it a value).  A price that the inquirer
    cannot give for an entry of a file account is another matter: it ends
    the command with the exception. *)
Theorem unpriced_balance_degrades_value_only
        {FVal : Type} `{FValOps FVal}
        (env : balances_env FVal) (db : BuchfinkDB) (keyword : option string) :
  (forall ex bal error item,
      query_balances env ex = Ok (bal, error) -> In item bal ->
      eb_usd_value (snd item) = None -> eb_amount (snd item) <> None) ->
  (forall table' lg',
      balances (drop_unpriced env) db keyword = Ok (table', lg') ->
      exists table lg,
        balances env db keyword = Ok (table, lg)
        /\ map row_label_of table = map row_label_of table'
        /\ map row_value table = map row_value table')
  /\ (forall s',
         balances_accumulate (drop_unpriced env) db keyword = Ok s' ->
         exists s,
           balances_accumulate env db keyword = Ok s
           /\ usd_value_sum s = usd_value_sum s')
  /\ (forall front behind acct name ex note bal s,
         accounts db = front ++ acct :: behind ->
         getitem acct "name" = Ok name ->
         (forall k, keyword = Some k -> str_contains k name = true) ->
         contains_key "exchange" acct = true ->
         get_exchange db name = Ok ex ->
         validate_api_key env ex = Ok (true, note) ->
         query_balances env ex = Ok (bal, "") ->
         balances_accumulate env db keyword = Ok s ->
         exists s0 s1,
           for_each (balances_account env db keyword) front empty_sums = Ok s0
           /\ exchange_branch env db acct s0 = Ok s1
           /\ for_each (balances_account env db keyword) behind s1 = Ok s
           /\ (forall X,
                  get_default (balances_sum s1) X fzero
                  = fold_left fadd (amounts_for X (quantities bal))
                              (get_default (balances_sum s0) X fzero))
           /\ (forall X, In X (map fst bal) ->
                         exists total, dget X (balances_sum s) = Some total))
  /\ (forall acct name path doc items item e,
         In acct (accounts db) ->
         getitem acct "name" = Ok name ->
         (forall k, keyword = Some k -> str_contains k name = true) ->
         contains_key "exchange" acct = false ->
         contains_key "ethereum" acct = false ->
         contains_key "bitcoin" acct = false ->
         getitem acct "file" = Ok path ->
         load_yaml (files env) path = Ok (YMap doc) ->
         dget "balances" doc = Some (YSeq items) ->
         In item items ->
         file_entry env item = Raise e ->
         exists e', balances env db keyword = Raise e').
Proof.
  intros Hamt; split; [|split; [|split]].
  - intros table' lg' Hb; unfold balances in *.
    apply bind_ok in Hb as (s' & Hacc & Hb).
    apply bind_ok in Hb as (t' & Ht & [= <- <-]).
    destruct (balances_accumulate_unpriced env db Hamt keyword s' Hacc)
      as (s & -> & Hs); cbn [bind].
    destruct (make_table_same_values env s s' t' Hs Ht) as (table & -> & Hl & Hv).
    cbn [bind]; exists table, (log s); auto.
  - intros s' Hacc.
    destruct (balances_accumulate_unpriced env db Hamt keyword s' Hacc)
      as (s & Hs & Hu & _).
    exists s; split; [exact Hs | exact Hu].
  - intros front behind acct name ex note bal s Haccts Hname Hkw Hexch Hex
           Hval Hq Hrun.
    pose proof (keyword_passes keyword acct name Hname Hkw) as Hpass.
    unfold balances_accumulate, get_all_accounts in Hrun; rewrite Haccts in Hrun.
    rewrite for_each_app in Hrun; apply bind_ok in Hrun as (s0 & Hfront & Hrun).
    cbn [for_each] in Hrun; apply bind_ok in Hrun as (s1 & Hstep & Hbehind).
    unfold balances_account in Hstep; rewrite Hpass in Hstep.
    cbn [bind] in Hstep; rewrite Hexch in Hstep.
    exists s0, s1; split; [exact Hfront|]; split; [exact Hstep|].
    split; [exact Hbehind|].
    unfold exchange_branch in Hstep; rewrite Hname in Hstep; cbn [bind] in Hstep.
    rewrite Hex in Hstep; cbn [bind] in Hstep.
    rewrite Hval in Hstep; cbn [bind negb] in Hstep.
    rewrite Hq in Hstep; cbn [bind String.eqb] in Hstep.
    rewrite exchange_items_fold in Hstep.
    apply bind_ok in Hstep as (es & Hes & [= <-]).
    destruct (quantities_of_entries bal es Hes) as (Hqs & Hkeys).
    split.
    + intros X; rewrite balances_sum_apply_entries, Hqs, add_pairs_total.
      reflexivity.
    + intros X HX.
      assert (Hhas : dget X (balances_sum s) <> None).
      { refine (for_each_invariant
                  (fun t => dget X (balances_sum t) <> None)
                  (balances_account env db keyword) _ behind _ s _ Hbehind).
        - intros a t t' Ht Ha.
          destruct (balances_account_uniform env db keyword a) as (c & Hc).
          rewrite Hc in Ha; exact (absorb_keeps_quantities c t t' X Ha Ht).
        - rewrite balances_sum_apply_entries, Hqs.
          apply add_pairs_has; rewrite Hkeys; exact HX. }
      destruct (dget X (balances_sum s)) as [total|];
        [exists total; reflexivity | contradiction].
  - intros acct name path doc items item e Hin Hname Hkw Hexch Heth Hbtc
           Hpath Hdoc Hitems Hitem He.
    pose proof (keyword_passes keyword acct name Hname Hkw) as Hpass.
    assert (Hfile : contains_key "file" acct = true).
    { unfold getitem in Hpath; unfold contains_key.
      destruct (dget "file" acct); [reflexivity | discriminate]. }
    unfold balances, balances_accumulate, get_all_accounts.
    destruct (for_each_aborts (balances_account env db keyword) (accounts db)
                              acct Hin) with (s := empty_sums (FVal := FVal))
      as (e' & He').
    + intros s; unfold balances_account; rewrite Hpass; cbn [bind].
      rewrite Hexch, Heth, Hbtc, Hfile.
      unfold file_branch; rewrite Hpath; cbn [bind]; rewrite Hdoc.
      cbn [bind yaml_contains]; unfold contains_key; rewrite Hitems.
      cbn [bind yaml_getitem]; unfold getitem; rewrite Hitems.
      cbn [bind yaml_iter]; rewrite file_items_fold.
      destruct (comprehension_aborts _ _ _ _ Hitem He) as (e' & ->).
      eexists; reflexivity.
    + exists e'; rewrite He'; reflexivity.
Qed.

Lemma unpriced_balance_degrades_value_only_witness :
  exists table lg,
    balances Scenario.market
      (Scenario.db_of [Scenario.kraken1; Scenario.wallet1]) None = Ok (table, lg)
    /\ map row_label_of table = [Row_asset "BTC"; Row_asset "ETH"; Row_total]
    /\ map row_value table
       = [ExactDecimal.Rounded 30000; ExactDecimal.Rounded 100;
          ExactDecimal.Rounded 30100].
Proof.
  assert (Hamt : forall ex bal error item,
             query_balances Scenario.market ex = Ok (bal, error) -> In item bal ->
             eb_usd_value (snd item) = None -> eb_amount (snd item) <> None).
  { intros ex bal error item Hq; injection Hq as <- _.
    intros [<-|[<-|[]]] Hv; discriminate. }
  exact (proj1 (unpriced_balance_degrades_value_only (H := ExactDecimal.ops)
                  Scenario.market
                  (Scenario.db_of [Scenario.kraken1; Scenario.wallet1]) None Hamt)
               _ _ eq_refl).
Defined.

(** C1 as the specification words it fails: the 5 XYZ that the exchange
    reports without a price are accumulated, but the table has no row for
    XYZ. *)
Lemma unpriced_asset_has_no_row :
  exists table lg s,
    balances Scenario.market
      (Scenario.db_of [Scenario.kraken1; Scenario.wallet1]) None = Ok (table, lg)
    /\ balances_accumulate Scenario.market
         (Scenario.db_of [Scenario.kraken1; Scenario.wallet1]) None = Ok s
    /\ dget "XYZ" (balances_sum s) = Some 5%Q
    /\ dget "XYZ" (usd_value_sum s) = None
    /\ map row_label_of table = [Row_asset "BTC"; Row_asset "ETH"; Row_total]
    /\ ~ In (Row_asset "XYZ") (map row_label_of table).
Proof.
  eexists; eexists; eexists.
  split; [vm_compute; reflexivity|].
  split; [vm_compute; reflexivity|].
  split; [reflexivity|].
  split; [reflexivity|].
  split; [reflexivity|].
  simpl; intros [Hx|[Hx|[Hx|[]]]]; discriminate.
Qed.

(** ** Ledger files (C4, C8, C9, C10) *)

Module LedgerFacts.
Import Ledger.

(** *** Decimal strings *)

Lemma Z_of_string_of_Z (z : Z) : Z_of_string (string_of_Z z) = Some z.
Proof.
  unfold Z_of_string, string_of_Z.
  assert (Hd : exists d', NilZero.int_of_string (NilZero.string_of_int (Z.to_int z)) = Some d'
                        /\ Z.of_int d' = Z.of_int (Z.to_int z)).
  { destruct (Z.to_int z) as [u|u] eqn:Hz.
  - destruct u; try (eexists; split; [apply NilZero.isi; discriminate | reflexivity]).
    exists (Decimal.Pos Decimal.zero); split; reflexivity.
  - destruct u; try (eexists; split; [apply NilZero.isi; discriminate | reflexivity]).
    exists (Decimal.Neg (Decimal.D0 Decimal.Nil)); split; reflexivity. }
  destruct Hd as (d' & -> & Hd'); simpl; rewrite Hd', DecimalZ.of_to; reflexivity.
Qed.

Lemma split_on_uint (d : Decimal.uint) (rest : string) :
  split_on "E" (NilEmpty.string_of_uint d ++ String "E" rest)%string
  = Some (NilEmpty.string_of_uint d, rest).
Proof.
  induction d; simpl; try rewrite IHd; reflexivity.
Qed.

Lemma split_on_Z (z : Z) (rest : string) :
  split_on "E" (string_of_Z z ++ String "E" rest)%string
  = Some (string_of_Z z, rest).
Proof.
  unfold string_of_Z, NilZero.string_of_int, NilZero.string_of_uint.
  destruct (Z.to_int z) as [u|u]; destruct u;
  try reflexivity;
  try (apply (split_on_uint (_ _)));
  cbn [append split_on Ascii.eqb Bool.eqb];
  try (rewrite (split_on_uint (_ _)); reflexivity).
Qed.

(** A decimal is read back from its string digit for digit. *)
Lemma decimal_of_to_string (d : decimal) :
  decimal_of_string (decimal_to_string d) = Ok d.
Proof.
  unfold decimal_of_string, decimal_to_string.
  change (string_of_Z (coefficient d) ++ "E" ++ string_of_Z (exponent d))%string
  with (string_of_Z (coefficient d) ++ String "E" (string_of_Z (exponent d)))%string.
  rewrite split_on_Z, !Z_of_string_of_Z; destruct d; reflexivity.
Qed.

Lemma deserialize_serialize (t : Trade) :
  deserialize_trade (serialize_trade t) = Ok t.
Proof.
  unfold deserialize_trade, serialize_trade, decimal_field.
  cbn [yaml_getitem getitem dget String.eqb Ascii.eqb Bool.eqb bind as_int
     as_pair as_str].
  rewrite !decimal_of_to_string; cbn [bind].
  destruct t as [ts b q [|] am ra fe fa src]; reflexivity.
Qed.

Lemma deserialize_serialize_all (trades : list Trade) :
  comprehension deserialize_trade (serialize_trades trades) = Ok trades.
Proof.
  induction trades as [|t trades IH]; simpl; [reflexivity|].
  rewrite deserialize_serialize; cbn [bind]; rewrite IH; reflexivity.
Qed.

End LedgerFacts.

(** ** Paths and files *)

Lemma for_each_invariant_in {A S} (P : S -> Prop) (body : A -> S -> result S)
      (l : list A) :
  (forall x s s', In x l -> P s -> body x s = Ok s' -> P s') ->
  forall s s', P s -> for_each body l s = Ok s' -> P s'.
Proof.
  induction l as [|x l IH]; intros Hstep s s' Hs Hrun; simpl in Hrun.
  - injection Hrun as <-; exact Hs.
  - apply bind_ok in Hrun as (s1 & H1 & H2).
    apply (IH (fun y t t' Hy => Hstep y t t' (or_intror Hy)) s1 s');
      [|exact H2].
    exact (Hstep x s s1 (or_introl eq_refl) Hs H1).
Qed.

Lemma string_length_append (a b : string) :
  String.length (a ++ b) = (String.length a + String.length b)%nat.
Proof. induction a as [|c a IH]; simpl; [reflexivity | rewrite IH; reflexivity]. Qed.

Lemma string_append_cancel_r (a b s : string) :
  (a ++ s = b ++ s)%string -> a = b.
Proof.
  revert b; induction a as [|c a IH]; intros [|d b] Heq; simpl in Heq.
  - reflexivity.
  - apply (f_equal String.length) in Heq; simpl in Heq.
    rewrite string_length_append in Heq; lia.
  - apply (f_equal String.length) in Heq; simpl in Heq.
    rewrite string_length_append in Heq; lia.
  - injection Heq as -> Heq; f_equal; apply IH; exact Heq.
Qed.

Lemma string_append_assoc (a b c : string) :
  ((a ++ b) ++ c = a ++ (b ++ c))%string.
Proof. induction a as [|x a IH]; simpl; [reflexivity | rewrite IH; reflexivity]. Qed.

Lemma string_append_nil_r (a : string) : (a ++ "" = a)%string.
Proof. induction a as [|x a IH]; simpl; [reflexivity | rewrite IH; reflexivity]. Qed.

Lemma has_char_append (c : ascii) (a b : string) :
  has_char c (a ++ b) = has_char c a || has_char c b.
Proof.
  induction a as [|x a IH]; simpl; [reflexivity|].
  rewrite IH, orb_assoc; reflexivity.
Qed.

Lemma plain_name_parts (n : string) :
  plain_name n = true ->
  has_slash n = false /\ has_nul n = false
  /\ (name_max <? String.length (n ++ ".yaml"))%nat = false.
Proof.
  unfold plain_name; intros Hn.
  apply andb_true_iff in Hn as (Hn & Hlen).
  apply andb_true_iff in Hn as (Hslash & Hnul).
  apply negb_true_iff in Hslash; apply negb_true_iff in Hnul.
  apply Nat.leb_le in Hlen; repeat split; try assumption.
  apply Nat.ltb_ge; exact Hlen.
Qed.

(** *** The components of a path *)

Lemma components_from_plain (cur a b : string) :
  has_slash a = false ->
  components_from cur (a ++ b) = components_from (cur ++ a) b.
Proof.
  unfold has_slash; revert cur; induction a as [|x a IH]; intros cur Ha;
    simpl in *.
  - rewrite string_append_nil_r; reflexivity.
  - apply orb_false_iff in Ha as (Hx & Ha); rewrite Hx, (IH _ Ha).
    rewrite string_append_assoc; reflexivity.
Qed.

Lemma components_from_slash (cur b : string) :
  components_from cur (String "/" b) = cur :: components_from "" b.
Proof. reflexivity. Qed.

Lemma components_plain (a : string) : has_slash a = false -> components a = [a].
Proof.
  intros Ha; unfold components.
  rewrite <- (string_append_nil_r a) at 1.
  rewrite (components_from_plain "" a "" Ha); reflexivity.
Qed.

Lemma plain_not_rooted (a : string) :
  has_slash a = false -> starts_with "/" a = false.
Proof.
  destruct a as [|x a]; [reflexivity|]; intros Ha.
  unfold has_slash in Ha; cbn [has_char] in Ha.
  apply orb_false_iff in Ha as (Hx & _).
  unfold starts_with; cbn [String.prefix].
  destruct (Ascii.ascii_dec "/" x) as [Heq|]; [|reflexivity].
  rewrite <- Heq in Hx; discriminate.
Qed.

(** The file name of a ledger is a name: not empty, not a dot, not two. *)
Lemma yaml_file_name (n : string) :
  String.eqb (n ++ ".yaml") "" = false
  /\ String.eqb (n ++ ".yaml") "." = false
  /\ String.eqb (n ++ ".yaml") ".." = false.
Proof.
  repeat split; apply String.eqb_neq; intros Heq;
    apply (f_equal String.length) in Heq;
    rewrite string_length_append in Heq; simpl in Heq; lia.
Qed.

Lemma yaml_file_plain (n : string) :
  has_slash n = false -> has_slash (n ++ ".yaml") = false.
Proof.
  unfold has_slash; intros Hn; rewrite has_char_append, Hn; reflexivity.
Qed.

Lemma ledger_components (n : string) :
  plain_name n = true ->
  components (Ledger.ledger_path n) = ["trades"; (n ++ ".yaml")%string].
Proof.
  intros Hn; apply plain_name_parts in Hn as (Hn & _).
  unfold Ledger.ledger_path, components.
  change ("trades/" ++ n ++ ".yaml")%string
    with ("trades" ++ String "/" (n ++ ".yaml"))%string.
  rewrite (components_from_plain "" "trades" _ eq_refl), components_from_slash.
  f_equal; apply components_plain, yaml_file_plain, Hn.
Qed.

(** The ledger of a plain name is the file [trades/<name>.yaml], for the
    writer and for the reader. *)
Lemma normpath_ledger_path (n : string) :
  plain_name n = true -> normpath (Ledger.ledger_path n) = Ledger.ledger_path n.
Proof.
  intros Hn; unfold normpath; fold (components (Ledger.ledger_path n)).
  rewrite (ledger_components n Hn).
  destruct (yaml_file_name n) as (H0 & H1 & H2).
  unfold Ledger.ledger_path at 1.
  change (starts_with "/" ("trades/" ++ n ++ ".yaml")) with false.
  cbn [fold_left]; unfold descend at 2; cbn [String.eqb Ascii.eqb Bool.eqb orb].
  unfold descend; rewrite H0, H1, H2; reflexivity.
Qed.

Lemma joined_ledger (n : string) :
  plain_name n = true ->
  os_path_join (os_path_join "." "trades") (n ++ ".yaml")%string
  = ("./trades/" ++ n ++ ".yaml")%string
  /\ components ("./trades/" ++ n ++ ".yaml")
     = ["."; "trades"; (n ++ ".yaml")%string].
Proof.
  intros Hn; apply plain_name_parts in Hn as (Hn & _).
  pose proof (yaml_file_plain n Hn) as Hfile; split.
  - change (os_path_join "." "trades") with "./trades".
    unfold os_path_join; rewrite (plain_not_rooted _ Hfile); reflexivity.
  - unfold components.
    change ("./trades/" ++ n ++ ".yaml")%string
      with ("." ++ String "/" ("trades" ++ String "/" (n ++ ".yaml")))%string.
    rewrite (components_from_plain "" "." _ eq_refl), components_from_slash.
    rewrite (components_from_plain "" "trades" _ eq_refl), components_from_slash.
    fold (components (n ++ ".yaml")); rewrite (components_plain _ Hfile).
    reflexivity.
Qed.

Lemma normpath_joined_ledger (n : string) :
  plain_name n = true ->
  normpath (os_path_join (os_path_join "." "trades") (n ++ ".yaml")%string)
  = Ledger.ledger_path n.
Proof.
  intros Hn; destruct (joined_ledger n Hn) as (Hjoin & Hcs).
  rewrite Hjoin; unfold normpath.
  change (starts_with "/" ("./trades/" ++ n ++ ".yaml")) with false.
  fold (components ("./trades/" ++ n ++ ".yaml")); rewrite Hcs.
  destruct (yaml_file_name n) as (H0 & H1 & H2).
  cbn [fold_left]; unfold descend at 3; cbn [String.eqb Ascii.eqb Bool.eqb orb].
  unfold descend at 2; cbn [String.eqb Ascii.eqb Bool.eqb orb].
  unfold descend; rewrite H0, H1, H2; reflexivity.
Qed.

(** The reader's path of a plain name's ledger names a file. *)
Lemma names_file_joined_ledger (n : string) :
  plain_name n = true ->
  names_file (os_path_join (os_path_join "." "trades") (n ++ ".yaml")%string)
  = true.
Proof.
  intros Hn; destruct (joined_ledger n Hn) as (Hjoin & Hcs).
  rewrite Hjoin; unfold names_file; rewrite Hcs.
  destruct (yaml_file_name n) as (H0 & H1 & H2).
  cbn [existsb last].
  rewrite (String.eqb_sym ".." (n ++ ".yaml")), H2, H0, H1; reflexivity.
Qed.

(** Different plain names have different ledger files. *)
Lemma ledger_path_injective (n m : string) :
  Ledger.ledger_path n = Ledger.ledger_path m -> n = m.
Proof.
  unfold Ledger.ledger_path; intros Heq.
  change ("trades/" ++ n ++ ".yaml")%string
    with (String "t" (String "r" (String "a" (String "d" (String "e"
           (String "s" (String "/" (n ++ ".yaml"))))))))%string in Heq.
  change ("trades/" ++ m ++ ".yaml")%string
    with (String "t" (String "r" (String "a" (String "d" (String "e"
           (String "s" (String "/" (m ++ ".yaml"))))))))%string in Heq.
  injection Heq as Heq; apply string_append_cancel_r in Heq; exact Heq.
Qed.

(** *** Writing a file *)

(** The file that a write opens is the one its path names. *)
Lemma resolve_w_target (folders : list string) (fs : filesystem) (path : string)
      (absolute : bool) (cs : list string) :
  forall stack target,
    resolve_w folders fs path absolute stack cs = Ok target ->
    target = render absolute (fold_left (descend absolute) cs stack).
Proof.
  induction cs as [|c cs IH]; intros stack target Hr; [discriminate|].
  destruct cs as [|c' cs].
  - cbn [resolve_w] in Hr; cbn [fold_left]; unfold descend.
    destruct (String.eqb c "");
      [destruct (String.eqb path ""); discriminate|].
    destruct (String.eqb c "."); [discriminate|].
    destruct (String.eqb c ".."); [discriminate|]; cbn [orb] in *.
    destruct (name_max <? String.length c)%nat; [discriminate|].
    destruct (existsb _ folders); [discriminate|].
    injection Hr as <-; reflexivity.
  - change (fold_left (descend absolute) (c :: c' :: cs) stack)
      with (fold_left (descend absolute) (c' :: cs) (descend absolute stack c)).
    change (resolve_w folders fs path absolute stack (c :: c' :: cs))
      with (if String.eqb c "" || String.eqb c "." || String.eqb c ".."
            then resolve_w folders fs path absolute (descend absolute stack c)
                           (c' :: cs)
            else if (name_max <? String.length c)%nat
            then Raise (Raised "OSError")
            else
              let dir := render absolute (c :: stack) in
              if existsb (String.eqb dir) folders
              then resolve_w folders fs path absolute (c :: stack) (c' :: cs)
              else match dget dir fs with
                   | Some _ => Raise (NotADirectoryError path)
                   | None => Raise (FileNotFoundError path)
                   end) in Hr.
    destruct (String.eqb c "" || String.eqb c "." || String.eqb c "..") eqn:Hc.
    + apply IH; exact Hr.
    + cbv zeta in Hr.
      destruct (name_max <? String.length c)%nat; [discriminate|].
      destruct (existsb _ folders); [|destruct (dget _ fs); discriminate].
      apply orb_false_iff in Hc as (Hc & Hc2).
      apply IH in Hr; rewrite Hr; unfold descend at 3; rewrite Hc, Hc2.
      reflexivity.
Qed.

Lemma write_yaml_target (folders : list string) (fs fs' : filesystem)
      (path : string) (doc : yaml) :
  write_yaml folders fs path doc = Ok fs' -> fs' = dset (normpath path) doc fs.
Proof.
  unfold write_yaml; intros Hw.
  destruct (has_nul path); [discriminate|].
  apply bind_ok in Hw as (target & Ht & [= <-]).
  apply resolve_w_target in Ht; rewrite Ht; reflexivity.
Qed.

(** A file that was written is read under every path that names it. *)
Lemma load_written (folders : list string) (fs fs' : filesystem)
      (p p' : string) (doc : yaml) :
  write_yaml folders fs p doc = Ok fs' ->
  normpath p' = normpath p -> names_file p' = true ->
  load_yaml fs' p' = Ok doc.
Proof.
  intros Hw Hp Hfile; apply write_yaml_target in Hw; subst fs'.
  unfold load_yaml; rewrite Hp, dget_dset, String.eqb_refl, Hfile.
  reflexivity.
Qed.

(** The ledger of a plain name can be written when [trades/] is there and
    no directory has the ledger's name. *)
Lemma write_ledger (folders : list string) (fs : filesystem) (n : string)
      (doc : yaml) :
  plain_name n = true -> In "trades" folders ->
  ~ In (Ledger.ledger_path n) folders ->
  write_yaml folders fs (Ledger.ledger_path n) doc
  = Ok (dset (Ledger.ledger_path n) doc fs).
Proof.
  intros Hn Htrades Hfree; unfold write_yaml.
  destruct (plain_name_parts n Hn) as (_ & Hnul & Hlen).
  assert (Hpath : has_nul (Ledger.ledger_path n) = false).
  { unfold Ledger.ledger_path, has_nul in *.
    rewrite !has_char_append, Hnul; reflexivity. }
  rewrite Hpath, (ledger_components n Hn).
  unfold Ledger.ledger_path at 2.
  change (starts_with "/" ("trades/" ++ n ++ ".yaml")) with false.
  destruct (yaml_file_name n) as (H0 & H1 & H2).
  assert (Hdir : existsb (String.eqb (render false ["trades"])) folders = true).
  { apply existsb_exists; exists "trades"; split; [exact Htrades | reflexivity]. }
  assert (Hfile : existsb (String.eqb (render false [(n ++ ".yaml")%string; "trades"]))
                          folders = false).
  { apply not_true_is_false; intros Hex.
    apply existsb_exists in Hex as (d & Hd & Heq).
    apply String.eqb_eq in Heq; subst d; exfalso; apply Hfree; exact Hd. }
  cbn [resolve_w String.eqb Ascii.eqb Bool.eqb orb].
  change (name_max <? String.length "trades")%nat with false.
  cbv zeta; rewrite Hdir, H0, H1, H2; cbn [orb]; rewrite Hlen, Hfile.
  reflexivity.
Qed.


(** C4, as the code has it: for an exchange account whose name has no
    slash, with the working directory as data directory, the [trades]
    directory that [BuchfinkDB()] makes and no directory in the place of
    the ledger, [fetch] writes the ledger of the account, and the trades
    that [get_local_trades_for_account] then reads are the trades that
    were fetched, each field and each digit of each decimal included. *)
Theorem fetched_trades_are_read_back
        (env : Ledger.fetch_env) (db : BuchfinkDB) (keyword : option string)
        (acct : account) (name : string) (ex : exchange) (note : string)
        (trades : list Ledger.Trade) (s : Ledger.fetch_state) :
  data_directory db = "." ->
  plain_name name = true ->
  In "trades" (Ledger.folders s) ->
  ~ In (Ledger.ledger_path name) (Ledger.folders s) ->
  getitem acct "name" = Ok name ->
  contains_key "exchange" acct = true ->
  find_account db name = Ok acct ->
  (forall k, keyword = Some k -> str_contains k name = true) ->
  get_exchange db name = Ok ex ->
  Ledger.fetch_validate_api_key env ex = Ok (true, note) ->
  Ledger.query_online_trade_history env ex = Ok trades ->
  exists s',
    Ledger.fetch_account env db keyword acct s = Ok s'
    /\ Ledger.get_local_trades_for_account db (Ledger.disk s') name = Ok trades.
Proof.
  intros Hdir Hplain Hfolder Hfree Hname Hexch Hfind Hkw Hex Hval Htrades.
  pose proof (keyword_passes keyword acct name Hname Hkw) as Hpass.
  eexists; split.
  - unfold Ledger.fetch_account; rewrite Hpass; cbn [bind]; rewrite Hexch.
    cbn [negb]; rewrite Hname; cbn [bind]; rewrite Hex; cbn [bind].
    rewrite Hval; cbn [bind negb]; rewrite Htrades; cbn [bind].
    cbn [Ledger.folders Ledger.disk Ledger.say].
    rewrite (write_ledger _ _ name _ Hplain Hfolder Hfree); reflexivity.
  - unfold Ledger.get_local_trades_for_account.
    rewrite Hfind; cbn [bind]; rewrite Hexch, Hname; cbn [bind].
    rewrite Hdir; cbn [Ledger.disk Ledger.say]; unfold load_yaml.
    rewrite (normpath_joined_ledger name Hplain), dget_dset, String.eqb_refl.
    rewrite (names_file_joined_ledger name Hplain).
    cbn [bind yaml_getitem getitem dget String.eqb Ascii.eqb Bool.eqb yaml_iter].
    apply LedgerFacts.deserialize_serialize_all.
Qed.

Lemma fetched_trades_are_read_back_witness :
  exists s',
    Ledger.fetch_account Scenario.exchange_ok
      (Scenario.db_of [Scenario.kraken1; Scenario.wallet1]) None
      Scenario.kraken1 Scenario.no_files = Ok s'
    /\ Ledger.get_local_trades_for_account
         (Scenario.db_of [Scenario.kraken1; Scenario.wallet1])
         (Ledger.disk s') "kraken1"
       = Ok [Scenario.trade1; Scenario.trade2].
Proof.
  refine (fetched_trades_are_read_back
            Scenario.exchange_ok
            (Scenario.db_of [Scenario.kraken1; Scenario.wallet1]) None
            Scenario.kraken1 "kraken1" Scenario.kraken_client ""
            [Scenario.trade1; Scenario.trade2] Scenario.no_files
            eq_refl eq_refl (or_intror (or_introl eq_refl)) _
            eq_refl eq_refl eq_refl _ eq_refl eq_refl eq_refl).
  - simpl; intros [H|[H|[H|[H|[H|[H|[]]]]]]]; discriminate H.
  - intros k Hk; discriminate Hk.
Defined.

(** C4 as the specification words it fails for an account name with a
    directory part: [fetch] makes no directory under [trades/], so the
    ledger of the account [a/b] cannot be opened for writing, and there
    is nothing to read back. *)
Lemma nested_name_is_not_saved :
  Ledger.fetch Scenario.exchange_ok (Scenario.db_of [Scenario.nested]) None
               Scenario.no_files
  = Raise (FileNotFoundError "trades/a/b.yaml")
  /\ Ledger.get_local_trades_for_account
       (Scenario.db_of [Scenario.nested]) (Ledger.disk Scenario.no_files) "a/b"
     = Raise (FileNotFoundError "./trades/a/b.yaml").
Proof. split; vm_compute; reflexivity. Qed.

(** ** Accounts without a ledger (C8, C9, C10) *)

(** C9: for an account of the ethereum or bitcoin kind the lookup of its
    local trades returns the empty list, whatever is on the disk, and
    [fetch] passes it by without touching the disk. *)
Theorem chain_account_has_no_trades
        (env : Ledger.fetch_env) (db : BuchfinkDB) (fs : filesystem)
        (keyword : option string) (acct : account) (name : string)
        (s : Ledger.fetch_state) :
  find_account db name = Ok acct ->
  getitem acct "name" = Ok name ->
  contains_key "exchange" acct = false ->
  contains_key "file" acct = false ->
  contains_key "ethereum" acct || contains_key "bitcoin" acct = true ->
  Ledger.get_local_trades_for_account db fs name = Ok []
  /\ Ledger.fetch_account env db keyword acct s = Ok s.
Proof.
  intros Hfind Hname Hexch Hfile Hchain; split.
  - unfold Ledger.get_local_trades_for_account.
    rewrite Hfind; cbn [bind]; rewrite Hexch, Hfile, Hchain; reflexivity.
  - unfold Ledger.fetch_account; rewrite Hexch.
    destruct keyword as [k|]; [|reflexivity].
    rewrite Hname; cbn [bind]; destruct (negb (str_contains k name)); reflexivity.
Qed.

Lemma chain_account_has_no_trades_witness :
  Ledger.get_local_trades_for_account
    (Scenario.db_of [Scenario.kraken1; Scenario.wallet1; Scenario.vault])
    [] "vault" = Ok []
  /\ Ledger.fetch_account Scenario.exchange_ok
       (Scenario.db_of [Scenario.kraken1; Scenario.wallet1; Scenario.vault])
       (Some "va") Scenario.vault Scenario.no_files = Ok Scenario.no_files.
Proof.
  exact (chain_account_has_no_trades
           Scenario.exchange_ok
           (Scenario.db_of [Scenario.kraken1; Scenario.wallet1; Scenario.vault])
           [] (Some "va") Scenario.vault "vault" Scenario.no_files
           eq_refl eq_refl eq_refl eq_refl eq_refl).
Defined.

(** C10: a file account whose document is a mapping without [trades] has
    no local trades and raises nothing, and when the document has a
    [trades] list, these are its trades, whatever other accounts are
    configured; an exchange account whose ledger is a mapping without
    [trades] raises [KeyError]. *)
Theorem file_account_trades_are_optional (db : BuchfinkDB) (fs : filesystem) :
  (forall file_name file_acct path file_doc,
      find_account db file_name = Ok file_acct ->
      contains_key "exchange" file_acct = false ->
      getitem file_acct "file" = Ok path ->
      load_yaml fs (os_path_join (data_directory db) path) = Ok (YMap file_doc) ->
      (dget "trades" file_doc = None ->
       Ledger.get_local_trades_for_account db fs file_name = Ok [])
      /\ (forall trades,
             dget "trades" file_doc = Some (YSeq (Ledger.serialize_trades trades)) ->
             Ledger.get_local_trades_for_account db fs file_name = Ok trades))
  /\ (forall exchange_name exchange_acct name ledger_doc,
         find_account db exchange_name = Ok exchange_acct ->
         contains_key "exchange" exchange_acct = true ->
         getitem exchange_acct "name" = Ok name ->
         load_yaml fs (os_path_join (os_path_join (data_directory db) "trades")
                                    (name ++ ".yaml")%string)
         = Ok (YMap ledger_doc) ->
         dget "trades" ledger_doc = None ->
         Ledger.get_local_trades_for_account db fs exchange_name
         = Raise (KeyError "trades")).
Proof.
  split.
  - intros file_name file_acct path file_doc Hfind Hno Hpath Hdoc.
    assert (Hfile : contains_key "file" file_acct = true).
    { unfold getitem in Hpath; unfold contains_key.
      destruct (dget "file" file_acct); [reflexivity | discriminate]. }
    unfold Ledger.get_local_trades_for_account.
    rewrite Hfind; cbn [bind]; rewrite Hno, Hfile, Hpath; cbn [bind].
    rewrite Hdoc; cbn [bind yaml_get]; unfold get_default.
    split.
    + intros ->; reflexivity.
    + intros trades ->; cbn [bind yaml_iter].
      apply LedgerFacts.deserialize_serialize_all.
  - intros exchange_name exchange_acct name ledger_doc Hfind Hexch Hname
           Hledger Hnone.
    unfold Ledger.get_local_trades_for_account.
    rewrite Hfind; cbn [bind]; rewrite Hexch, Hname; cbn [bind].
    rewrite Hledger; cbn [bind yaml_getitem]; unfold getitem.
    rewrite Hnone; reflexivity.
Qed.

Lemma file_account_trades_are_optional_witness :
  Ledger.get_local_trades_for_account
    (Scenario.db_of [Scenario.wallet1; Scenario.paper])
    Scenario.disk_with_trades "paper" = Ok [Scenario.trade2]
  /\ Ledger.get_local_trades_for_account
       (Scenario.db_of [Scenario.kraken1; Scenario.cold])
       Scenario.disk_without_trades "cold" = Ok []
  /\ Ledger.get_local_trades_for_account
       (Scenario.db_of [Scenario.kraken1; Scenario.cold])
       Scenario.disk_without_trades "kraken1" = Raise (KeyError "trades").
Proof.
  split; [|split].
  - exact (proj2 (proj1 (file_account_trades_are_optional
                           (Scenario.db_of [Scenario.wallet1; Scenario.paper])
                           Scenario.disk_with_trades)
                        "paper" Scenario.paper "paper.yaml" _
                        eq_refl eq_refl eq_refl eq_refl)
                 [Scenario.trade2] eq_refl).
  - exact (proj1 (proj1 (file_account_trades_are_optional
                           (Scenario.db_of [Scenario.kraken1; Scenario.cold])
                           Scenario.disk_without_trades)
                        "cold" Scenario.cold "cold.yaml" [("balances", YSeq [])]
                        eq_refl eq_refl eq_refl eq_refl)
                 eq_refl).
  - exact (proj2 (file_account_trades_are_optional
                    (Scenario.db_of [Scenario.kraken1; Scenario.cold])
                    Scenario.disk_without_trades)
                 "kraken1" Scenario.kraken1 "kraken1" [("note", YStr "empty")]
                 eq_refl eq_refl eq_refl eq_refl eq_refl).
Defined.




(** ** Reports (C6, C7) *)

(** C6, with the constructor of [ReportConfig] as the specification gives
    it: a report whose from date is later than its to date is rejected
    when its [ReportConfig] is built.  The [report] command raises
    without calling [run_report], whatever [run_report] would do, and
    with [ConfigError] when the two timestamps could be computed; a
    stored definition cannot be built; and [run] goes through the
    definitions in front of it first, computing those the keyword
    selects, and then ends with [ConfigError] and without a table. *)
Theorem backwards_report_is_rejected_when_built
        (fromiso : string -> result Reports.datetime)
        (ts : Reports.datetime -> result Z)
        (report_name from_ to : string) (f t : Reports.datetime) :
  fromiso from_ = Ok f ->
  fromiso to = Ok t ->
  Reports.datetime_ltb t f = true ->
  (exists e, forall rr,
        Reports.report {| Reports.fromisoformat := fromiso;
                          Reports.datetime_timestamp := ts;
                          Reports.run_report := rr |} report_name from_ to
        = Raise e)
  /\ (forall rr a b,
         ts f = Ok a -> ts t = Ok b ->
         Reports.report {| Reports.fromisoformat := fromiso;
                           Reports.datetime_timestamp := ts;
                           Reports.run_report := rr |} report_name from_ to
         = Raise (Raised "ConfigError"))
  /\ (forall rr (info : report_info),
         getitem info "name" = Ok report_name ->
         getitem info "from" = Ok from_ ->
         getitem info "to" = Ok to ->
         let env := {| Reports.fromisoformat := fromiso;
                       Reports.datetime_timestamp := ts;
                       Reports.run_report := rr |} in
         Reports.report_of_info env info = Raise (Raised "ConfigError")
         /\ forall db keyword (front behind : list report_info),
             reports db = front ++ info :: behind ->
             Reports.run env db keyword
             = (s1 <- for_each (Reports.run_one env keyword)
                               (map (Reports.report_of_info env) front)
                               {| Reports.results := [];
                                  Reports.started := [] |} ;;
                Raise (Raised "ConfigError"))).
Proof.
  intros Hf Ht Hlt.
  assert (Hnew : forall n ti te,
             Reports.new_ReportConfig n ti te f t = Raise (Raised "ConfigError")).
  { intros n ti te; unfold Reports.new_ReportConfig; rewrite Hlt; reflexivity. }
  split; [|split].
  - destruct (ts f) as [a|e] eqn:Ha; [destruct (ts t) as [b|e] eqn:Hb|].
    + exists (Raised "ConfigError"); intros rr; unfold Reports.report.
      cbn [Reports.fromisoformat Reports.datetime_timestamp].
      rewrite Hf, Ht; cbn [bind]; rewrite Ha, Hb; cbn [bind].
      rewrite Hnew; reflexivity.
    + exists e; intros rr; unfold Reports.report.
      cbn [Reports.fromisoformat Reports.datetime_timestamp].
      rewrite Hf, Ht; cbn [bind]; rewrite Ha, Hb; reflexivity.
    + exists e; intros rr; unfold Reports.report.
      cbn [Reports.fromisoformat Reports.datetime_timestamp].
      rewrite Hf; cbn [bind]; rewrite Ha; reflexivity.
  - intros rr a b Ha Hb; unfold Reports.report.
    cbn [Reports.fromisoformat Reports.datetime_timestamp].
    rewrite Hf, Ht; cbn [bind]; rewrite Ha, Hb; cbn [bind].
    rewrite Hnew; reflexivity.
  - intros rr info Hn Hfrom Hto env.
    assert (Hinfo : Reports.report_of_info env info = Raise (Raised "ConfigError")).
    { unfold Reports.report_of_info, env; cbn [Reports.fromisoformat].
      rewrite Hn, Hfrom; cbn [bind]; rewrite Hf; cbn [bind].
      rewrite Hto; cbn [bind]; rewrite Ht; cbn [bind]; apply Hnew. }
    split; [exact Hinfo|].
    intros db keyword front behind Hreports.
    unfold Reports.run, Reports.get_all_reports.
    rewrite Hreports, map_app, for_each_app; cbn [map for_each].
    destruct (for_each (Reports.run_one env keyword)
                       (map (Reports.report_of_info env) front) _)
      as [s1|e1]; cbn [bind]; [|reflexivity].
    unfold Reports.run_one at 1; rewrite Hinfo; reflexivity.
Qed.

Lemma backwards_report_is_rejected_when_built_witness :
  Reports.report Scenario.accounting_ok "X" "2021-12-31" "2021-01-01"
  = Raise (Raised "ConfigError")
  /\ Reports.report_of_info Scenario.accounting_ok Scenario.report_backwards
     = Raise (Raised "ConfigError").
Proof.
  pose proof (backwards_report_is_rejected_when_built
                Reports.date_fromisoformat Reports.utc_timestamp
                "X" "2021-12-31" "2021-01-01" _ _ eq_refl eq_refl eq_refl)
    as (_ & Hreport & _).
  pose proof (backwards_report_is_rejected_when_built
                Reports.date_fromisoformat Reports.utc_timestamp
                "backwards" "2021-12-31" "2021-01-01" _ _ eq_refl eq_refl eq_refl)
    as (_ & _ & Hstored).
  split.
  - exact (Hreport (Reports.run_report Scenario.accounting_ok) _ _
                   eq_refl eq_refl).
  - exact (proj1 (Hstored (Reports.run_report Scenario.accounting_ok)
                          Scenario.report_backwards eq_refl eq_refl eq_refl)).
Defined.

(** C6 as the specification words it fails in [run]: the stored
    definitions are built one at a time, so the report named 2020 is
    computed before the definition behind it, whose dates are the wrong
    way round, is looked at.  With an accounting that fails on 2020 the
    run ends with that failure; with one that works it ends with the
    rejection, after 2020 has been computed. *)
Lemma reports_in_front_run_before_the_rejection :
  Reports.run Scenario.accounting_fails_2020
    (Scenario.db_reports [Scenario.report_2020; Scenario.report_backwards]) None
  = Raise (Raised "ReportError")
  /\ Reports.run Scenario.accounting_ok
       (Scenario.db_reports [Scenario.report_2020; Scenario.report_backwards]) None
     = Raise (Raised "ConfigError")
  /\ exists s1,
      for_each (Reports.run_one Scenario.accounting_ok None)
               (map (Reports.report_of_info Scenario.accounting_ok)
                    [Scenario.report_2020])
               {| Reports.results := []; Reports.started := [] |} = Ok s1
      /\ map Reports.name (Reports.started s1) = ["2020"].
Proof.
  split; [vm_compute; reflexivity|].
  split; [vm_compute; reflexivity|].
  eexists; split; [vm_compute; reflexivity | reflexivity].
Qed.

(** C7, as the code has it: when [run_report] raises for a matched report,
    [run] ends with an exception and prints no table; if the reports in
    front of it were computed, the exception is the one [run_report]
    raised, whatever reports stand behind it. *)
Theorem failed_report_aborts_the_run
        (env : Reports.report_env) (db : BuchfinkDB) (keyword : option string)
        (front behind : list report_info) (info : report_info)
        (cfg : Reports.ReportConfig) (e : exn) :
  reports db = front ++ info :: behind ->
  Reports.report_of_info env info = Ok cfg ->
  (forall k, keyword = Some k -> str_contains k (Reports.name cfg) = true) ->
  Reports.run_report env cfg = Raise e ->
  (exists e', Reports.run env db keyword = Raise e')
  /\ (forall s1,
         for_each (Reports.run_one env keyword)
                  (map (Reports.report_of_info env) front)
                  {| Reports.results := []; Reports.started := [] |} = Ok s1 ->
         Reports.run env db keyword = Raise e).
Proof.
  intros Hreports Hinfo Hkw Hfail.
  assert (Hone : forall s, Reports.run_one env keyword
                             (Reports.report_of_info env info) s = Raise e).
  { intros s; unfold Reports.run_one; rewrite Hinfo; cbn [bind].
    destruct keyword as [k|]; [rewrite (Hkw k eq_refl)|]; cbn [negb];
      rewrite Hfail; reflexivity. }
  unfold Reports.run, Reports.get_all_reports.
  rewrite Hreports, map_app, for_each_app; cbn [map for_each].
  split.
  - destruct (for_each _ (map _ front) _) as [s1|e1]; cbn [bind].
    + rewrite Hone; cbn [bind]; eexists; reflexivity.
    + eexists; reflexivity.
  - intros s1 ->; cbn [bind]; rewrite Hone; reflexivity.
Qed.

Lemma failed_report_aborts_the_run_witness :
  Reports.run Scenario.accounting_fails_2020
    (Scenario.db_reports [Scenario.report_2021; Scenario.report_2020;
                          Scenario.report_backwards]) (Some "20")
  = Raise (Raised "ReportError").
Proof.
  refine (proj2 (failed_report_aborts_the_run
                   Scenario.accounting_fails_2020
                   (Scenario.db_reports [Scenario.report_2021; Scenario.report_2020;
                                         Scenario.report_backwards]) (Some "20")
                   [Scenario.report_2021] [Scenario.report_backwards]
                   Scenario.report_2020 _ (Raised "ReportError")
                   eq_refl eq_refl _ eq_refl) _ eq_refl).
  intros k Hk; injection Hk as <-; reflexivity.
Defined.

(** C7 as the specification words it fails: the report named 2020 fails,
    and the report named 2021, which is computed without trouble when it
    stands alone, gets no row: there is no table. *)
Lemma one_failed_report_loses_the_others :
  Reports.run Scenario.accounting_fails_2020
    (Scenario.db_reports [Scenario.report_2020; Scenario.report_2021]) None
  = Raise (Raised "ReportError")
  /\ exists started,
      Reports.run Scenario.accounting_fails_2020
        (Scenario.db_reports [Scenario.report_2021]) None
      = Ok ([["2021"; "10"; "4"]], started).
Proof.
  split; [vm_compute; reflexivity|].
  eexists; vm_compute; reflexivity.
Qed.

(** * Further properties of the commands *)

(** ** Looking an account up by its name *)

Lemma with_names_ok (l : list account) (named : list (string * account)) :
  comprehension with_name l = Ok named ->
  map snd named = l
  /\ Forall (fun na => dget "name" (snd na) = Some (fst na)) named.
Proof.
  revert named; induction l as [|a l IH]; simpl; intros named Hc.
  - injection Hc as <-; split; [reflexivity | constructor].
  - apply bind_ok in Hc as ([n a'] & Ha & Hc).
    apply bind_ok in Hc as (rest & Hrest & [= <-]).
    unfold with_name, getitem in Ha.
    destruct (dget "name" a) as [m|] eqn:Hm; [|discriminate].
    injection Ha as <- <-.
    destruct (IH rest Hrest) as (Hsnd & Hall).
    split; [simpl; rewrite Hsnd; reflexivity | constructor; assumption].
Qed.

Lemma first_match (named : list (string * account)) (n : string)
      (na : string * account) (rest : list (string * account)) :
  filter (fun na => String.eqb (fst na) n) named = na :: rest ->
  exists front behind,
    named = front ++ na :: behind /\ fst na = n
    /\ Forall (fun x => fst x <> n) front.
Proof.
  induction named as [|x named IH]; simpl; [discriminate|].
  destruct (String.eqb_spec (fst x) n) as [Heq|Hne]; intros Hf.
  - injection Hf as <- _; exists [], named; repeat split; [exact Heq | constructor].
  - destruct (IH Hf) as (front & behind & -> & Hn & Hfront).
    exists (x :: front), behind; repeat split; [exact Hn|].
    constructor; assumption.
Qed.

(** X1: the account a lookup returns is a configured account of that name,
    and the first one: no account in front of it has the name.  A lookup
    that succeeds shows that every configured account has a name. *)
Theorem find_account_returns_first_of_name
        (db : BuchfinkDB) (n : string) (a : account) :
  find_account db n = Ok a ->
  exists front behind,
    accounts db = front ++ a :: behind
    /\ dget "name" a = Some n
    /\ Forall (fun b => exists m, dget "name" b = Some m /\ m <> n) front
    /\ Forall (fun b => dget "name" b <> None) behind.
Proof.
  unfold find_account; intros Hf.
  apply bind_ok in Hf as (named & Hnamed & Hf).
  destruct (filter _ named) as [|na rest] eqn:Hfilter; [discriminate|].
  injection Hf as <-.
  destruct (with_names_ok _ _ Hnamed) as (Hsnd & Hall).
  destruct (first_match _ _ _ _ Hfilter) as (front & behind & -> & Hn & Hfront).
  exists (map snd front), (map snd behind).
  rewrite <- Hsnd, map_app; split; [reflexivity|].
  apply Forall_app in Hall as (Hall_front & Hall_rest).
  inversion Hall_rest as [|? ? Hna Hall_behind]; subst.
  split; [exact Hna|]; split.
  - apply Forall_map; rewrite Forall_forall in *.
    intros x Hx; exists (fst x); split; [apply (Hall_front x Hx) | apply (Hfront x Hx)].
  - apply Forall_map; rewrite Forall_forall in *.
    intros x Hx; specialize (Hall_behind x Hx); cbv beta in Hall_behind.
    intros Hnone; discriminate (eq_trans (eq_sym Hall_behind) Hnone).
Qed.

Lemma find_account_returns_first_of_name_witness :
  exists front behind,
    accounts (Scenario.db_of [Scenario.wallet1; Scenario.kraken1; Scenario.vault])
    = front ++ Scenario.kraken1 :: behind
    /\ dget "name" Scenario.kraken1 = Some "kraken1".
Proof.
  destruct (find_account_returns_first_of_name
              (Scenario.db_of [Scenario.wallet1; Scenario.kraken1; Scenario.vault])
              "kraken1" Scenario.kraken1 eq_refl)
    as (front & behind & Hsplit & Hname & _).
  exists front, behind; split; assumption.
Defined.

Lemma unnamed_account_raises (l : list account) :
  Exists (fun a => dget "name" a = None) l ->
  comprehension with_name l = Raise (KeyError "name").
Proof.
  induction 1 as [a l Ha|a l _ IH]; simpl; unfold with_name at 1, getitem.
  - rewrite Ha; reflexivity.
  - destruct (dget "name" a); cbn [bind]; [rewrite IH|]; reflexivity.
Qed.

Lemma no_match_is_empty (l : list account) (n : string) :
  Forall (fun a => exists m, dget "name" a = Some m /\ m <> n) l ->
  exists named,
    comprehension with_name l = Ok named
    /\ filter (fun na => String.eqb (fst na) n) named = [].
Proof.
  induction 1 as [|a l (m & Hm & Hne) _ (named & Hnamed & Hfilter)]; simpl.
  - exists []; split; reflexivity.
  - unfold with_name at 1, getitem; rewrite Hm; cbn [bind]; rewrite Hnamed.
    exists ((m, a) :: named); split; [reflexivity|]; simpl.
    destruct (String.eqb_spec m n); [contradiction | exact Hfilter].
Qed.

(** X2: how a lookup by name fails.  If some configured account has no
    name, every lookup raises [KeyError('name')], whatever name is asked
    for; if all have names and none is the name asked for, the lookup
    raises [IndexError].  [get_exchange] and
    [get_local_trades_for_account] fail the same way. *)
Theorem lookup_of_a_name_fails
        (db : BuchfinkDB) (fs : filesystem) (n : string) :
  (Exists (fun a => dget "name" a = None) (accounts db) ->
   find_account db n = Raise (KeyError "name")
   /\ get_exchange db n = Raise (KeyError "name")
   /\ Ledger.get_local_trades_for_account db fs n = Raise (KeyError "name"))
  /\ (Forall (fun a => exists m, dget "name" a = Some m /\ m <> n) (accounts db) ->
      find_account db n = Raise IndexError
      /\ get_exchange db n = Raise IndexError
      /\ Ledger.get_local_trades_for_account db fs n = Raise IndexError).
Proof.
  split.
  - intros Hex.
    assert (Hf : find_account db n = Raise (KeyError "name")).
    { unfold find_account; rewrite (unnamed_account_raises _ Hex); reflexivity. }
    unfold get_exchange, Ledger.get_local_trades_for_account; rewrite Hf; auto.
  - intros Hall.
    assert (Hf : find_account db n = Raise IndexError).
    { unfold find_account.
      destruct (no_match_is_empty _ _ Hall) as (named & -> & Hfilter).
      cbn [bind]; rewrite Hfilter; reflexivity. }
    unfold get_exchange, Ledger.get_local_trades_for_account; rewrite Hf; auto.
Qed.

Lemma lookup_of_a_name_fails_witness :
  find_account (Scenario.db_of [Scenario.kraken1; Scenario.nameless_wallet])
               "kraken1" = Raise (KeyError "name")
  /\ find_account (Scenario.db_of [Scenario.kraken1; Scenario.wallet1])
                  "kraken2" = Raise IndexError.
Proof.
  split.
  - refine (proj1 (proj1 (lookup_of_a_name_fails
                            (Scenario.db_of [Scenario.kraken1; Scenario.nameless_wallet])
                            [] "kraken1") _)).
    right; left; reflexivity.
  - refine (proj1 (proj2 (lookup_of_a_name_fails
                            (Scenario.db_of [Scenario.kraken1; Scenario.wallet1])
                            [] "kraken2") _)).
    repeat constructor; eexists; (split; [reflexivity | discriminate]).
Defined.

(** ** The exchange client of an account *)

(** X3: [get_exchange] builds a client only for the ten exchange kinds it
    knows; the client carries the key and the secret of the account, and a
    passphrase exactly when the kind is coinbasepro; for any other kind it
    raises [ValueError] naming the kind. *)
Theorem get_exchange_knows_ten_kinds
        (db : BuchfinkDB) (n kind : string) (a : account) :
  find_account db n = Ok a ->
  dget "exchange" a = Some kind ->
  (forall ex,
      get_exchange db n = Ok ex ->
      In kind known_exchanges
      /\ ex_class ex = kind
      /\ dget "api_key" a = Some (ex_api_key ex)
      /\ dget "secret" a = Some (ex_secret ex)
      /\ ex_passphrase ex
         = if String.eqb kind "coinbasepro" then dget "passphrase" a else None)
  /\ (~ In kind known_exchanges ->
      get_exchange db n = Raise (ValueError ("Unknown exchange: " ++ kind))).
Proof.
  intros Hfind Hkind; unfold get_exchange, getitem.
  rewrite Hfind; cbn [bind]; rewrite Hkind; cbn [bind].
  destruct (existsb (String.eqb kind) plain_exchanges) eqn:Hplain.
  - assert (Hin : In kind plain_exchanges).
    { apply existsb_exists in Hplain as (k & Hk & Heq).
      apply String.eqb_eq in Heq; subst; exact Hk. }
    assert (Hcb : String.eqb kind "coinbasepro" = false).
    { apply String.eqb_neq; intros ->; simpl in Hin.
      repeat (destruct Hin as [Hin|Hin]; [discriminate|]); exact Hin. }
    split.
    + intros ex Hex.
      destruct (dget "api_key" a) as [key|]; [|discriminate].
      destruct (dget "secret" a) as [sec|]; [|discriminate].
      injection Hex as <-; rewrite Hcb.
      cbn [ex_class ex_api_key ex_secret ex_passphrase].
      split; [unfold known_exchanges; apply in_or_app; left; exact Hin|].
      repeat split.
    + intros Hnot; exfalso; apply Hnot; unfold known_exchanges.
      apply in_or_app; left; exact Hin.
  - destruct (String.eqb_spec kind "coinbasepro") as [->|Hne].
    + split.
      * intros ex Hex.
        destruct (dget "api_key" a) as [key|]; [|discriminate].
        destruct (dget "secret" a) as [sec|]; [|discriminate].
        destruct (dget "passphrase" a) as [pass|]; [|discriminate].
        injection Hex as <-.
        cbn [ex_class ex_api_key ex_secret ex_passphrase].
        split; [unfold known_exchanges; apply in_or_app; right; left; reflexivity|].
        repeat split.
      * intros Hnot; exfalso; apply Hnot; unfold known_exchanges.
        apply in_or_app; right; left; reflexivity.
    + split; [discriminate | reflexivity].
Qed.

Lemma get_exchange_knows_ten_kinds_witness :
  get_exchange (Scenario.db_of [Scenario.kraken1; Scenario.unknown_venue]) "mtgox1"
  = Raise (ValueError "Unknown exchange: mtgox").
Proof.
  refine (proj2 (get_exchange_knows_ten_kinds
                   (Scenario.db_of [Scenario.kraken1; Scenario.unknown_venue])
                   "mtgox1" "mtgox" Scenario.unknown_venue eq_refl eq_refl) _).
  unfold known_exchanges; simpl.
  intros Hin; repeat (destruct Hin as [Hin|Hin]; [discriminate|]); exact Hin.
Defined.

(** ** The keyword of [balances] and [fetch] *)

Lemma keyword_on_named (k : string) (a : account) (n : string) :
  dget "name" a = Some n ->
  (n' <- getitem a "name" ;; Ok (negb (str_contains k n')))
  = Ok (negb (name_matches k a)).
Proof.
  intros Hn; unfold getitem, name_matches; rewrite Hn; reflexivity.
Qed.

Lemma for_each_filtered {A S} (body body' : A -> S -> result S)
      (keep : A -> bool) (l : list A) :
  (forall x s, In x l -> keep x = true -> body x s = body' x s) ->
  (forall x s, In x l -> keep x = false -> body x s = Ok s) ->
  forall s, for_each body l s = for_each body' (filter keep l) s.
Proof.
  induction l as [|x l IH]; intros Hkeep Hdrop s; simpl; [reflexivity|].
  assert (IH' : forall s', for_each body l s' = for_each body' (filter keep l) s').
  { apply IH; intros y s' Hy; [apply Hkeep | apply Hdrop]; right; exact Hy. }
  destruct (keep x) eqn:Hx.
  - simpl; rewrite (Hkeep x s (or_introl eq_refl) Hx).
    destruct (body' x s); simpl; [apply IH' | reflexivity].
  - rewrite (Hdrop x s (or_introl eq_refl) Hx); simpl; apply IH'.
Qed.

(** X4: when every account has a name, [balances] and [fetch] with a
    keyword do what they do without a keyword on the accounts whose name
    contains it, in the same order; the other accounts change nothing. *)
Theorem keyword_selects_accounts_by_name
        {FVal : Type} `{FValOps FVal}
        (benv : balances_env FVal) (fenv : Ledger.fetch_env)
        (db : BuchfinkDB) (k : string) :
  Forall (fun a => dget "name" a <> None) (accounts db) ->
  balances_accumulate benv db (Some k)
  = for_each (balances_account benv db None)
             (filter (name_matches k) (accounts db)) empty_sums
  /\ forall st,
      Ledger.fetch fenv db (Some k) st
      = for_each (Ledger.fetch_account fenv db None)
                 (filter (name_matches k) (accounts db)) st.
Proof.
  intros Hnamed; rewrite Forall_forall in Hnamed.
  unfold balances_accumulate, Ledger.fetch, get_all_accounts; split; [|intros st];
    apply for_each_filtered; intros a s Ha Hk;
    specialize (Hnamed a Ha);
    destruct (dget "name" a) as [n|] eqn:Hn; try contradiction;
    unfold balances_account, Ledger.fetch_account;
    rewrite (keyword_on_named k a n Hn), Hk; reflexivity.
Qed.

Lemma keyword_selects_accounts_by_name_witness :
  balances_accumulate Scenario.market
    (Scenario.db_of [Scenario.kraken1; Scenario.wallet1; Scenario.wallet2])
    (Some "wallet")
  = for_each (balances_account Scenario.market
                (Scenario.db_of [Scenario.kraken1; Scenario.wallet1; Scenario.wallet2])
                None)
             [Scenario.wallet1; Scenario.wallet2] empty_sums.
Proof.
  refine (proj1 (keyword_selects_accounts_by_name (H := ExactDecimal.ops)
                   Scenario.market Scenario.exchange_ok
                   (Scenario.db_of [Scenario.kraken1; Scenario.wallet1; Scenario.wallet2])
                   "wallet" _)).
  repeat constructor; discriminate.
Defined.

(** X5: with a keyword every account needs a name: an account without one
    ends [balances] and [fetch] with an exception, whatever its kind,
    although without a keyword a nameless wallet is read like any other. *)
Theorem keyword_needs_every_name
        {FVal : Type} `{FValOps FVal}
        (benv : balances_env FVal) (fenv : Ledger.fetch_env)
        (db : BuchfinkDB) (k : string) (a : account) :
  In a (accounts db) ->
  dget "name" a = None ->
  (exists e, balances benv db (Some k) = Raise e)
  /\ (forall st, exists e, Ledger.fetch fenv db (Some k) st = Raise e)
  /\ (contains_key "exchange" a = false ->
      forall s st,
        balances_account benv db None a s
        = (if contains_key "ethereum" a then ethereum_branch benv a s
           else if contains_key "bitcoin" a then bitcoin_branch benv a s
           else if contains_key "file" a then file_branch benv a s
           else Ok s)
        /\ Ledger.fetch_account fenv db None a st = Ok st).
Proof.
  intros Hin Hname; split; [|split].
  - destruct (for_each_aborts (balances_account benv db (Some k))
                (accounts db) a Hin) with (s := empty_sums (FVal := FVal))
      as (e & He).
    + intros s; unfold balances_account, getitem; rewrite Hname; eexists; reflexivity.
    + exists e; unfold balances, balances_accumulate, get_all_accounts.
      rewrite He; reflexivity.
  - intros st; unfold Ledger.fetch, get_all_accounts.
    apply (for_each_aborts _ _ a Hin).
    intros s; unfold Ledger.fetch_account, getitem; rewrite Hname.
    eexists; reflexivity.
  - intros Hexch s st; unfold balances_account, Ledger.fetch_account.
    cbn [bind]; rewrite Hexch; split; reflexivity.
Qed.

Lemma keyword_needs_every_name_witness :
  exists e,
    balances Scenario.market
      (Scenario.db_of [Scenario.wallet1; Scenario.nameless_wallet]) (Some "wallet")
    = Raise e.
Proof.
  exact (proj1 (keyword_needs_every_name (H := ExactDecimal.ops)
                  Scenario.market Scenario.exchange_ok
                  (Scenario.db_of [Scenario.wallet1; Scenario.nameless_wallet])
                  "wallet" Scenario.nameless_wallet
                  (or_intror (or_introl eq_refl)) eq_refl)).
Defined.

(** X6: an account with none of the keys [exchange], [ethereum],
    [bitcoin], [file] is passed over in silence by [balances] and [fetch],
    but the lookup of its local trades raises [ValueError], which ends
    [allowances]. *)
Theorem account_without_kind
        {FVal : Type} `{FValOps FVal}
        (benv : balances_env FVal) (fenv : Ledger.fetch_env)
        (process_history : Ledger.accountant)
        (db : BuchfinkDB) (fs : filesystem) (a : account) (n : string) :
  In a (accounts db) ->
  find_account db n = Ok a ->
  getitem a "name" = Ok n ->
  contains_key "exchange" a = false ->
  contains_key "ethereum" a = false ->
  contains_key "bitcoin" a = false ->
  contains_key "file" a = false ->
  (forall s, balances_account benv db None a s = Ok s)
  /\ (forall st, Ledger.fetch_account fenv db None a st = Ok st)
  /\ Ledger.get_local_trades_for_account db fs n
     = Raise (ValueError ("Invalid account: " ++ n))
  /\ exists e, Ledger.allowances process_history db fs = Raise e.
Proof.
  intros Hin Hfind Hname Hex Heth Hbtc Hfile.
  assert (Hlocal : Ledger.get_local_trades_for_account db fs n
                   = Raise (ValueError ("Invalid account: " ++ n))).
  { unfold Ledger.get_local_trades_for_account.
    rewrite Hfind; cbn [bind]; rewrite Hex, Hfile, Heth, Hbtc; reflexivity. }
  split; [|split; [|split; [exact Hlocal|]]].
  - intros s; unfold balances_account; cbn [bind].
    rewrite Hex, Heth, Hbtc, Hfile; reflexivity.
  - intros st; unfold Ledger.fetch_account; cbn [bind]; rewrite Hex; reflexivity.
  - unfold Ledger.allowances, get_all_accounts.
    destruct (for_each_aborts (Ledger.collect_account db fs) (accounts db) a Hin)
      with (s := @nil Ledger.Trade) as (e & He).
    + intros s; unfold Ledger.collect_account.
      rewrite Hname; cbn [bind]; rewrite Hlocal; eexists; reflexivity.
    + exists e; rewrite He; reflexivity.
Qed.

Lemma account_without_kind_witness :
  Ledger.get_local_trades_for_account
    (Scenario.db_of [Scenario.wallet1; Scenario.stray]) [] "stray"
  = Raise (ValueError "Invalid account: stray").
Proof.
  exact (proj1 (proj2 (proj2 (account_without_kind (H := ExactDecimal.ops)
                  Scenario.market Scenario.exchange_ok Scenario.no_history
                  (Scenario.db_of [Scenario.wallet1; Scenario.stray]) []
                  Scenario.stray "stray"
                  (or_intror (or_introl eq_refl))
                  eq_refl eq_refl eq_refl eq_refl eq_refl eq_refl)))).
Defined.


(** ** The totals of chain accounts *)

(** X7: the quantity and value totals after an ethereum account are the
    pointwise sums: for every asset, its total before plus the amounts (and
    the USD values) that the addresses of the account hold of it, in the
    order of the addresses; an asset that no address holds keeps its
    entries; nothing is logged. *)
Theorem wallet_totals_are_pointwise_sums
        {FVal : Type} `{FValOps FVal}
        (env : balances_env FVal) (acct : account) (m : BlockchainAccounts)
        (b : chain_balances FVal) (s : sums FVal) :
  get_chain_manager acct = Ok m ->
  chain_query_balances env m = Ok b ->
  exists s',
    ethereum_branch env acct s = Ok s'
    /\ log s' = log s
    /\ (forall a,
           get_default (balances_sum s') a fzero
           = fold_left fadd
               (amounts_for a (map (fun i => (fst i, cb_amount (snd i)))
                                   (concat (bal_eth b))))
               (get_default (balances_sum s) a fzero))
    /\ (forall a,
           get_default (usd_value_sum s') a fzero
           = fold_left fadd
               (amounts_for a (map (fun i => (fst i, cb_usd_value (snd i)))
                                   (concat (bal_eth b))))
               (get_default (usd_value_sum s) a fzero))
    /\ (forall a,
           ~ In a (map fst (concat (bal_eth b))) ->
           dget a (balances_sum s') = dget a (balances_sum s)
           /\ dget a (usd_value_sum s') = dget a (usd_value_sum s)).
Proof.
  intros Hm Hb; unfold ethereum_branch; rewrite Hm; cbn [bind]; rewrite Hb.
  cbn [bind]; rewrite eth_balances_fold; eexists; split; [reflexivity|].
  assert (Hq : map quantity_of (concat (map (map chain_entry) (bal_eth b)))
               = map (fun i => (fst i, cb_amount (snd i))) (concat (bal_eth b))).
  { rewrite <- concat_map, map_map; reflexivity. }
  assert (Hv : flat_map value_of (concat (map (map chain_entry) (bal_eth b)))
               = map (fun i => (fst i, cb_usd_value (snd i))) (concat (bal_eth b))).
  { rewrite <- concat_map.
    rewrite (flat_map_value_of_priced _
               (fun e => (fst (fst e), match snd e with Some v => v | None => fzero end))).
    - rewrite map_map; reflexivity.
    - intros e He; apply in_map_iff in He as (i & <- & _); reflexivity. }
  rewrite balances_sum_apply_entries, usd_value_sum_apply_entries, Hq, Hv.
  split; [|split; [|split]].
  - unfold apply_entries; generalize (concat (map (map chain_entry) (bal_eth b))).
    intros es; revert s; induction es as [|e es IH]; intros s; simpl;
      [reflexivity | rewrite IH; reflexivity].
  - intros a; apply add_pairs_total.
  - intros a; apply add_pairs_total.
  - intros a Ha; split; apply add_pairs_untouched;
      apply (amounts_for_absent a (fun i => _ (snd i))); exact Ha.
Qed.

Lemma wallet_totals_are_pointwise_sums_witness :
  exists s',
    ethereum_branch Scenario.market Scenario.wallet1
      {| balances_sum := [("ETH", 2%Q)]; usd_value_sum := [("ETH", 200%Q)];
         log := [] |} = Ok s'
    /\ get_default (balances_sum s') "ETH" 0%Q = 3%Q.
Proof.
  destruct (wallet_totals_are_pointwise_sums (H := ExactDecimal.ops)
              Scenario.market Scenario.wallet1 _ _
              {| balances_sum := [("ETH", 2%Q)]; usd_value_sum := [("ETH", 200%Q)];
                 log := [] |} eq_refl eq_refl)
    as (s' & Hs' & _ & Hq & _).
  exists s'; split; [exact Hs' | exact (Hq "ETH")].
Defined.

(** X8: all bitcoin addresses of an account are summed under the one asset
    BTC: its totals grow by the amounts and USD values of the addresses,
    and no other asset's entry changes. *)
Theorem bitcoin_totals_go_to_BTC
        {FVal : Type} `{FValOps FVal}
        (env : balances_env FVal) (acct : account) (m : BlockchainAccounts)
        (b : chain_balances FVal) (s : sums FVal) :
  get_chain_manager acct = Ok m ->
  chain_query_balances env m = Ok b ->
  exists s',
    bitcoin_branch env acct s = Ok s'
    /\ get_default (balances_sum s') "BTC" fzero
       = fold_left fadd (map cb_amount (bal_btc b))
                   (get_default (balances_sum s) "BTC" fzero)
    /\ get_default (usd_value_sum s') "BTC" fzero
       = fold_left fadd (map cb_usd_value (bal_btc b))
                   (get_default (usd_value_sum s) "BTC" fzero)
    /\ (forall a, a <> "BTC" ->
                  dget a (balances_sum s') = dget a (balances_sum s)
                  /\ dget a (usd_value_sum s') = dget a (usd_value_sum s)).
Proof.
  intros Hm Hb; unfold bitcoin_branch; rewrite Hm; cbn [bind]; rewrite Hb.
  cbn [bind]; rewrite btc_items_fold; eexists; split; [reflexivity|].
  assert (Hq : map quantity_of (map btc_entry (bal_btc b))
               = map (fun x => ("BTC", cb_amount x)) (bal_btc b)).
  { rewrite map_map; reflexivity. }
  assert (Hv : flat_map value_of (map btc_entry (bal_btc b))
               = map (fun x => ("BTC", cb_usd_value x)) (bal_btc b)).
  { rewrite (flat_map_value_of_priced _
               (fun e => (fst (fst e), match snd e with Some v => v | None => fzero end))).
    - rewrite map_map; reflexivity.
    - intros e He; apply in_map_iff in He as (i & <- & _); reflexivity. }
  rewrite balances_sum_apply_entries, usd_value_sum_apply_entries, Hq, Hv.
  split; [|split].
  - rewrite add_pairs_total, amounts_for_same_key; reflexivity.
  - rewrite add_pairs_total, amounts_for_same_key; reflexivity.
  - intros a Ha; split; apply add_pairs_untouched, amounts_for_other_key, Ha.
Qed.

Lemma bitcoin_totals_go_to_BTC_witness :
  exists s',
    bitcoin_branch Scenario.market_btc Scenario.vault Scenario.sums_so_far = Ok s'
    /\ get_default (balances_sum s') "BTC" 0%Q = 3%Q
    /\ get_default (usd_value_sum s') "BTC" 0%Q = 90000%Q
    /\ dget "ETH" (balances_sum s') = Some 2%Q
    /\ dget "ETH" (usd_value_sum s') = Some 200%Q.
Proof.
  destruct (bitcoin_totals_go_to_BTC (H := ExactDecimal.ops)
              Scenario.market_btc Scenario.vault _ _ Scenario.sums_so_far
              eq_refl eq_refl)
    as (s' & Hs' & Hq & Hv & Hother).
  exists s'; split; [exact Hs'|].
  split; [exact Hq|].
  split; [exact Hv|].
  exact (Hother "ETH" (fun Heq : "ETH" = "BTC" =>
                         match Heq in _ = x
                               return match x with
                                      | String "E" _ => True
                                      | _ => False
                                      end
                         with eq_refl => I end)).
Defined.

(** ** The rows of the table *)

Lemma comprehension_total {A B} (f : A -> result B) (l : list A) :
  (forall x, In x l -> exists y, f x = Ok y) ->
  exists ys, comprehension f l = Ok ys.
Proof.
  induction l as [|x l IH]; intros Hf; simpl; [eauto|].
  destruct (Hf x (or_introl eq_refl)) as (y & ->); cbn [bind].
  destruct IH as (ys & ->); [intros z Hz; apply Hf; right; exact Hz|].
  cbn [bind]; eauto.
Qed.

(** X9: once the accounts are read, the table cannot fail on a missing
    quantity: if the reporting currency has a price and every value total
    can be divided by it, [balances] prints a table with one row for each
    asset that has a value total, and the Total row. *)
Theorem balances_has_a_row_per_valued_asset
        {FVal : Type} `{FValOps FVal}
        (env : balances_env FVal) (db : BuchfinkDB) (keyword : option string)
        (s : sums FVal) (currency : Asset) (rate : FVal) :
  balances_accumulate env db keyword = Ok s ->
  get_main_currency env = Ok currency ->
  find_usd_price env currency = Ok rate ->
  (forall a v, In (a, v) (usd_value_sum s) -> exists q, fdiv v rate = Ok q) ->
  exists table,
    balances env db keyword = Ok (table, log s)
    /\ List.length table = S (List.length (usd_value_sum s))
    /\ (forall a, In (Row_asset a) (map row_label_of table)
                  <-> In a (keys (usd_value_sum s))).
Proof.
  intros Hs Hc Hr Hdiv.
  destruct (balances_accumulate_well_formed _ _ _ _ Hs) as (_ & Hnd & Hincl).
  assert (Hval : forall p, In p (sorted_desc (usd_value_sum s)) ->
                           get_default (usd_value_sum s) (fst p) fzero = snd p).
  { intros [a v] Hin; simpl; unfold get_default.
    apply (Permutation_in _ (sorted_desc_perm _)) in Hin.
    rewrite (in_dget _ _ _ Hnd Hin); reflexivity. }
  destruct (comprehension_total (priced_row env s rate)
              (map fst (sorted_desc (usd_value_sum s)))) as (rvs & Hrvs).
  { intros a Ha; apply in_map_iff in Ha as ([a' v] & <- & Hin).
    pose proof (Hval _ Hin) as Hv; simpl in Hv.
    apply (Permutation_in _ (sorted_desc_perm _)) in Hin.
    destruct (Hdiv _ _ Hin) as (q & Hq).
    unfold priced_row, getitem; simpl.
    destruct (dget a' (balances_sum s)) as [bal|] eqn:Hbal.
    - cbn [bind]; rewrite Hv, Hq; cbn [bind]; eauto.
    - exfalso; apply dget_not_in in Hbal; apply Hbal, Hincl.
      change a' with (fst (a', v)); apply in_map; exact Hin. }
  exists (map fst rvs ++ [total_row (fold_left fadd (map snd rvs) fzero)]).
  split; [|split].
  - unfold balances; rewrite Hs; cbn [bind].
    assert (Ht : make_table env s
                 = Ok (map fst rvs ++ [total_row (fold_left fadd (map snd rvs) fzero)])).
    { apply make_table_rows; exists currency, rate, rvs; auto. }
    rewrite Ht; reflexivity.
  - apply comprehension_forall2, Forall2_length in Hrvs.
    rewrite length_map in Hrvs.
    rewrite (Permutation_length (sorted_desc_perm _)) in Hrvs.
    rewrite length_app, length_map, <- Hrvs; simpl; rewrite Nat.add_1_r; reflexivity.
  - apply comprehension_forall2 in Hrvs.
    apply (priced_rows_columns env s rate _ _ Hval) in Hrvs as (_ & Hl & _).
    intros a; rewrite map_app, Hl, in_app_iff; unfold keys; split.
    + intros [Hin|[Hin|[]]]; [|discriminate].
      apply in_map_iff in Hin as (p & [= <-] & Hp).
      apply in_map, (Permutation_in _ (sorted_desc_perm _)); exact Hp.
    + intros Hin; left; apply in_map_iff in Hin as (p & <- & Hp).
      apply in_map_iff; exists p; split; [reflexivity|].
      apply (Permutation_in _ (Permutation_sym (sorted_desc_perm _))); exact Hp.
Qed.

Lemma balances_has_a_row_per_valued_asset_witness :
  exists table lg,
    balances Scenario.market
      (Scenario.db_of [Scenario.kraken1; Scenario.wallet1; Scenario.wallet2]) None
    = Ok (table, lg)
    /\ List.length table = 4%nat.
Proof.
  destruct (balances_has_a_row_per_valued_asset (H := ExactDecimal.ops)
              Scenario.market
              (Scenario.db_of [Scenario.kraken1; Scenario.wallet1; Scenario.wallet2])
              None _ "USD" 1%Q eq_refl eq_refl eq_refl)
    as (table & Ht & Hlen & _).
  - intros a v _; exists (Qred (v / 1)); reflexivity.
  - exists table; eexists; split; [exact Ht | exact Hlen].
Defined.

(** X10: when every account has a name and no name contains the keyword
    (or there is no account at all), [balances] prints the Total row
    alone, with the total of nothing, and logs nothing; no value is
    divided, so the price of the reporting currency does not matter beyond
    being found. *)
Theorem balances_of_no_account_is_the_total_row
        {FVal : Type} `{FValOps FVal}
        (env : balances_env FVal) (db : BuchfinkDB) (k : string)
        (currency : Asset) (rate : FVal) :
  Forall (fun a => exists n, dget "name" a = Some n /\ str_contains k n = false)
         (accounts db) ->
  get_main_currency env = Ok currency ->
  find_usd_price env currency = Ok rate ->
  balances env db (Some k) = Ok ([total_row fzero], []).
Proof.
  intros Hnone Hc Hr.
  assert (Hs : balances_accumulate env db (Some k) = Ok empty_sums).
  { unfold balances_accumulate, get_all_accounts.
    generalize (empty_sums (FVal := FVal)).
    induction Hnone as [|a l (n & Hn & Hk) _ IH]; intros s; simpl; [reflexivity|].
    unfold balances_account at 1, getitem; rewrite Hn; cbn [bind].
    rewrite Hk; cbn [negb bind]; apply IH. }
  unfold balances; rewrite Hs; cbn [bind].
  unfold make_table; rewrite Hc; cbn [bind]; rewrite Hr; reflexivity.
Qed.

Lemma balances_of_no_account_is_the_total_row_witness :
  balances Scenario.market
    (Scenario.db_of [Scenario.kraken1; Scenario.wallet1]) (Some "ledger")
  = Ok ([total_row 0%Q], []).
Proof.
  refine (balances_of_no_account_is_the_total_row (H := ExactDecimal.ops)
            Scenario.market (Scenario.db_of [Scenario.kraken1; Scenario.wallet1])
            "ledger" "USD" 1%Q _ eq_refl eq_refl).
  repeat constructor; eexists; split; reflexivity.
Defined.

(** ** What [fetch] writes *)

(** One pass of [fetch] leaves every file but the ledger of its account as
    it was, and makes no directory. *)
Lemma fetch_account_frame (env : Ledger.fetch_env) (db : BuchfinkDB)
      (keyword : option string) (a : account) (s s' : Ledger.fetch_state)
      (p : string) :
  Ledger.fetch_account env db keyword a s = Ok s' ->
  (contains_key "exchange" a = true ->
   forall n, dget "name" a = Some n ->
             normpath p <> normpath (Ledger.ledger_path n)) ->
  dget (normpath p) (Ledger.disk s') = dget (normpath p) (Ledger.disk s)
  /\ Ledger.folders s' = Ledger.folders s.
Proof.
  unfold Ledger.fetch_account; intros Hrun Hp.
  apply bind_ok in Hrun as (filtered & _ & Hrun).
  destruct filtered; [injection Hrun as <-; split; reflexivity|].
  destruct (contains_key "exchange" a) eqn:Hex; cbn [negb] in Hrun;
    [|injection Hrun as <-; split; reflexivity].
  apply bind_ok in Hrun as (n & Hn & Hrun).
  apply bind_ok in Hrun as (ex & _ & Hrun).
  apply bind_ok in Hrun as ([valid err] & _ & Hrun).
  destruct valid; cbn [negb] in Hrun;
    [|injection Hrun as <-; split; reflexivity].
  apply bind_ok in Hrun as (trades & _ & Hrun).
  apply bind_ok in Hrun as (written & Hw & [= <-]).
  apply write_yaml_target in Hw; subst written.
  cbn [Ledger.disk Ledger.folders Ledger.say]; split; [|reflexivity].
  rewrite dget_dset.
  unfold getitem in Hn; destruct (dget "name" a) as [n'|] eqn:Hn'; [|discriminate].
  injection Hn as ->.
  destruct (String.eqb_spec (normpath p) (normpath (Ledger.ledger_path n)))
    as [Heq|]; [|reflexivity].
  exfalso; exact (Hp eq_refl n eq_refl Heq).
Qed.

(** X11: [fetch] changes no file other than the ledgers of the configured
    exchange accounts, and makes no directory: a path that names another
    file than the ledger [trades/<name>.yaml] of each such account reads
    after [fetch] as it read before. *)
Theorem fetch_writes_only_ledgers
        (env : Ledger.fetch_env) (db : BuchfinkDB) (keyword : option string)
        (s s' : Ledger.fetch_state) (p : string) :
  Ledger.fetch env db keyword s = Ok s' ->
  (forall a n, In a (accounts db) -> contains_key "exchange" a = true ->
               dget "name" a = Some n ->
               normpath p <> normpath (Ledger.ledger_path n)) ->
  load_yaml (Ledger.disk s') p = load_yaml (Ledger.disk s) p
  /\ Ledger.folders s' = Ledger.folders s.
Proof.
  unfold Ledger.fetch, get_all_accounts; intros Hrun Hp.
  assert (Hkept : dget (normpath p) (Ledger.disk s')
                  = dget (normpath p) (Ledger.disk s)
                  /\ Ledger.folders s' = Ledger.folders s).
  { refine (for_each_invariant_in
              (fun t => dget (normpath p) (Ledger.disk t)
                        = dget (normpath p) (Ledger.disk s)
                        /\ Ledger.folders t = Ledger.folders s)
              (Ledger.fetch_account env db keyword) (accounts db)
              _ s s' (conj eq_refl eq_refl) Hrun).
    intros a t t' Ha (Ht & Hf) Hstep; rewrite <- Ht, <- Hf.
    apply (fetch_account_frame env db keyword a t t' p Hstep).
    intros Hex n Hn; exact (Hp a n Ha Hex Hn). }
  destruct Hkept as (Hd & Hf); unfold load_yaml; rewrite Hd; auto.
Qed.

Lemma fetch_writes_only_ledgers_witness :
  exists s',
    Ledger.fetch Scenario.exchange_ok
      (Scenario.db_of [Scenario.kraken1; Scenario.cold]) None
      {| Ledger.disk := Scenario.disk_without_trades;
         Ledger.folders := data_folders; Ledger.messages := [] |}
    = Ok s'
    /\ load_yaml (Ledger.disk s') "./cold.yaml"
       = Ok (YMap [("balances", YSeq [])])
    /\ load_yaml (Ledger.disk s') "trades/kraken1.yaml"
       = Ok (YMap [("trades", YSeq (Ledger.serialize_trades
                                      [Scenario.trade1; Scenario.trade2]))]).
Proof.
  eexists; split; [vm_compute; reflexivity|].
  split; [|vm_compute; reflexivity].
  refine (proj1 (fetch_writes_only_ledgers Scenario.exchange_ok
                   (Scenario.db_of [Scenario.kraken1; Scenario.cold]) None
                   {| Ledger.disk := Scenario.disk_without_trades;
                      Ledger.folders := data_folders; Ledger.messages := [] |}
                   _ "./cold.yaml" eq_refl _)).
  intros a n [<-|[<-|[]]] Hex Hn; [|discriminate Hex].
  injection Hn as <-; vm_compute; discriminate.
Defined.

Lemma named_accounts_pairs (l : list account) (nl : list (string * account)) :
  comprehension with_name l = Ok nl ->
  forall a n, In a l -> dget "name" a = Some n -> In (n, a) nl.
Proof.
  revert nl; induction l as [|b l IH]; simpl; intros nl Hc a n Ha Hn;
    [contradiction|].
  apply bind_ok in Hc as ([m b'] & Hb & Hc).
  apply bind_ok in Hc as (rest & Hrest & [= <-]).
  unfold with_name, getitem in Hb.
  destruct (dget "name" b) as [m'|] eqn:Hm; [|discriminate].
  injection Hb as <- <-.
  destruct Ha as [->|Ha].
  - left; f_equal; exact (eq_sym (f_equal (fun o => match o with Some x => x | None => n end)
                                          (eq_trans (eq_sym Hn) Hm))).
  - right; exact (IH rest Hrest a n Ha Hn).
Qed.

(** With unique names the lookup of a configured account's name returns
    that account. *)
Lemma find_account_of_member (db : BuchfinkDB) (a : account) (n : string) :
  well_named (accounts db) -> In a (accounts db) -> dget "name" a = Some n ->
  find_account db n = Ok a.
Proof.
  intros (Hnamed & Hnd) Ha Hn; unfold find_account.
  destruct (named_accounts _ Hnamed) as (nl & Hnl & Hnames); rewrite Hnl.
  cbn [bind]; rewrite <- Hnames in Hnd.
  pose proof (unique_match nl n Hnd) as Hlen.
  pose proof (named_accounts_pairs _ _ Hnl a n Ha Hn) as Hin.
  assert (Hf : In (n, a) (filter (fun na => String.eqb (fst na) n) nl)).
  { apply filter_In; split; [exact Hin | apply String.eqb_refl]. }
  destruct (filter (fun na => String.eqb (fst na) n) nl) as [|x [|y rest]].
  - contradiction.
  - destruct Hf as [->|[]]; reflexivity.
  - simpl in Hlen; lia.
Qed.

(** X12: after a whole [fetch] in the working directory, with unique
    account names and no slash in the name of an exchange account (so
    that different names mean different ledger files), every exchange
    account that was fetched has its trades on disk: the lookup of its
    local trades returns exactly what the exchange delivered, whatever
    accounts were fetched after it. *)
Theorem fetch_then_local_trades
        (env : Ledger.fetch_env) (db : BuchfinkDB) (keyword : option string)
        (acct : account) (n : string) (ex : exchange) (note : string)
        (trades : list Ledger.Trade) (s s' : Ledger.fetch_state) :
  data_directory db = "." ->
  well_named (accounts db) ->
  (forall a m, In a (accounts db) -> contains_key "exchange" a = true ->
               dget "name" a = Some m -> plain_name m = true) ->
  In acct (accounts db) ->
  dget "name" acct = Some n ->
  contains_key "exchange" acct = true ->
  (forall k, keyword = Some k -> str_contains k n = true) ->
  get_exchange db n = Ok ex ->
  Ledger.fetch_validate_api_key env ex = Ok (true, note) ->
  Ledger.query_online_trade_history env ex = Ok trades ->
  Ledger.fetch env db keyword s = Ok s' ->
  Ledger.get_local_trades_for_account db (Ledger.disk s') n = Ok trades.
Proof.
  intros Hdir Hwn Hplain Hin Hn Hexch Hkw Hex Hval Htrades Hrun.
  pose proof (find_account_of_member db acct n Hwn Hin Hn) as Hfind.
  pose proof (Hplain acct n Hin Hexch Hn) as Hplain_n.
  assert (Hname : getitem acct "name" = Ok n) by (unfold getitem; rewrite Hn; reflexivity).
  pose proof (keyword_passes keyword acct n Hname Hkw) as Hpass.
  destruct Hwn as (_ & Hnd).
  pose proof Hin as Hin'.
  apply in_split in Hin' as (front & behind & Hsplit).
  unfold Ledger.fetch, get_all_accounts in Hrun; rewrite Hsplit in Hrun, Hnd.
  rewrite for_each_app in Hrun; apply bind_ok in Hrun as (s1 & _ & Hrun).
  cbn [for_each] in Hrun; apply bind_ok in Hrun as (s2 & Hstep & Hrun).
  assert (Hwritten : dget (Ledger.ledger_path n) (Ledger.disk s2)
                     = Some (YMap [("trades", YSeq (Ledger.serialize_trades trades))])).
  { unfold Ledger.fetch_account in Hstep; rewrite Hpass in Hstep.
    cbn [bind] in Hstep; rewrite Hexch in Hstep; cbn [negb] in Hstep.
    rewrite Hname in Hstep; cbn [bind] in Hstep.
    rewrite Hex in Hstep; cbn [bind] in Hstep.
    rewrite Hval in Hstep; cbn [bind negb] in Hstep.
    rewrite Htrades in Hstep; cbn [bind] in Hstep.
    apply bind_ok in Hstep as (written & Hw & [= <-]).
    apply write_yaml_target in Hw; subst written; cbn [Ledger.disk].
    rewrite (normpath_ledger_path n Hplain_n), dget_dset, String.eqb_refl.
    reflexivity. }
  assert (Hkept : dget (Ledger.ledger_path n) (Ledger.disk s')
                  = dget (Ledger.ledger_path n) (Ledger.disk s2)).
  { refine (for_each_invariant_in
              (fun t => dget (Ledger.ledger_path n) (Ledger.disk t)
                        = dget (Ledger.ledger_path n) (Ledger.disk s2))
              (Ledger.fetch_account env db keyword) behind _ s2 s' eq_refl Hrun).
    intros b t t' Hb Ht Hb_step; rewrite <- Ht.
    assert (Hb_in : In b (accounts db))
      by (rewrite Hsplit; apply in_or_app; right; right; exact Hb).
    rewrite <- (normpath_ledger_path n Hplain_n).
    apply (fetch_account_frame env db keyword b t t' _ Hb_step).
    intros Hb_ex m Hm Hpath.
    rewrite (normpath_ledger_path n Hplain_n) in Hpath.
    rewrite (normpath_ledger_path m (Hplain b m Hb_in Hb_ex Hm)) in Hpath.
    apply ledger_path_injective in Hpath; subst m.
    rewrite map_app in Hnd; cbn [map] in Hnd.
    apply NoDup_remove_2 in Hnd; apply Hnd.
    apply in_or_app; right.
    replace (dget "name" acct) with (dget "name" b)
      by exact (eq_trans Hm (eq_sym Hn)).
    apply in_map; exact Hb. }
  unfold Ledger.get_local_trades_for_account.
  rewrite Hfind; cbn [bind]; rewrite Hexch, Hname; cbn [bind]; rewrite Hdir.
  unfold load_yaml.
  rewrite (normpath_joined_ledger n Hplain_n), Hkept, Hwritten.
  rewrite (names_file_joined_ledger n Hplain_n).
  cbn [bind yaml_getitem getitem dget String.eqb Ascii.eqb Bool.eqb yaml_iter].
  apply LedgerFacts.deserialize_serialize_all.
Qed.

Lemma fetch_then_local_trades_witness :
  exists s',
    Ledger.fetch Scenario.exchange_ok
      (Scenario.db_of [Scenario.kraken1; Scenario.wallet1; Scenario.binance1])
      None Scenario.no_files = Ok s'
    /\ Ledger.get_local_trades_for_account
         (Scenario.db_of [Scenario.kraken1; Scenario.wallet1; Scenario.binance1])
         (Ledger.disk s') "kraken1"
       = Ok [Scenario.trade1; Scenario.trade2].
Proof.
  eexists; split; [vm_compute; reflexivity|].
  refine (fetch_then_local_trades Scenario.exchange_ok
            (Scenario.db_of [Scenario.kraken1; Scenario.wallet1; Scenario.binance1])
            None Scenario.kraken1 "kraken1" Scenario.kraken_client ""
            [Scenario.trade1; Scenario.trade2] Scenario.no_files _
            eq_refl _ _ (or_introl eq_refl) eq_refl eq_refl _
            eq_refl eq_refl eq_refl eq_refl).
  - split; simpl.
    + repeat constructor; discriminate.
    + repeat constructor; simpl; intuition discriminate.
  - intros a m [<-|[<-|[<-|[]]]] Hex Hm; try discriminate Hex;
      injection Hm as <-; reflexivity.
  - intros k Hk; discriminate Hk.
Defined.

(** ** What [allowances] hands to the accountant *)

(** X13: when the lookup of local trades succeeds for every account,
    [allowances] hands the accountant the trades of all accounts in one
    list, account after account in the order of the configuration, and
    prints one row for each asset the accountant reports, with TBD in the
    third column. *)
Theorem allowances_collects_in_account_order
        (process_history : Ledger.accountant) (db : BuchfinkDB)
        (fs : filesystem) (per_account : list (list Ledger.Trade)) :
  Forall2 (fun a trades =>
             exists n, getitem a "name" = Ok n
                       /\ Ledger.get_local_trades_for_account db fs n = Ok trades)
          (accounts db) per_account ->
  Ledger.allowances process_history db fs
  = (details <- process_history (concat per_account) ;;
     Ok (map (fun d => [fst d; fst (snd d); "TBD"; snd (snd d)]) details)).
Proof.
  intros Hall; unfold Ledger.allowances, get_all_accounts.
  assert (Hloop : forall acc,
             for_each (Ledger.collect_account db fs) (accounts db) acc
             = Ok (acc ++ concat per_account)).
  { induction Hall as [|a trades l tl (n & Hn & Ht) _ IH]; intros acc; simpl.
    - rewrite app_nil_r; reflexivity.
    - unfold Ledger.collect_account at 1; rewrite Hn; cbn [bind].
      rewrite Ht; cbn [bind]; rewrite IH, app_assoc; reflexivity. }
  rewrite Hloop; reflexivity.
Qed.

Lemma allowances_collects_in_account_order_witness :
  Ledger.allowances Scenario.echo_history
    (Scenario.db_of [Scenario.kraken1; Scenario.wallet1; Scenario.paper])
    Scenario.disk_with_trades
  = Ok [["BTC"; "1609459200"; "TBD"; "EUR"];
        ["ETH"; "1612137600"; "TBD"; "EUR"]].
Proof.
  refine (allowances_collects_in_account_order Scenario.echo_history
            (Scenario.db_of [Scenario.kraken1; Scenario.wallet1; Scenario.paper])
            Scenario.disk_with_trades
            [[Scenario.trade1]; []; [Scenario.trade2]] _).
  repeat constructor; eexists; split; reflexivity.
Defined.

(** ** The batch of reports *)

(** X14: [run] builds every stored report before it looks at the keyword:
    a definition that cannot be built (a date that does not parse, a
    missing key) ends the run with its exception for every keyword, also
    one that would not have selected the report. *)
Theorem run_builds_reports_before_filtering
        (env : Reports.report_env) (db : BuchfinkDB) (keyword : option string)
        (front behind : list report_info) (info : report_info) (e : exn) :
  reports db = front ++ info :: behind ->
  Reports.report_of_info env info = Raise e ->
  (exists e', Reports.run env db keyword = Raise e')
  /\ (forall s1,
         for_each (Reports.run_one env keyword)
                  (map (Reports.report_of_info env) front)
                  {| Reports.results := []; Reports.started := [] |} = Ok s1 ->
         Reports.run env db keyword = Raise e).
Proof.
  intros Hreports Hinfo.
  assert (Hone : forall s, Reports.run_one env keyword
                             (Reports.report_of_info env info) s = Raise e).
  { intros s; unfold Reports.run_one; rewrite Hinfo; reflexivity. }
  unfold Reports.run, Reports.get_all_reports.
  rewrite Hreports, map_app, for_each_app; cbn [map for_each].
  split.
  - destruct (for_each _ (map _ front) _) as [s1|e1]; cbn [bind].
    + rewrite Hone; cbn [bind]; eexists; reflexivity.
    + eexists; reflexivity.
  - intros s1 ->; cbn [bind]; rewrite Hone; reflexivity.
Qed.

Lemma run_builds_reports_before_filtering_witness :
  Reports.run Scenario.accounting_ok
    (Scenario.db_reports
       [Scenario.report_2020;
        [("name", "garbled"); ("from", "yesterday"); ("to", "2021-01-01")]])
    (Some "2020")
  = Raise (ValueError "Invalid isoformat string: 'yesterday'").
Proof.
  exact (proj2 (run_builds_reports_before_filtering
                  Scenario.accounting_ok
                  (Scenario.db_reports
                     [Scenario.report_2020;
                      [("name", "garbled"); ("from", "yesterday"); ("to", "2021-01-01")]])
                  (Some "2020") [Scenario.report_2020] []
                  [("name", "garbled"); ("from", "yesterday"); ("to", "2021-01-01")]
                  _ eq_refl eq_refl) _ eq_refl).
Defined.

Section RunLoop.
Variable env : Reports.report_env.
Variable keyword : option string.

Lemma run_one_ok (next : result Reports.ReportConfig) (s0 s1 : Reports.run_state) :
  Reports.run_one env keyword next s0 = Ok s1 ->
  exists cfg,
    next = Ok cfg
    /\ ((report_selected keyword cfg = false /\ s1 = s0)
        \/ (report_selected keyword cfg = true
            /\ exists r,
                Reports.run_report env cfg = Ok r
                /\ s1 = {| Reports.results :=
                             dset (Reports.name cfg) r (Reports.results s0);
                           Reports.started := Reports.started s0 ++ [cfg] |})).
Proof.
  unfold Reports.run_one; intros Hrun.
  apply bind_ok in Hrun as (cfg & -> & Hrun); exists cfg; split; [reflexivity|].
  unfold report_selected; destruct keyword as [k|].
  - destruct (str_contains k (Reports.name cfg)); cbn [negb] in Hrun.
    + right; split; [reflexivity|].
      apply bind_ok in Hrun as (r & Hr & [= <-]); eauto.
    + left; injection Hrun as <-; auto.
  - right; split; [reflexivity|].
    apply bind_ok in Hrun as (r & Hr & [= <-]); eauto.
Qed.

Lemma run_loop (infos : list report_info) (s0 s : Reports.run_state) :
  for_each (Reports.run_one env keyword)
           (map (Reports.report_of_info env) infos) s0 = Ok s ->
  exists cfgs,
    Forall2 (fun info cfg => Reports.report_of_info env info = Ok cfg) infos cfgs
    /\ Reports.started s
       = Reports.started s0 ++ filter (report_selected keyword) cfgs
    /\ Forall (fun cfg => exists r, Reports.run_report env cfg = Ok r)
              (filter (report_selected keyword) cfgs)
    /\ (NoDup (keys (Reports.results s0)) -> NoDup (keys (Reports.results s)))
    /\ (forall n, In n (keys (Reports.results s))
                  <-> In n (keys (Reports.results s0))
                      \/ In n (map Reports.name
                                   (filter (report_selected keyword) cfgs))).
Proof.
  revert s0; induction infos as [|info infos IH]; intros s0 Hrun; simpl in Hrun.
  - injection Hrun as <-; exists []; simpl; rewrite app_nil_r.
    split; [constructor|]. split; [reflexivity|]. split; [constructor|].
    split; [auto|]. intros n; split; [auto | intros [?|[]]; assumption].
  - apply bind_ok in Hrun as (s1 & Hone & Hrun).
    apply run_one_ok in Hone as (cfg & Hcfg & Hcase).
    destruct (IH s1 Hrun) as (cfgs & Hcfgs & Hstarted & Hran & Hnd & Hkeys).
    exists (cfg :: cfgs); split; [constructor; assumption|].
    destruct Hcase as [(Hsel & ->)|(Hsel & r & Hr & ->)]; simpl; rewrite Hsel.
    + repeat split; try assumption; apply Hkeys.
    + simpl in *; split; [rewrite Hstarted, <- app_assoc; reflexivity|].
      split; [constructor; eauto|].
      split; [intros Hnd0; apply Hnd, NoDup_keys_dset, Hnd0|].
      intros n; rewrite Hkeys, in_keys_dset; intuition.
Qed.

End RunLoop.

Lemma overview_rows_heads (rs : dict Reports.report_result)
      (table : list (list string)) :
  comprehension Reports.overview_row rs = Ok table ->
  map (hd "") table = keys rs.
Proof.
  revert table; induction rs as [|entry rs IH]; simpl; intros table Hc.
  - injection Hc as <-; reflexivity.
  - apply bind_ok in Hc as (row & Hrow & Hc).
    apply bind_ok in Hc as (rows & Hrows & [= <-]).
    unfold Reports.overview_row in Hrow.
    apply bind_ok in Hrow as (ov & _ & Hrow).
    apply bind_ok in Hrow as (t1 & _ & Hrow).
    apply bind_ok in Hrow as (t2 & _ & [= <-]).
    simpl; rewrite (IH rows Hrows); reflexivity.
Qed.

(** X15: when [run] prints its table, every stored report was built, the
    reports handed to [run_report] are exactly those whose name contains
    the keyword (all of them without a keyword), in the order of the
    configuration, each was computed, and the table has one row for each
    distinct name among them: reports that share a name share a row. *)
Theorem run_rows_are_the_selected_names
        (env : Reports.report_env) (db : BuchfinkDB) (keyword : option string)
        (table : list (list string)) (started : list Reports.ReportConfig) :
  Reports.run env db keyword = Ok (table, started) ->
  exists cfgs,
    Forall2 (fun info cfg => Reports.report_of_info env info = Ok cfg)
            (reports db) cfgs
    /\ started = filter (report_selected keyword) cfgs
    /\ Forall (fun cfg => exists r, Reports.run_report env cfg = Ok r) started
    /\ NoDup (map (hd "") table)
    /\ (forall n, In n (map (hd "") table) <-> In n (map Reports.name started)).
Proof.
  unfold Reports.run, Reports.get_all_reports; intros Hrun.
  apply bind_ok in Hrun as (s & Hloop & Hrun).
  apply bind_ok in Hrun as (t & Ht & [= <- <-]).
  apply run_loop in Hloop as (cfgs & Hcfgs & Hstarted & Hran & Hnd & Hkeys).
  simpl in Hstarted; rewrite (overview_rows_heads _ _ Ht), Hstarted.
  exists cfgs; repeat split; try assumption.
  - apply Hnd; constructor.
  - intros Hin; apply Hkeys in Hin as [[]|Hin]; exact Hin.
  - intros Hin; apply Hkeys; right; exact Hin.
Qed.

Lemma run_rows_are_the_selected_names_witness :
  exists table started,
    Reports.run Scenario.accounting_ok
      (Scenario.db_reports [Scenario.report_2020; Scenario.report_annual;
                            Scenario.report_2020; Scenario.report_2021])
      (Some "20")
    = Ok (table, started)
    /\ List.length started = 3%nat
    /\ map (hd "") table = ["2020"; "2021"].
Proof.
  do 2 eexists; split; [vm_compute; reflexivity|].
  destruct (run_rows_are_the_selected_names Scenario.accounting_ok
              (Scenario.db_reports [Scenario.report_2020; Scenario.report_annual;
                                    Scenario.report_2020; Scenario.report_2021])
              (Some "20") _ _ eq_refl) as (cfgs & _ & _ & _ & _ & _).
  split; reflexivity.
Defined.

(** ** File accounts in [balances] *)

(** X16: a file account whose document is a mapping without [balances]
    adds nothing to [balances] and raises nothing.  With a list of
    balances, each entry is valued at its amount times the USD price of
    its asset, and an entry that cannot be read or priced ends the
    command: for file accounts a missing price is fatal. *)
Theorem file_account_balances
        {FVal : Type} `{FValOps FVal}
        (env : balances_env FVal) (acct : account) (path : string)
        (doc : list (string * yaml)) (s : sums FVal) :
  getitem acct "file" = Ok path ->
  load_yaml (files env) path = Ok (YMap doc) ->
  (dget "balances" doc = None -> file_branch env acct s = Ok s)
  /\ (forall items es,
         dget "balances" doc = Some (YSeq items) ->
         Forall2 (fun item e =>
                    exists raw_amount raw_asset amount asset price,
                      yaml_getitem item "amount" = Ok raw_amount
                      /\ new_FVal env raw_amount = Ok amount
                      /\ yaml_getitem item "asset" = Ok raw_asset
                      /\ new_Asset env raw_asset = Ok asset
                      /\ find_usd_price env asset = Ok price
                      /\ e = (asset, amount, Some (fmul amount price)))
                 items es ->
         file_branch env acct s = Ok (apply_entries es s))
  /\ (forall items item e,
         dget "balances" doc = Some (YSeq items) ->
         In item items ->
         file_entry env item = Raise e ->
         exists e', file_branch env acct s = Raise e').
Proof.
  intros Hpath Hdoc; unfold file_branch; rewrite Hpath; cbn [bind]; rewrite Hdoc.
  cbn [bind yaml_contains]; unfold contains_key.
  split; [|split].
  - intros ->; reflexivity.
  - intros items es Hb Hall; rewrite Hb; cbn [yaml_getitem]; unfold getitem.
    rewrite Hb; cbn [bind yaml_iter]; rewrite file_items_fold.
    assert (Hes : comprehension (file_entry env) items = Ok es).
    { apply forall2_comprehension.
      eapply Forall2_impl; [|exact Hall]; cbv beta.
      intros item e (ra & rs & am & asset & price & H1 & H2 & H3 & H4 & H5 & ->).
      unfold file_entry; rewrite H1; cbn [bind]; rewrite H2; cbn [bind].
      rewrite H3; cbn [bind]; rewrite H4; cbn [bind]; rewrite H5; reflexivity. }
    rewrite Hes; reflexivity.
  - intros items item e Hb Hin He; rewrite Hb; cbn [yaml_getitem]; unfold getitem.
    rewrite Hb; cbn [bind yaml_iter]; rewrite file_items_fold.
    destruct (comprehension_aborts _ _ _ _ Hin He) as (e' & ->).
    eexists; reflexivity.
Qed.

Lemma file_account_balances_witness :
  file_branch Scenario.desk Scenario.paper empty_sums = Ok empty_sums
  /\ exists e, file_branch Scenario.desk Scenario.cold empty_sums = Raise e.
Proof.
  split.
  - exact (proj1 (file_account_balances (H := ExactDecimal.ops)
                    Scenario.desk Scenario.paper "paper.yaml"
                    [("trades", YSeq [])] empty_sums eq_refl eq_refl) eq_refl).
  - exact (proj2 (proj2 (file_account_balances (H := ExactDecimal.ops)
                    Scenario.desk Scenario.cold "cold.yaml" _ empty_sums
                    eq_refl eq_refl))
                 _ (YMap [("asset", YStr "XYZ"); ("amount", YInt 5)])
                 (Raised "PriceQueryUnsupportedAsset")
                 eq_refl (or_intror (or_introl eq_refl)) eq_refl).
Defined.
